(** * FITS viewer: scaling engine, channel reduction, transform pipeline,
      histogram and file-manager accessors

    A shallow embedding of

    - [src/image_display_engine.py]  (class [ImageDisplayEngine]),
    - [src/histogram_widget.py]      (class [HistogramWidget]),
    - [src/fits_file_manager.py]     (class [FITSFileManager]),
    - [src/main_window.py]           (of class [MainWindow]: the rotate /
                                      flip pipeline, the zoom commands,
                                      the cursor read-out, the handlers
                                      of the two scaling sliders and the
                                      state of the colormap controls; of
                                      class [HeaderMetadataDialog]:
                                      [format_header_text]).

    Numbers.  Array elements and scaling bounds are IEEE values in the
    program.  They are modelled by [float]: a real number, one of the two
    infinities, or NaN.  Arithmetic on finite values is exact real
    arithmetic (rounding and overflow are not modelled, and the two zeros
    are identified); the special values follow IEEE and numpy.

    Arrays.  The modelled code never assigns into an array that another
    object refers to: [copy], [astype], [np.clip], [np.array],
    [ndimage.rotate], [np.flip], [np.transpose] and indexing produce a new
    array object or a view that is only read afterwards, and the one
    in-place assignment, in [_apply_scaling], fills an array created in
    that call.  Arrays are therefore values ([ndarray]: element type,
    shape, row-major buffer) and the attributes that hold them are record
    fields.

    Effects.  Methods that update attributes and may raise are written in
    a state-and-exception monad [M S A]: attribute updates made before an
    exception is raised persist, as in Python. *)

From Stdlib Require Import String Reals Lra Lia ZArith Bool Arith List
  Permutation.
Import ListNotations.

Open Scope R_scope.

(* ================================================================== *)
(** * Part I.  The model                                               *)
(* ================================================================== *)

(** ** Exceptions and results *)

Inductive exn : Type :=
| ValueError
| IndexError
| TypeError
| AxisError
| LibraryError.

Inductive result (A : Type) : Type :=
| Ok (a : A)
| Raise (e : exn).
Arguments Ok {A} a.
Arguments Raise {A} e.

Definition rbind {A B} (r : result A) (k : A -> result B) : result B :=
  match r with
  | Ok a => k a
  | Raise e => Raise e
  end.

Declare Scope result_scope.
Delimit Scope result_scope with result.
Notation "x <-? c ; k" := (rbind c (fun x => k))
  (at level 61, c at next level, right associativity) : result_scope.

Fixpoint rmap {A B} (f : A -> result B) (l : list A) : result (list B) :=
  match l with
  | [] => Ok []
  | a :: l' =>
      (b <-? f a ;
       bs <-? rmap f l' ;
       Ok (b :: bs))%result
  end.

(** ** Floating-point values *)

Inductive float : Type :=
| Fin (r : R)
| PosInf
| NegInf
| NaN.

(** [np.isfinite] *)
Definition isfinite (x : float) : bool :=
  match x with
  | Fin _ => true
  | _ => false
  end.

Definition fneg (x : float) : float :=
  match x with
  | Fin r => Fin (- r)
  | PosInf => NegInf
  | NegInf => PosInf
  | NaN => NaN
  end.

Definition fadd (x y : float) : float :=
  match x, y with
  | NaN, _ | _, NaN => NaN
  | Fin a, Fin b => Fin (a + b)
  | PosInf, NegInf | NegInf, PosInf => NaN
  | PosInf, _ | _, PosInf => PosInf
  | NegInf, _ | _, NegInf => NegInf
  end.

Definition fsub (x y : float) : float := fadd x (fneg y).

Definition fdiv (x y : float) : float :=
  match x, y with
  | NaN, _ | _, NaN => NaN
  | Fin a, Fin b =>
      if Req_dec_T b 0 then
        if Req_dec_T a 0 then NaN
        else if Rlt_dec 0 a then PosInf else NegInf
      else Fin (a / b)
  | Fin _, _ => Fin 0
  | PosInf, Fin b => if Rlt_dec b 0 then NegInf else PosInf
  | NegInf, Fin b => if Rlt_dec b 0 then PosInf else NegInf
  | _, _ => NaN
  end.

(** [x < y]; every comparison with NaN is false. *)
Definition flt (x y : float) : bool :=
  match x, y with
  | NaN, _ | _, NaN => false
  | Fin a, Fin b => if Rlt_dec a b then true else false
  | Fin _, PosInf => true
  | Fin _, NegInf => false
  | PosInf, _ => false
  | NegInf, NegInf => false
  | NegInf, _ => true
  end.

(** [np.maximum] and [np.minimum]: NaN propagates. *)
Definition fmaximum (x y : float) : float :=
  match x, y with
  | NaN, _ | _, NaN => NaN
  | Fin a, Fin b => Fin (Rmax a b)
  | PosInf, _ | _, PosInf => PosInf
  | NegInf, z | z, NegInf => z
  end.

Definition fminimum (x y : float) : float :=
  match x, y with
  | NaN, _ | _, NaN => NaN
  | Fin a, Fin b => Fin (Rmin a b)
  | NegInf, _ | _, NegInf => NegInf
  | PosInf, z | z, PosInf => z
  end.

Definition fabs (x : float) : float :=
  match x with
  | Fin r => Fin (Rabs r)
  | PosInf | NegInf => PosInf
  | NaN => NaN
  end.

(** [np.sqrt] *)
Definition fsqrt (x : float) : float :=
  match x with
  | Fin r => if Rle_dec 0 r then Fin (sqrt r) else NaN
  | PosInf => PosInf
  | NegInf | NaN => NaN
  end.

(** [np.log10] *)
Definition flog10 (x : float) : float :=
  match x with
  | Fin r =>
      if Rlt_dec 0 r then Fin (ln r / ln 10)
      else if Req_dec_T r 0 then NegInf else NaN
  | PosInf => PosInf
  | NegInf | NaN => NaN
  end.

(** [np.arcsinh] *)
Definition farcsinh (x : float) : float :=
  match x with
  | Fin r => Fin (arcsinh r)
  | PosInf => PosInf
  | NegInf => NegInf
  | NaN => NaN
  end.

(** [a.min()] and [a.max()] of a flattened array: [ValueError] on a
    zero-size array, NaN as soon as one element is NaN. *)
Definition amin (xs : list float) : result float :=
  match xs with
  | [] => Raise ValueError
  | x :: xs' => Ok (fold_left fminimum xs' x)
  end.

Definition amax (xs : list float) : result float :=
  match xs with
  | [] => Raise ValueError
  | x :: xs' => Ok (fold_left fmaximum xs' x)
  end.

(** [np.clip(a, lo, hi)] is [np.minimum(hi, np.maximum(a, lo))]. *)
Definition clip (lo hi : float) (x : float) : float :=
  fminimum (fmaximum x lo) hi.

(** ** Element types *)

Inductive byteorder : Type := LittleEndian | BigEndian.

(** The numpy element types the viewer meets: signed and unsigned integers
    and floats of a given width, in either byte order (FITS data are
    big-endian on disk). *)
Inductive DType : Type :=
| DInt (bits : Z) (bo : byteorder)
| DUInt (bits : Z) (bo : byteorder)
| DFloat (bits : Z) (bo : byteorder).

Definition byteorder_eqb (a b : byteorder) : bool :=
  match a, b with
  | LittleEndian, LittleEndian | BigEndian, BigEndian => true
  | _, _ => false
  end.

Definition dtype_eqb (a b : DType) : bool :=
  match a, b with
  | DInt n x, DInt m y => Z.eqb n m && byteorder_eqb x y
  | DUInt n x, DUInt m y => Z.eqb n m && byteorder_eqb x y
  | DFloat n x, DFloat m y => Z.eqb n m && byteorder_eqb x y
  | _, _ => false
  end.

(** [np.issubdtype(d, np.integer)] *)
Definition is_integer (d : DType) : bool :=
  match d with
  | DInt _ _ | DUInt _ _ => true
  | DFloat _ _ => false
  end.

(** [np.iinfo(d).min] and [np.iinfo(d).max] *)
Definition iinfo_min (d : DType) : Z :=
  match d with
  | DInt bits _ => (- 2 ^ (bits - 1))%Z
  | _ => 0%Z
  end.

Definition iinfo_max (d : DType) : Z :=
  match d with
  | DInt bits _ => (2 ^ (bits - 1) - 1)%Z
  | DUInt bits _ => (2 ^ bits - 1)%Z
  | DFloat _ _ => 0%Z
  end.

(** Reduction of an integer to the width of an integer element type
    (two's complement for the signed ones). *)
Definition wrap (d : DType) (z : Z) : Z :=
  match d with
  | DInt bits _ => ((z + 2 ^ (bits - 1)) mod 2 ^ bits - 2 ^ (bits - 1))%Z
  | DUInt bits _ => (z mod 2 ^ bits)%Z
  | DFloat _ _ => z
  end.

(** Truncation toward zero, the C conversion of a float to an integer. *)
Definition Rtrunc (r : R) : Z :=
  if Rle_dec 0 r then Int_part r else (- Int_part (- r))%Z.


(** ** Arrays *)

Record ndarray : Type := mk_ndarray {
  dtype : DType;
  shape : list nat;
  flat : list float   (* the elements in row-major (C) order *)
}.

Definition ndim (a : ndarray) : nat := length (shape a).

Definition prod (dims : list nat) : nat := fold_right Nat.mul 1%nat dims.

Definition size (a : ndarray) : nat := prod (shape a).

(** [a.copy()] *)
Definition copy (a : ndarray) : ndarray :=
  {| dtype := dtype a; shape := shape a; flat := flat a |}.

(** Offset of a full multi-index in the row-major buffer. *)
Fixpoint flat_index (dims idx : list nat) : option nat :=
  match dims, idx with
  | [], [] => Some 0%nat
  | d :: dims', i :: idx' =>
      if (i <? d)%nat then
        match flat_index dims' idx' with
        | Some r => Some (i * prod dims' + r)%nat
        | None => None
        end
      else None
  | _, _ => None
  end.

(** [a[i0, i1, ..., ik]] for a full index: the element, if in range. *)
Definition item (a : ndarray) (idx : list nat) : option float :=
  match flat_index (shape a) idx with
  | Some k => nth_error (flat a) k
  | None => None
  end.

(** [a[i]]: the sub-array at index [i] of the first axis. *)
Definition index_first (a : ndarray) (i : nat) : result ndarray :=
  match shape a with
  | [] => Raise IndexError
  | d :: dims =>
      if (i <? d)%nat then
        Ok {| dtype := dtype a;
              shape := dims;
              flat := firstn (prod dims) (skipn (i * prod dims) (flat a)) |}
      else Raise IndexError
  end.

(** [a[tuple(indices)]] *)
Fixpoint index_tuple (a : ndarray) (indices : list nat) : result ndarray :=
  match indices with
  | [] => Ok a
  | i :: rest =>
      (b <-? index_first a i ;
       index_tuple b rest)%result
  end.

(** Arrays built by reading the source buffer at computed offsets. *)
Definition gather (n : nat) (src : nat -> nat) (xs : list float) : list float :=
  map (fun k => nth (src k) xs (Fin 0)) (seq 0 n).

(** [np.transpose(a, (1, 2, 0))] of a rank-3 array. *)
Definition transpose_120 (a : ndarray) : result ndarray :=
  match shape a with
  | [c; h; w] =>
      Ok {| dtype := dtype a;
            shape := [h; w; c];
            flat := gather (h * w * c)
                      (fun k => (k mod c) * (h * w) + k / c)%nat (flat a) |}
  | _ => Raise ValueError
  end.

(** [np.flip(a, axis=-1)]: reverse the last axis. *)
Definition flip_last (a : ndarray) : result ndarray :=
  match rev (shape a) with
  | w :: _ =>
      Ok {| dtype := dtype a;
            shape := shape a;
            flat := gather (length (flat a))
                      (fun k => k - k mod w + (w - 1 - k mod w))%nat (flat a) |}
  | [] => Raise AxisError
  end.

(** [np.flip(a, axis=-2)]: reverse the second-to-last axis. *)
Definition flip_second_last (a : ndarray) : result ndarray :=
  match rev (shape a) with
  | w :: h :: _ =>
      Ok {| dtype := dtype a;
            shape := shape a;
            flat := gather (length (flat a))
                      (fun k => k - k mod (h * w)
                                + (h - 1 - (k mod (h * w)) / w) * w
                                + k mod w)%nat (flat a) |}
  | _ => Raise AxisError
  end.

(** [a[:, :, i]] of a rank-3 array. *)
Definition channel_last (a : ndarray) (i : nat) : result ndarray :=
  match shape a with
  | [h; w; c] =>
      if (i <? c)%nat then
        Ok {| dtype := dtype a;
              shape := [h; w];
              flat := gather (h * w) (fun k => k * c + i)%nat (flat a) |}
      else Raise IndexError
  | _ => Raise IndexError
  end.

Definition shape_eqb (s t : list nat) : bool :=
  if list_eq_dec Nat.eq_dec s t then true else false.

(** [a[:, :, i] = ch] on a rank-3 array, as the array after the
    assignment; the shapes must agree. *)
Definition set_channel_last (a : ndarray) (i : nat) (ch : ndarray)
  : result ndarray :=
  match shape a with
  | [h; w; c] =>
      if (i <? c)%nat then
        if shape_eqb (shape ch) [h; w] then
          Ok {| dtype := dtype a;
                shape := shape a;
                flat := map (fun k => if (k mod c =? i)%nat
                                      then nth (k / c) (flat ch) (Fin 0)
                                      else nth k (flat a) (Fin 0))
                            (seq 0 (length (flat a))) |}
        else Raise ValueError
      else Raise IndexError
  | _ => Raise IndexError
  end.

Definition float32 : DType := DFloat 32 LittleEndian.
Definition float64 : DType := DFloat 64 LittleEndian.

(** [a.astype(d)] for a floating [d]: exact on the modelled values. *)
Definition astype_float (d : DType) (a : ndarray) : ndarray :=
  {| dtype := d; shape := shape a; flat := flat a |}.

(** [np.zeros_like(a, dtype=d)] *)
Definition zeros_like (a : ndarray) (d : DType) : ndarray :=
  {| dtype := d; shape := shape a; flat := repeat (Fin 0) (length (flat a)) |}.

(** Element type of an arithmetic result of an array with Python floats:
    floats keep their width, integers become [float64]. *)
Definition float_result (d : DType) : DType :=
  match d with
  | DFloat bits _ => DFloat bits LittleEndian
  | _ => float64
  end.

(** ** State and exceptions *)

Definition M (S A : Type) : Type := S -> result A * S.

Definition ret {S A} (a : A) : M S A := fun s => (Ok a, s).

Definition bind {S A B} (c : M S A) (k : A -> M S B) : M S B :=
  fun s =>
    match c s with
    | (Ok a, s') => k a s'
    | (Raise e, s') => (Raise e, s')
    end.

Definition get {S} : M S S := fun s => (Ok s, s).

Definition modify {S} (f : S -> S) : M S unit := fun s => (Ok tt, f s).

(** A computation that reads the state and may raise. *)
Definition reading {S A} (f : S -> result A) : M S A := fun s => (f s, s).

Declare Scope monad_scope.
Delimit Scope monad_scope with monad.
Notation "x <- c ;; k" := (bind c (fun x => k))
  (at level 61, c at next level, right associativity) : monad_scope.
Notation "c ;; k" := (bind c (fun _ => k))
  (at level 61, right associativity) : monad_scope.

(** ** numpy.percentile (default linear interpolation) *)

Fixpoint insert_sorted (x : R) (l : list R) : list R :=
  match l with
  | [] => [x]
  | y :: l' => if Rle_dec x y then x :: l else y :: insert_sorted x l'
  end.

Definition sort (l : list R) : list R := fold_right insert_sorted [] l.

(** [np.percentile(a, q)] of a non-empty one-dimensional array of finite
    values: the value at the virtual index [q/100 * (n-1)] of the sorted
    array, interpolated linearly between its two neighbours. *)
Definition percentile (a : list R) (q : R) : result R :=
  if Rle_dec 0 q then
    if Rle_dec q 100 then
      let sorted := sort a in
      let n := length a in
      let virtual_index := q / 100 * INR (n - 1) in
      let previous := Nat.min (Z.to_nat (Int_part virtual_index)) (n - 1) in
      let next := Nat.min (previous + 1) (n - 1) in
      let gamma := virtual_index - IZR (Int_part virtual_index) in
      let lower := nth previous sorted 0 in
      let upper := nth next sorted 0 in
      Ok (lower + (upper - lower) * gamma)
    else Raise ValueError
  else Raise ValueError.

(** [a[np.isfinite(a)]]: the finite elements, in order. *)
Definition finite_values (xs : list float) : list R :=
  flat_map (fun x => match x with Fin r => [r] | _ => [] end) xs.

(** [a.min()] and [a.max()] of a non-empty array of finite values. *)
Definition Rlist_min (x : R) (xs : list R) : R := fold_left Rmin xs x.
Definition Rlist_max (x : R) (xs : list R) : R := fold_left Rmax xs x.

(* ------------------------------------------------------------------ *)
(** ** image_display_engine.py: class ImageDisplayEngine               *)
(* ------------------------------------------------------------------ *)

Record ImageDisplayEngine : Type := mk_engine {
  current_data : option ndarray;
  vmin : option float;
  vmax : option float;
  scaling_mode : string;
  colormap : string;
  image : option ndarray   (* the scaled array last handed to [imshow] *)
}.

(** [ImageDisplayEngine.__init__] *)
Definition new_engine : ImageDisplayEngine :=
  {| current_data := None; vmin := None; vmax := None;
     scaling_mode := "linear"; colormap := "viridis"; image := None |}.

Definition with_current_data (d : option ndarray) (e : ImageDisplayEngine) :=
  {| current_data := d; vmin := vmin e; vmax := vmax e;
     scaling_mode := scaling_mode e; colormap := colormap e;
     image := image e |}.

Definition with_vmin (v : option float) (e : ImageDisplayEngine) :=
  {| current_data := current_data e; vmin := v; vmax := vmax e;
     scaling_mode := scaling_mode e; colormap := colormap e;
     image := image e |}.

Definition with_vmax (v : option float) (e : ImageDisplayEngine) :=
  {| current_data := current_data e; vmin := vmin e; vmax := v;
     scaling_mode := scaling_mode e; colormap := colormap e;
     image := image e |}.

Definition with_scaling_mode (m : string) (e : ImageDisplayEngine) :=
  {| current_data := current_data e; vmin := vmin e; vmax := vmax e;
     scaling_mode := m; colormap := colormap e; image := image e |}.

Definition with_colormap (c : string) (e : ImageDisplayEngine) :=
  {| current_data := current_data e; vmin := vmin e; vmax := vmax e;
     scaling_mode := scaling_mode e; colormap := c; image := image e |}.

Definition with_image (i : option ndarray) (e : ImageDisplayEngine) :=
  {| current_data := current_data e; vmin := vmin e; vmax := vmax e;
     scaling_mode := scaling_mode e; colormap := colormap e; image := i |}.

(** [_prepare_data_for_display] *)
Definition _prepare_data_for_display (self : ImageDisplayEngine)
  : result (option ndarray) :=
  match current_data self with
  | None => Ok None
  | Some data =>
      if (ndim data =? 1)%nat then
        (* 1D data - can't display as image *)
        Ok None
      else if (ndim data =? 2)%nat then
        (* 2D data - display directly *)
        Ok (Some data)
      else if (ndim data =? 3)%nat then
        if (nth 0 (shape data) 0 =? 3)%nat then
          (* transpose to (height, width, channels) *)
          (rgb_data <-? transpose_120 data ;
           Ok (Some rgb_data))%result
        else
          (* take middle slice *)
          let middle_idx := (nth 0 (shape data) 0 / 2)%nat in
          (slice <-? index_first data middle_idx ;
           Ok (Some slice))%result
      else
        let indices :=
          map (fun i => (nth i (shape data) 0 / 2)%nat)
              (seq 0 (ndim data - 2)) in
        (slice <-? index_tuple data indices ;
         Ok (Some slice))%result
  end.

(** The block under [# Normalize to 0-1], the same in the log, sqrt and
    asinh branches: min-max normalisation by the array's own extremes,
    the array itself when they do not differ. *)
Definition normalize_to_0_1 (scaled : list float) : result (list float) :=
  (scaled_min <-? amin scaled ;
   scaled_max <-? amax scaled ;
   if flt scaled_min scaled_max then
     Ok (map (fun s => fdiv (fsub s scaled_min) (fsub scaled_max scaled_min))
             scaled)
   else Ok scaled)%result.

(** [np.clip(a, lo, hi)] on the buffer, where a bound may still be [None]:
    such a bound is not applied, and numpy raises when both are [None]. *)
Definition np_clip_bounds (lo hi : option float) (xs : list float)
  : result (list float) :=
  match lo, hi with
  | Some l, Some h => Ok (map (clip l h) xs)
  | Some l, None => Ok (map (fun x => fmaximum x l) xs)
  | None, Some h => Ok (map (fun x => fminimum x h) xs)
  | None, None => Raise ValueError
  end.

(** A bound used in arithmetic or in a comparison: [None] there is a
    [TypeError]. *)
Definition operand (bound : option float) : result float :=
  match bound with
  | Some v => Ok v
  | None => Raise TypeError
  end.

(** [_apply_scaling_to_channel] *)
Definition _apply_scaling_to_channel (self : ImageDisplayEngine)
    (data : ndarray) : result ndarray :=
  let array_of (values : list float) : ndarray :=
    {| dtype := float_result (dtype data);
       shape := shape data;
       flat := values |} in
  (* clip data to vmin/vmax range *)
  (clipped <-? np_clip_bounds (vmin self) (vmax self) (flat data) ;
   if (scaling_mode self =? "linear")%string then
     (* linear scaling - normalize to 0-1 *)
     hi <-? operand (vmax self) ;
     lo <-? operand (vmin self) ;
     if flt lo hi then
       Ok (array_of (map (fun c => fdiv (fsub c lo) (fsub hi lo)) clipped))
     else Ok (array_of clipped)
   else if (scaling_mode self =? "log")%string then
     (* shift data to be positive *)
     lo <-? operand (vmin self) ;
     let shifted := map (fun c => fadd (fsub c lo) (Fin 1)) clipped in
     let scaled := map flog10 shifted in
     normalized <-? normalize_to_0_1 scaled ;
     Ok (array_of normalized)
   else if (scaling_mode self =? "sqrt")%string then
     lo <-? operand (vmin self) ;
     let shifted := map (fun c => fsub c lo) clipped in
     let scaled := map (fun s => fsqrt (fabs s)) shifted in
     normalized <-? normalize_to_0_1 scaled ;
     Ok (array_of normalized)
   else if (scaling_mode self =? "asinh")%string then
     let scaled := map farcsinh clipped in
     normalized <-? normalize_to_0_1 scaled ;
     Ok (array_of normalized)
   else
     (* default to linear *)
     hi <-? operand (vmax self) ;
     lo <-? operand (vmin self) ;
     if flt lo hi then
       Ok (array_of (map (fun c => fdiv (fsub c lo) (fsub hi lo)) clipped))
     else Ok (array_of clipped))%result.

(** [_apply_scaling] *)
Definition _apply_scaling (self : ImageDisplayEngine) (data : option ndarray)
  : result (option ndarray) :=
  match data with
  | None => Ok None
  | Some data =>
      if ((ndim data =? 3) && (nth 2 (shape data) 0 =? 3))%nat then
        (* RGB data (3 channels) - apply scaling to each channel *)
        (rgb_scaled <-?
           fold_left
             (fun acc i =>
                rgb_scaled <-? acc ;
                channel <-? channel_last data i ;
                scaled <-? _apply_scaling_to_channel self
                             (astype_float float32 channel) ;
                set_channel_last rgb_scaled i scaled)
             [0; 1; 2]%nat
             (Ok (zeros_like data float32)) ;
         Ok (Some rgb_scaled))%result
      else
        (* single channel data *)
        (scaled <-? _apply_scaling_to_channel self data ;
         Ok (Some scaled))%result
  end.

(** [auto_scale]; the Python defaults are [percentile_low=0.5] and
    [percentile_high=99.5]. *)
Definition auto_scale (self : ImageDisplayEngine)
    (percentile_low percentile_high : R) : result (float * float) :=
  match current_data self with
  | None => Ok (Fin 0, Fin 1)
  | Some data =>
      (* filter out NaN and Inf values *)
      let valid_data := finite_values (flat data) in
      match valid_data with
      | [] => Ok (Fin 0, Fin 1)
      | first :: rest =>
          (lo <-? percentile valid_data percentile_low ;
           hi <-? percentile valid_data percentile_high ;
           (* ensure vmin < vmax *)
           if Rge_dec lo hi then
             let lo := Rlist_min first rest in
             let hi := Rlist_max first rest in
             if Rge_dec lo hi then Ok (Fin lo, Fin (lo + 1))
             else Ok (Fin lo, Fin hi)
           else Ok (Fin lo, Fin hi))%result
      end
  end.

(** [update_display]: the part that decides what is drawn. *)
Definition update_display : M ImageDisplayEngine unit :=
  (self <- get ;;
   match current_data self with
   | None => ret tt
   | Some _ =>
       display_data <- reading _prepare_data_for_display ;;
       match display_data with
       | None => ret tt
       | Some _ =>
           scaled_data <- reading (fun self => _apply_scaling self display_data) ;;
           modify (with_image scaled_data)
       end
   end)%monad.

(** [set_data] *)
Definition set_data (data : option ndarray) : M ImageDisplayEngine unit :=
  match data with
  | None => ret tt
  | Some _ =>
      (modify (with_current_data data) ;;
       (* calculate automatic scaling *)
       bounds <- reading (fun self => auto_scale self (1 / 2) (199 / 2)) ;;
       modify (with_vmin (Some (fst bounds))) ;;
       modify (with_vmax (Some (snd bounds))) ;;
       update_display)%monad
  end.

(** [set_scaling_limits] *)
Definition set_scaling_limits (new_vmin new_vmax : float)
  : M ImageDisplayEngine unit :=
  if flt new_vmin new_vmax then
    (modify (with_vmin (Some new_vmin)) ;;
     modify (with_vmax (Some new_vmax)) ;;
     update_display)%monad
  else ret tt.

(** [set_scaling_mode] *)
Definition set_scaling_mode (mode : string) : M ImageDisplayEngine unit :=
  let valid_modes := ["linear"; "log"; "sqrt"; "asinh"]%string in
  if existsb (String.eqb mode) valid_modes then
    (modify (with_scaling_mode mode) ;;
     update_display)%monad
  else ret tt.

(** [set_colormap] *)
Definition set_colormap (name : string) : M ImageDisplayEngine unit :=
  (modify (with_colormap name) ;;
   update_display)%monad.

(* ------------------------------------------------------------------ *)
(** ** numpy.histogram with an integer number of bins                  *)
(* ------------------------------------------------------------------ *)

(** The [bins + 1] edges [np.linspace(first, last, bins + 1)]. *)
Definition linspace (first last : R) (bins : nat) : list R :=
  map (fun i => if (i =? bins)%nat then last
                else first + INR i * ((last - first) / INR bins))
      (seq 0 (bins + 1)).

(** Membership in a bin: half-open, except the last bin, which is closed
    on the right. *)
Definition in_bin (lo hi : R) (is_last : bool) (x : R) : bool :=
  if Rle_dec lo x then
    if is_last then (if Rle_dec x hi then true else false)
    else (if Rlt_dec x hi then true else false)
  else false.

Definition count_if (p : R -> bool) (xs : list R) : nat :=
  length (filter p xs).

Fixpoint bin_counts (edges : list R) (xs : list R) : list nat :=
  match edges with
  | lo :: ((hi :: rest) as upper) =>
      count_if (in_bin lo hi (match rest with [] => true | _ => false end)) xs
      :: bin_counts upper xs
  | _ => []
  end.

(** [np.histogram(a, bins=bins)]: the counts and the bin edges.  The
    range is that of the data, (0, 1) for an empty array, and is widened
    by one half on both sides when the data are constant. *)
Definition histogram (a : list R) (bins : nat)
  : result (list nat * list R) :=
  if (bins =? 0)%nat then Raise ValueError
  else
    let '(first_edge, last_edge) :=
      match a with
      | [] => (0, 1)
      | x :: rest => (Rlist_min x rest, Rlist_max x rest)
      end in
    let '(first_edge, last_edge) :=
      if Req_dec_T first_edge last_edge
      then (first_edge - 1 / 2, last_edge + 1 / 2)
      else (first_edge, last_edge) in
    let bin_edges := linspace first_edge last_edge bins in
    Ok (bin_counts bin_edges a, bin_edges).

(* ------------------------------------------------------------------ *)
(** ** histogram_widget.py: class HistogramWidget                      *)
(* ------------------------------------------------------------------ *)

Module HistogramWidget.

(** A bar of the plot: [axes.bar(left, height, width=width)]. *)
Record bar : Type := mk_bar { left : R; height : nat; width : R }.

Record t : Type := mk {
  current_data : option ndarray;
  bars : list bar;             (* the bars on the axes *)
  vmin_line : option float;
  vmax_line : option float
}.

(** [HistogramWidget.__init__] *)
Definition new : t :=
  {| current_data := None; bars := []; vmin_line := None;
     vmax_line := None |}.

Definition with_current_data (d : option ndarray) (h : t) : t :=
  {| current_data := d; bars := bars h; vmin_line := vmin_line h;
     vmax_line := vmax_line h |}.

Definition with_bars (b : list bar) (h : t) : t :=
  {| current_data := current_data h; bars := b; vmin_line := vmin_line h;
     vmax_line := vmax_line h |}.

Definition with_vmin_line (v : option float) (h : t) : t :=
  {| current_data := current_data h; bars := bars h; vmin_line := v;
     vmax_line := vmax_line h |}.

Definition with_vmax_line (v : option float) (h : t) : t :=
  {| current_data := current_data h; bars := bars h;
     vmin_line := vmin_line h; vmax_line := v |}.

(** [np.diff(bin_edges)] *)
Fixpoint diff (edges : list R) : list R :=
  match edges with
  | lo :: ((hi :: _) as upper) => (hi - lo) :: diff upper
  | _ => []
  end.

(** The bars [axes.bar(bin_edges[:-1], counts, width=np.diff(bin_edges))]. *)
Fixpoint make_bars (lefts : list R) (counts : list nat) (widths : list R)
  : list bar :=
  match lefts, counts, widths with
  | l :: ls, c :: cs, w :: ws =>
      {| left := l; height := c; width := w |} :: make_bars ls cs ws
  | _, _, _ => []
  end.

(** [update_histogram(data, vmin, vmax, bins)]; the Python default is
    [bins=100].  The colours of the bars and the styling of the axes are
    not part of the state kept here. *)
Definition update_histogram (data : option ndarray)
    (vmin vmax : option float) (bins : nat) : M t unit :=
  match data with
  | None => ret tt
  | Some d =>
      (modify (with_current_data data) ;;
       (* clear previous plot *)
       modify (with_bars []) ;;
       (* filter out NaN and Inf values *)
       let valid_data := finite_values (flat d) in
       if (length valid_data =? 0)%nat then ret tt
       else
         h <- reading (fun _ => histogram valid_data bins) ;;
         let '(counts, bin_edges) := h in
         modify (with_bars
                   (make_bars (removelast bin_edges) counts (diff bin_edges))) ;;
         (match vmin with
          | Some _ => modify (with_vmin_line vmin)
          | None => ret tt
          end) ;;
         (match vmax with
          | Some _ => modify (with_vmax_line vmax)
          | None => ret tt
          end))%monad
  end.

(** [update_scaling_lines(vmin, vmax)] *)
Definition update_scaling_lines (vmin vmax : float) : M t unit :=
  (self <- get ;;
   match current_data self with
   | None => ret tt
   | Some _ =>
       modify (with_vmin_line (Some vmin)) ;;
       modify (with_vmax_line (Some vmax))
   end)%monad.

End HistogramWidget.

(* ------------------------------------------------------------------ *)
(** ** fits_file_manager.py: class FITSFileManager                     *)
(* ------------------------------------------------------------------ *)

(** Python values stored in the metadata dictionaries. *)
Inductive pyvalue : Type :=
| PyNone
| PyBool (b : bool)
| PyInt (z : Z)
| PyStr (s : string)
| PyShape (dims : list nat)        (* a tuple of ints *)
| PyDTypeName (d : DType).         (* [str(d)] of an element type *)

(** A dict with string keys, in insertion order. *)
Definition dict : Type := list (string * pyvalue).

(** [d.get(key, default)] *)
Fixpoint dict_get (d : dict) (key : string) (default : pyvalue) : pyvalue :=
  match d with
  | [] => default
  | (k, v) :: rest =>
      if (k =? key)%string then v else dict_get rest key default
  end.

(** Truth value of a Python value, as taken by [not] and [if]. *)
Definition truthy (v : pyvalue) : bool :=
  match v with
  | PyNone => false
  | PyBool b => b
  | PyInt z => negb (z =? 0)%Z
  | PyStr s => negb (s =? "")%string
  | PyShape dims => negb (length dims =? 0)%nat
  | PyDTypeName _ => true
  end.


Module FITSFileManager.

(** What the manager reads of an astropy HDU object. *)
Record HDU : Type := mk_hdu {
  type_name : string;            (* [type(hdu).__name__] *)
  data : option ndarray;         (* [hdu.data] *)
  extname : option string;       (* the EXTNAME card, if present *)
  header_text : string           (* [str(hdu.header)] *)
}.

Record t : Type := mk {
  hdulist : option (list HDU);
  filepath : option string;
  num_hdus : Z
}.

(** [FITSFileManager.__init__] *)
Definition new : t := {| hdulist := None; filepath := None; num_hdus := 0 |}.

(** [close_file] *)
Definition close_file : M t unit :=
  (self <- get ;;
   match hdulist self with
   | Some _ => modify (fun _ => new)
   | None => ret tt
   end)%monad.

(** [open_file]; [fits_open] stands for [astropy.io.fits.open].  Every
    exception is caught and turned into [False]. *)
Definition open_file (fits_open : string -> result (list HDU))
    (path : string) : M t bool :=
  (close_file ;;
   match fits_open path with
   | Ok hdus =>
       modify (fun _ => {| hdulist := Some hdus;
                           filepath := Some path;
                           num_hdus := Z.of_nat (length hdus) |}) ;;
       ret true
   | Raise _ => ret false
   end)%monad.

(** [self.hdulist[index]] for a non-negative index *)
Definition hdu_at (hdus : list HDU) (index : Z) : result HDU :=
  match nth_error hdus (Z.to_nat index) with
  | Some hdu => Ok hdu
  | None => Raise IndexError
  end.

Definition hdu_metadata (index : Z) (hdu : HDU) : dict :=
  [ ("index", PyInt index);
    ("type", PyStr (type_name hdu));
    ("dimensions", match data hdu with
                   | Some d => PyShape (shape d)
                   | None => PyNone
                   end);
    ("dtype", match data hdu with
              | Some d => PyDTypeName (dtype d)
              | None => PyNone
              end);
    ("has_data", PyBool (match data hdu with Some _ => true | None => false end));
    ("extname", PyStr (match extname hdu with Some s => s | None => "" end))
  ]%string.

(** [get_hdu_info] *)
Definition get_hdu_info (self : t) (index : Z) : result dict :=
  match hdulist self with
  | None => Ok []
  | Some hdus =>
      if ((index <? 0) || (index >=? num_hdus self))%Z then Ok []
      else (hdu <-? hdu_at hdus index ;
            Ok (hdu_metadata index hdu))%result
  end.

(** [get_header] *)
Definition get_header (self : t) (index : Z) : result string :=
  match hdulist self with
  | None => Ok ""%string
  | Some hdus =>
      if ((index <? 0) || (index >=? num_hdus self))%Z then Ok ""%string
      else (hdu <-? hdu_at hdus index ;
            Ok (header_text hdu))%result
  end.

(** [get_data] *)
Definition get_data (self : t) (index : Z) : result (option ndarray) :=
  match hdulist self with
  | None => Ok None
  | Some hdus =>
      if ((index <? 0) || (index >=? num_hdus self))%Z then Ok None
      else (hdu <-? hdu_at hdus index ;
            Ok (data hdu))%result
  end.


End FITSFileManager.

(* ------------------------------------------------------------------ *)
(** ** main_window.py: the rotate / flip pipeline of class MainWindow   *)
(* ------------------------------------------------------------------ *)

(** What the status bar shows. *)
Inductive message : Type :=
| NoMessage
| RotatedTo (angle : Z)
| RotationError (e : exn)
| HorizontalFlip (flipped : bool)
| VerticalFlip (flipped : bool)
| TransformationsReset.

Record MainWindow : Type := mk_window {
  fits_manager : FITSFileManager.t;
  current_hdu_index : Z;
  original_rgb_data : option ndarray;
  original_data : option ndarray;
  rotation_angle : Z;
  flip_horizontal : bool;
  flip_vertical : bool;
  image_engine : ImageDisplayEngine;
  histogram_widget : HistogramWidget.t;
  status_bar : message
}.

Definition with_original_data (d : option ndarray) (w : MainWindow) :=
  {| fits_manager := fits_manager w;
     current_hdu_index := current_hdu_index w;
     original_rgb_data := original_rgb_data w;
     original_data := d;
     rotation_angle := rotation_angle w;
     flip_horizontal := flip_horizontal w;
     flip_vertical := flip_vertical w;
     image_engine := image_engine w;
     histogram_widget := histogram_widget w;
     status_bar := status_bar w |}.

Definition with_rotation_angle (a : Z) (w : MainWindow) :=
  {| fits_manager := fits_manager w;
     current_hdu_index := current_hdu_index w;
     original_rgb_data := original_rgb_data w;
     original_data := original_data w;
     rotation_angle := a;
     flip_horizontal := flip_horizontal w;
     flip_vertical := flip_vertical w;
     image_engine := image_engine w;
     histogram_widget := histogram_widget w;
     status_bar := status_bar w |}.

Definition with_flip_horizontal (b : bool) (w : MainWindow) :=
  {| fits_manager := fits_manager w;
     current_hdu_index := current_hdu_index w;
     original_rgb_data := original_rgb_data w;
     original_data := original_data w;
     rotation_angle := rotation_angle w;
     flip_horizontal := b;
     flip_vertical := flip_vertical w;
     image_engine := image_engine w;
     histogram_widget := histogram_widget w;
     status_bar := status_bar w |}.

Definition with_flip_vertical (b : bool) (w : MainWindow) :=
  {| fits_manager := fits_manager w;
     current_hdu_index := current_hdu_index w;
     original_rgb_data := original_rgb_data w;
     original_data := original_data w;
     rotation_angle := rotation_angle w;
     flip_horizontal := flip_horizontal w;
     flip_vertical := b;
     image_engine := image_engine w;
     histogram_widget := histogram_widget w;
     status_bar := status_bar w |}.

Definition with_image_engine (e : ImageDisplayEngine) (w : MainWindow) :=
  {| fits_manager := fits_manager w;
     current_hdu_index := current_hdu_index w;
     original_rgb_data := original_rgb_data w;
     original_data := original_data w;
     rotation_angle := rotation_angle w;
     flip_horizontal := flip_horizontal w;
     flip_vertical := flip_vertical w;
     image_engine := e;
     histogram_widget := histogram_widget w;
     status_bar := status_bar w |}.

Definition with_histogram_widget (h : HistogramWidget.t) (w : MainWindow) :=
  {| fits_manager := fits_manager w;
     current_hdu_index := current_hdu_index w;
     original_rgb_data := original_rgb_data w;
     original_data := original_data w;
     rotation_angle := rotation_angle w;
     flip_horizontal := flip_horizontal w;
     flip_vertical := flip_vertical w;
     image_engine := image_engine w;
     histogram_widget := h;
     status_bar := status_bar w |}.

Definition with_status_bar (m : message) (w : MainWindow) :=
  {| fits_manager := fits_manager w;
     current_hdu_index := current_hdu_index w;
     original_rgb_data := original_rgb_data w;
     original_data := original_data w;
     rotation_angle := rotation_angle w;
     flip_horizontal := flip_horizontal w;
     flip_vertical := flip_vertical w;
     image_engine := image_engine w;
     histogram_widget := histogram_widget w;
     status_bar := m |}.

(** A method call on [self.image_engine]. *)
Definition on_engine {A} (c : M ImageDisplayEngine A) : M MainWindow A :=
  fun w =>
    let (r, e) := c (image_engine w) in (r, with_image_engine e w).

(** A method call on [self.histogram_widget]. *)
Definition on_histogram {A} (c : M HistogramWidget.t A) : M MainWindow A :=
  fun w =>
    let (r, h) := c (histogram_widget w) in (r, with_histogram_widget h w).

(** [np.array(channels)]: the channels stacked along a new first axis.
    The channels handed over by the pipeline come from one call pattern
    and agree in shape and element type; anything else is an error. *)
Definition np_array (channels : list ndarray) : result ndarray :=
  match channels with
  | [] => Raise ValueError
  | c :: rest =>
      if forallb (fun x => shape_eqb (shape x) (shape c)
                           && dtype_eqb (dtype x) (dtype c)) rest
      then Ok {| dtype := dtype c;
                 shape := length channels :: shape c;
                 flat := flat_map flat channels |}
      else Raise ValueError
  end.

(** What the pipeline takes from outside the repository. *)
Class Library : Type := {
  (** [scipy.ndimage.rotate(input, angle, reshape=True, order=1,
      mode='constant', cval=0, prefilter=False)]: the rotated array, or
      the exception the library raises. *)
  ndimage_rotate : ndarray -> Z -> result ndarray;
  (** The integer a platform produces when a NaN or an infinity is
      converted to an integer type (reduced to the type's width below). *)
  nonfinite_as_integer : DType -> float -> Z
}.

Section Pipeline.

Context {lib : Library}.

(** Conversion of one element to the element type [d]. *)
Definition cast_element (d : DType) (x : float) : float :=
  if is_integer d then
    match x with
    | Fin r => Fin (IZR (wrap d (Rtrunc r)))
    | _ => Fin (IZR (wrap d (nonfinite_as_integer d x)))
    end
  else x.

(** [a.astype(d)] *)
Definition astype (d : DType) (a : ndarray) : ndarray :=
  {| dtype := d; shape := shape a; flat := map (cast_element d) (flat a) |}.

(** [np.clip(a, lo, hi)] with integer bounds *)
Definition np_clip (a : ndarray) (lo hi : Z) : ndarray :=
  {| dtype := dtype a;
     shape := shape a;
     flat := map (clip (Fin (IZR lo)) (Fin (IZR hi))) (flat a) |}.

(** The body of the [try] block of [apply_transformations]: rotation by
    a non-zero angle, then restoration of the element type. *)
Definition rotate_preserving_dtype (data : ndarray) (angle : Z)
  : result ndarray :=
  let original_dtype := dtype data in
  (rotated <-?
     (if ((ndim data =? 3) && (nth 0 (shape data) 0 =? 3))%nat then
        (* RGB (channels, height, width): rotate each channel *)
        (rotated_channels <-?
           rmap (fun i => channel <-? index_first data i ;
                          ndimage_rotate channel angle)
                [0; 1; 2]%nat ;
         np_array rotated_channels)
      else
        ndimage_rotate data angle) ;
   (* preserve original data type *)
   if negb (dtype_eqb (dtype rotated) original_dtype) then
     let clipped :=
       if is_integer original_dtype then
         np_clip rotated (iinfo_min original_dtype) (iinfo_max original_dtype)
       else rotated in
     Ok (astype original_dtype clipped)
   else Ok rotated)%result.

(** [apply_transformations] *)
Definition apply_transformations : M MainWindow unit :=
  (self <- get ;;
   match current_data (image_engine self) with
   | None => ret tt
   | Some _ =>
       (* always start from the original unrotated data *)
       start <-
         match original_data self with
         | Some original => ret (Some (copy original))
         | None =>
             (* first time - store the original data *)
             data <- reading (fun self =>
                       FITSFileManager.get_data (fits_manager self)
                                                (current_hdu_index self)) ;;
             match data with
             | None => ret None
             | Some data =>
                 modify (with_original_data (Some (copy data))) ;;
                 ret (Some (copy data))
             end
         end ;;
       match start with
       | None => ret tt
       | Some data =>
           match (if (rotation_angle self =? 0)%Z then Ok data
                  else rotate_preserving_dtype data (rotation_angle self))
           with
           | Raise e => modify (with_status_bar (RotationError e))
           | Ok data =>
               (* apply flips *)
               data <- reading (fun _ => if flip_horizontal self
                                         then flip_last data else Ok data) ;;
               data <- reading (fun _ => if flip_vertical self
                                         then flip_second_last data
                                         else Ok data) ;;
               (* store current vmin/vmax before updating *)
               let old_vmin := vmin (image_engine self) in
               let old_vmax := vmax (image_engine self) in
               (* update display *)
               on_engine (modify (with_current_data (Some data))) ;;
               on_engine (set_data (Some data)) ;;
               (* restore the scaling limits to prevent color shift *)
               match old_vmin, old_vmax with
               | Some _, Some _ =>
                   on_engine (modify (with_vmin old_vmin)) ;;
                   on_engine (modify (with_vmax old_vmax)) ;;
                   on_engine update_display
               | _, _ => ret tt
               end ;;
               (* update histogram *)
               now <- get ;;
               on_histogram
                 (HistogramWidget.update_histogram (Some data)
                    (vmin (image_engine now)) (vmax (image_engine now)) 100)
           end
       end
   end)%monad.

(** [rotate_image] *)
Definition rotate_image (angle : Z) : M MainWindow unit :=
  (self <- get ;;
   match current_data (image_engine self) with
   | None => ret tt
   | Some _ =>
       (* set rotation to the specified angle (not cumulative) *)
       modify (with_rotation_angle (angle mod 360)) ;;
       apply_transformations ;;
       now <- get ;;
       modify (with_status_bar (RotatedTo (rotation_angle now)))
   end)%monad.

(** [flip_horizontal_image] *)
Definition flip_horizontal_image : M MainWindow unit :=
  (self <- get ;;
   match current_data (image_engine self) with
   | None => ret tt
   | Some _ =>
       modify (with_flip_horizontal (negb (flip_horizontal self))) ;;
       apply_transformations ;;
       now <- get ;;
       modify (with_status_bar (HorizontalFlip (flip_horizontal now)))
   end)%monad.

(** [flip_vertical_image] *)
Definition flip_vertical_image : M MainWindow unit :=
  (self <- get ;;
   match current_data (image_engine self) with
   | None => ret tt
   | Some _ =>
       modify (with_flip_vertical (negb (flip_vertical self))) ;;
       apply_transformations ;;
       now <- get ;;
       modify (with_status_bar (VerticalFlip (flip_vertical now)))
   end)%monad.

(** [reset_transformations] *)
Definition reset_transformations : M MainWindow unit :=
  (self <- get ;;
   match current_data (image_engine self) with
   | None => ret tt
   | Some _ =>
       modify (with_rotation_angle 0) ;;
       modify (with_flip_horizontal false) ;;
       modify (with_flip_vertical false) ;;
       (* clear the stored original data so it gets refreshed *)
       modify (with_original_data None) ;;
       apply_transformations ;;
       modify (with_status_bar TransformationsReset)
   end)%monad.

(** The rotate / flip commands of the View menu. *)
Inductive command : Type :=
| Rotate (angle : Z)
| FlipHorizontal
| FlipVertical.

Definition run_command (c : command) : M MainWindow unit :=
  match c with
  | Rotate angle => rotate_image angle
  | FlipHorizontal => flip_horizontal_image
  | FlipVertical => flip_vertical_image
  end.

(** A sequence of commands, each run on the window its predecessor left,
    whether that one returned or raised. *)
Fixpoint run_commands (cs : list command) (w : MainWindow) : MainWindow :=
  match cs with
  | [] => w
  | c :: rest => run_commands rest (snd (run_command c w))
  end.

End Pipeline.

(* ------------------------------------------------------------------ *)
(** ** image_display_engine.py: [handle_multidimensional]               *)
(* ------------------------------------------------------------------ *)

(** A subscript of [a[s0, s1, ...]]: an integer or the full slice
    [slice(None)]. *)
Inductive subscript : Type :=
| Index (i : Z)
| FullSlice.

(** An integer subscript on an axis of length [d]; a negative one counts
    from the end of the axis. *)
Definition normalize_index (d : nat) (i : Z) : result nat :=
  if ((0 <=? i) && (i <? Z.of_nat d))%Z then Ok (Z.to_nat i)
  else if ((- Z.of_nat d <=? i) && (i <? 0))%Z
       then Ok (Z.to_nat (i + Z.of_nat d))
       else Raise IndexError.

(** Shape of [a[subs]]: an integer removes its axis, a full slice keeps
    it, the axes without a subscript are kept; more subscripts than axes
    are an [IndexError]. *)
Fixpoint getitem_shape (dims : list nat) (subs : list subscript)
    {struct subs} : result (list nat) :=
  match subs, dims with
  | [], _ => Ok dims
  | _ :: _, [] => Raise IndexError
  | Index i :: rest, d :: dims' =>
      (_ <-? normalize_index d i ;
       getitem_shape dims' rest)%result
  | FullSlice :: rest, d :: dims' =>
      (s <-? getitem_shape dims' rest ;
       Ok (d :: s))%result
  end.

(** Buffer of [a[subs]], for subscripts that [getitem_shape] accepts. *)
Fixpoint getitem_flat (dims : list nat) (xs : list float)
    (subs : list subscript) {struct subs} : list float :=
  match subs, dims with
  | [], _ => xs
  | _ :: _, [] => []
  | s :: rest, d :: dims' =>
      let block k := firstn (prod dims') (skipn (k * prod dims') xs) in
      match s with
      | Index i =>
          match normalize_index d i with
          | Ok k => getitem_flat dims' (block k) rest
          | Raise _ => []
          end
      | FullSlice =>
          flat_map (fun k => getitem_flat dims' (block k) rest) (seq 0 d)
      end
  end.

(** [a[tuple(subs)]] *)
Definition getitem (a : ndarray) (subs : list subscript) : result ndarray :=
  (s <-? getitem_shape (shape a) subs ;
   Ok {| dtype := dtype a;
         shape := s;
         flat := getitem_flat (shape a) (flat a) subs |})%result.

(** [handle_multidimensional(data, slice_indices)] *)
Definition handle_multidimensional (self : ImageDisplayEngine)
    (data : ndarray) (slice_indices : list Z) : result ndarray :=
  if (ndim data <=? 2)%nat then Ok data
  else
    (* build slice object *)
    let slices :=
      map (fun p => let '(i, idx) := p in
                    if (i <? ndim data - 2)%nat then Index idx else FullSlice)
          (combine (seq 0 (length slice_indices)) slice_indices) in
    getitem data slices.

(* ------------------------------------------------------------------ *)
(** ** main_window.py: class HeaderMetadataDialog                       *)
(* ------------------------------------------------------------------ *)

(** Python strings are modelled by [string]; a character stands for a
    code point below U+0100. *)

(** [c.isspace()] *)
Definition isspace (c : Ascii.ascii) : bool :=
  let n := Ascii.nat_of_ascii c in
  (((9 <=? n) && (n <=? 13)) || ((28 <=? n) && (n <=? 32))
   || (n =? 133) || (n =? 160))%nat.

(** [s.rstrip()] *)
Fixpoint rstrip (s : string) : string :=
  match s with
  | EmptyString => EmptyString
  | String c s' =>
      match rstrip s' with
      | EmptyString => if isspace c then EmptyString else String c EmptyString
      | r => String c r
      end
  end.

(** [s.lstrip()] *)
Fixpoint lstrip (s : string) : string :=
  match s with
  | EmptyString => EmptyString
  | String c s' => if isspace c then lstrip s' else s
  end.

(** [s.strip()] *)
Definition strip (s : string) : string := lstrip (rstrip s).

(** [range(0, stop, step)] for a positive step *)
Definition range_from_zero (stop step : nat) : list nat :=
  map (fun k => k * step)%nat (seq 0 ((stop + step - 1) / step)).

Module HeaderMetadataDialog.

(** [format_header_text]: FITS headers are 80 characters per card. *)
Definition format_header_text (header_text : string) : string :=
  let lines :=
    flat_map
      (fun i =>
         let card := rstrip (substring i 80 header_text) in
         (* skip empty cards *)
         if negb (strip card =? "")%string then [card] else [])
      (range_from_zero (String.length header_text) 80) in
  String.concat (String (Ascii.ascii_of_nat 10) EmptyString) lines.

End HeaderMetadataDialog.

(* ------------------------------------------------------------------ *)
(** ** main_window.py: the zoom commands of class MainWindow            *)
(* ------------------------------------------------------------------ *)

(** Axis limits [(low, high)], as [axes.get_xlim()] returns them. *)
Definition limits : Type := (R * R)%type.

(** What the zoom commands take from the navigation tool bar of
    matplotlib. *)
Class Toolbar : Type := {
  toolbar_state : Type;
  (** [toolbar.pan()] *)
  toolbar_pan : toolbar_state -> toolbar_state;
  (** [toolbar.home()]: the state of the tool bar and the limits of the
      two axes afterwards. *)
  toolbar_home : toolbar_state -> limits * limits
                 -> toolbar_state * (limits * limits)
}.

(** The status line of the zoom commands. *)
Inductive zoom_message : Type :=
| ZoomedIn                 (* "Zoomed in - Pan mode activated ..." *)
| AlreadyAtMaximumZoom     (* "Already at maximum zoom (full image)" *)
| ZoomedOutToMaximum       (* "Zoomed out to maximum (full image)" *)
| ZoomedOut                (* "Zoomed out" *)
| ZoomResetToFit           (* "Zoom reset to fit" *)
| ZoomFitEntireImage       (* "Zoom reset to fit - Showing entire image" *)
| PanModeActivated.        (* "Pan mode activated ..." *)

Section Zoom.

Context {tb : Toolbar}.

(** The part of the window the zoom commands work on: the window with its
    image engine, the limits of the engine's axes, the tool bar, and the
    status line written last by a zoom command.  The limits recorded
    are those handed to [set_xlim] and [set_ylim] (matplotlib itself
    widens an interval whose two ends are equal). *)
Record Viewer : Type := mk_viewer {
  window : MainWindow;
  xlim : limits;
  ylim : limits;
  toolbar : toolbar_state;
  zoom_status : option zoom_message
}.

Definition with_xlim (l : limits) (v : Viewer) : Viewer :=
  {| window := window v; xlim := l; ylim := ylim v; toolbar := toolbar v;
     zoom_status := zoom_status v |}.

Definition with_ylim (l : limits) (v : Viewer) : Viewer :=
  {| window := window v; xlim := xlim v; ylim := l; toolbar := toolbar v;
     zoom_status := zoom_status v |}.

Definition with_toolbar (t : toolbar_state) (v : Viewer) : Viewer :=
  {| window := window v; xlim := xlim v; ylim := ylim v; toolbar := t;
     zoom_status := zoom_status v |}.

Definition with_zoom_status (m : zoom_message) (v : Viewer) : Viewer :=
  {| window := window v; xlim := xlim v; ylim := ylim v;
     toolbar := toolbar v; zoom_status := Some m |}.

(** [zoom_in] *)
Definition zoom_in : M Viewer unit :=
  (self <- get ;;
   match current_data (image_engine (window self)) with
   | None => ret tt
   | Some _ =>
       (* get current axis limits *)
       let xlim := xlim self in
       let ylim := ylim self in
       (* calculate center *)
       let x_center := (fst xlim + snd xlim) / 2 in
       let y_center := (fst ylim + snd ylim) / 2 in
       (* calculate new range (zoom in by factor of 0.8) *)
       let x_range := (snd xlim - fst xlim) * (8 / 10) / 2 in
       let y_range := (snd ylim - fst ylim) * (8 / 10) / 2 in
       (* set new limits *)
       modify (with_xlim (x_center - x_range, x_center + x_range)) ;;
       modify (with_ylim (y_center - y_range, y_center + y_range)) ;;
       (* automatically activate pan mode *)
       modify (with_toolbar (toolbar_pan (toolbar self))) ;;
       modify (with_zoom_status ZoomedIn)
   end)%monad.

(** Height and width of the image as [zoom_out] determines them. *)
Definition zoom_out_dimensions (data : ndarray) : result (nat * nat) :=
  if (ndim data =? 2)%nat then
    Ok (nth 0 (shape data) 0%nat, nth 1 (shape data) 0%nat)
  else if ((ndim data =? 3) && (nth 2 (shape data) 0 =? 3))%nat then
    Ok (nth 0 (shape data) 0%nat, nth 1 (shape data) 0%nat)
  else if ((ndim data =? 3) && (nth 0 (shape data) 0 =? 3))%nat then
    Ok (nth 1 (shape data) 0%nat, nth 2 (shape data) 0%nat)
  else
    (* data.shape[-2], data.shape[-1] *)
    match rev (shape data) with
    | width :: height :: _ => Ok (height, width)
    | _ => Raise IndexError
    end.

(** The test "the view covers the full image". *)
Definition covers (xlim ylim max_xlim max_ylim : limits) : bool :=
  (if Rle_dec (fst xlim) (fst max_xlim) then true else false)
  && (if Rge_dec (snd xlim) (snd max_xlim) then true else false)
  && (if Rle_dec (fst ylim) (fst max_ylim) then true else false)
  && (if Rge_dec (snd ylim) (snd max_ylim) then true else false).

(** [zoom_out] *)
Definition zoom_out : M Viewer unit :=
  (self <- get ;;
   match current_data (image_engine (window self)) with
   | None => ret tt
   | Some data =>
       dims <- reading (fun _ => zoom_out_dimensions data) ;;
       let '(height, width) := dims in
       (* maximum extent (full image) *)
       let max_xlim := (- (1 / 2), INR width - 1 / 2) in
       let max_ylim := (- (1 / 2), INR height - 1 / 2) in
       (* get current axis limits *)
       let xlim := xlim self in
       let ylim := ylim self in
       (* check if already at maximum extent *)
       if covers xlim ylim max_xlim max_ylim then
         modify (with_zoom_status AlreadyAtMaximumZoom)
       else
         (* calculate center *)
         let x_center := (fst xlim + snd xlim) / 2 in
         let y_center := (fst ylim + snd ylim) / 2 in
         (* calculate new range (zoom out by factor of 1.25) *)
         let x_range := (snd xlim - fst xlim) * (125 / 100) / 2 in
         let y_range := (snd ylim - fst ylim) * (125 / 100) / 2 in
         (* calculate new limits *)
         let new_xlim := (x_center - x_range, x_center + x_range) in
         let new_ylim := (y_center - y_range, y_center + y_range) in
         (* clamp to maximum extent *)
         let final_xlim := (Rmax (fst new_xlim) (fst max_xlim),
                            Rmin (snd new_xlim) (snd max_xlim)) in
         let final_ylim := (Rmax (fst new_ylim) (fst max_ylim),
                            Rmin (snd new_ylim) (snd max_ylim)) in
         (* set new limits *)
         modify (with_xlim final_xlim) ;;
         modify (with_ylim final_ylim) ;;
         (* check if we reached maximum *)
         if covers final_xlim final_ylim max_xlim max_ylim then
           modify (with_zoom_status ZoomedOutToMaximum)
         else
           modify (with_zoom_status ZoomedOut)
   end)%monad.

(** Height and width of the image as [zoom_fit] determines them; [None]
    where it falls back on the tool bar. *)
Definition zoom_fit_dimensions (data : ndarray) : option (nat * nat) :=
  if (ndim data =? 2)%nat then
    (* grayscale image *)
    Some (nth 0 (shape data) 0%nat, nth 1 (shape data) 0%nat)
  else if ((ndim data =? 3) && (nth 2 (shape data) 0 =? 3))%nat then
    (* RGB image (height, width, channels) *)
    Some (nth 0 (shape data) 0%nat, nth 1 (shape data) 0%nat)
  else if ((ndim data =? 3) && (nth 0 (shape data) 0 =? 3))%nat then
    (* RGB image (channels, height, width) *)
    Some (nth 1 (shape data) 0%nat, nth 2 (shape data) 0%nat)
  else None.

(** [zoom_fit] *)
Definition zoom_fit : M Viewer unit :=
  (self <- get ;;
   match current_data (image_engine (window self)) with
   | None => ret tt
   | Some data =>
       match zoom_fit_dimensions data with
       | None =>
           (* use toolbar home as fallback *)
           let '(t, (xl, yl)) :=
             toolbar_home (toolbar self) (xlim self, ylim self) in
           modify (with_toolbar t) ;;
           modify (with_xlim xl) ;;
           modify (with_ylim yl) ;;
           modify (with_zoom_status ZoomResetToFit)
       | Some (height, width) =>
           (* set axis limits to show entire image *)
           modify (with_xlim (- (1 / 2), INR width - 1 / 2)) ;;
           modify (with_ylim (- (1 / 2), INR height - 1 / 2)) ;;
           modify (with_zoom_status ZoomFitEntireImage)
       end
   end)%monad.

(** [activate_pan] *)
Definition activate_pan : M Viewer unit :=
  (self <- get ;;
   match current_data (image_engine (window self)) with
   | None => ret tt
   | Some _ =>
       (* activate pan mode in the toolbar *)
       modify (with_toolbar (toolbar_pan (toolbar self))) ;;
       modify (with_zoom_status PanModeActivated)
   end)%monad.

End Zoom.

(* ------------------------------------------------------------------ *)
(** ** main_window.py: [MainWindow.on_mouse_move]                       *)
(* ------------------------------------------------------------------ *)

(** What the handler reads of a matplotlib mouse event: whether the
    cursor is over the axes, and its data coordinates there. *)
Record MouseEvent : Type := mk_event {
  inaxes : bool;
  xdata : R;
  ydata : R
}.

(** The status line of the cursor read-out. *)
Inductive cursor_message : Type :=
| PixelValue (x y : Z) (value : float)      (* "X: x, Y: y | Value: v" *)
| PixelRGB (x y : Z) (r g b : float).       (* "X: x, Y: y | RGB: (r, g, b)" *)

(** [data[i0, i1, ...]] for a full index of integers that the caller has
    checked to be non-negative. *)
Definition pixel (data : ndarray) (idx : list Z) : result float :=
  match item data (map Z.to_nat idx) with
  | Some value => Ok value
  | None => Raise IndexError
  end.

(** [on_mouse_move]: the message put on the status bar, [None] when the
    status bar is left as it is. *)
Definition on_mouse_move (self : MainWindow) (event : MouseEvent)
  : result (option cursor_message) :=
  match current_data (image_engine self) with
  | Some data =>
      if inaxes event then
        let attempt : result (option cursor_message) :=
          let x := Rtrunc (xdata event) in
          let y := Rtrunc (ydata event) in
          (* handle different dimensionalities *)
          if (ndim data =? 2)%nat then
            if ((0 <=? y) && (y <? Z.of_nat (nth 0 (shape data) 0%nat))
                && (0 <=? x) && (x <? Z.of_nat (nth 1 (shape data) 0%nat)))%Z
            then
              (value <-? pixel data [y; x] ;
               Ok (Some (PixelValue x y value)))%result
            else Ok None
          else if ((ndim data =? 3) && (nth 0 (shape data) 0 =? 3))%nat then
            (* RGB data *)
            if ((0 <=? y) && (y <? Z.of_nat (nth 1 (shape data) 0%nat))
                && (0 <=? x) && (x <? Z.of_nat (nth 2 (shape data) 0%nat)))%Z
            then
              (r <-? pixel data [0; y; x]%Z ;
               g <-? pixel data [1; y; x]%Z ;
               b <-? pixel data [2; y; x]%Z ;
               Ok (Some (PixelRGB x y r g b)))%result
            else Ok None
          else Ok None in
        match attempt with
        | Ok message => Ok message
        | Raise IndexError | Raise ValueError => Ok None
        | Raise e => Raise e
        end
      else Ok None
  | None => Ok None
  end.

(* ------------------------------------------------------------------ *)
(** ** main_window.py: the scaling sliders of class MainWindow          *)
(* ------------------------------------------------------------------ *)

(** The part of the window the slider handlers work on: the window with
    its engine and histogram, the data range the sliders are mapped to
    ([data_min] and [data_max], 0 and 1 until an image is loaded, then
    the extremes of its finite values), and the numbers the two labels
    show. *)
Record ScalingPanel : Type := mk_panel {
  panel_window : MainWindow;
  data_min : R;
  data_max : R;
  min_value_label : option R;
  max_value_label : option R
}.

Definition with_panel_window (w : MainWindow) (p : ScalingPanel) :=
  {| panel_window := w; data_min := data_min p; data_max := data_max p;
     min_value_label := min_value_label p;
     max_value_label := max_value_label p |}.

Definition with_min_value_label (v : R) (p : ScalingPanel) :=
  {| panel_window := panel_window p; data_min := data_min p;
     data_max := data_max p; min_value_label := Some v;
     max_value_label := max_value_label p |}.

Definition with_max_value_label (v : R) (p : ScalingPanel) :=
  {| panel_window := panel_window p; data_min := data_min p;
     data_max := data_max p; min_value_label := min_value_label p;
     max_value_label := Some v |}.

(** A method call on the window's own attributes. *)
Definition on_window {A} (c : M MainWindow A) : M ScalingPanel A :=
  fun p =>
    let (r, w) := c (panel_window p) in (r, with_panel_window w p).

(** [on_min_slider_changed] *)
Definition on_min_slider_changed (value : Z) : M ScalingPanel unit :=
  (self <- get ;;
   match current_data (image_engine (panel_window self)) with
   | None => ret tt
   | Some _ =>
       (* map slider value (0-2000) to data range *)
       let data_range := data_max self - data_min self in
       let actual_value := data_min self + (IZR value / 2000) * data_range in
       (* update label *)
       modify (with_min_value_label actual_value) ;;
       (* update image engine if min < max *)
       hi <- reading (fun self =>
               operand (vmax (image_engine (panel_window self)))) ;;
       if flt (Fin actual_value) hi then
         on_window (on_engine (modify (with_vmin (Some (Fin actual_value))))) ;;
         on_window (on_engine update_display) ;;
         (* update histogram lines *)
         hi <- reading (fun self =>
                 operand (vmax (image_engine (panel_window self)))) ;;
         on_window (on_histogram
                      (HistogramWidget.update_scaling_lines
                         (Fin actual_value) hi))
       else ret tt
   end)%monad.

(** [on_max_slider_changed] *)
Definition on_max_slider_changed (value : Z) : M ScalingPanel unit :=
  (self <- get ;;
   match current_data (image_engine (panel_window self)) with
   | None => ret tt
   | Some _ =>
       (* map slider value (0-1000) to data range *)
       let data_range := data_max self - data_min self in
       let actual_value := data_min self + (IZR value / 1000) * data_range in
       (* update label *)
       modify (with_max_value_label actual_value) ;;
       (* update image engine if max > min *)
       lo <- reading (fun self =>
               operand (vmin (image_engine (panel_window self)))) ;;
       if flt lo (Fin actual_value) then
         on_window (on_engine (modify (with_vmax (Some (Fin actual_value))))) ;;
         on_window (on_engine update_display) ;;
         (* update histogram lines *)
         lo <- reading (fun self =>
                 operand (vmin (image_engine (panel_window self)))) ;;
         on_window (on_histogram
                      (HistogramWidget.update_scaling_lines
                         lo (Fin actual_value)))
       else ret tt
   end)%monad.

(* ------------------------------------------------------------------ *)
(** ** main_window.py: [MainWindow.update_colormap_status]              *)
(* ------------------------------------------------------------------ *)

(** The test of [update_display] that decides how the scaled array is
    drawn: an RGB image goes to [imshow] without the colormap, anything
    else with it. *)
Definition is_rgb (scaled_data : ndarray) : bool :=
  ((ndim scaled_data =? 3) && (nth 2 (shape scaled_data) 0 =? 3))%nat.

(** The text of the colormap status label. *)
Inductive colormap_status : Type :=
| NoDataLoaded             (* "No data loaded" *)
| ColormapDisabledForRGB   (* "RGB image - colormap disabled ..." *)
| ColormapActive.          (* "Grayscale - colormap active" *)

(** The widgets of the colormap panel that [update_colormap_status]
    sets. *)
Record ColormapControls : Type := mk_controls {
  colormap_status_label : colormap_status;
  colormap_combo_enabled : bool;
  invert_colormap_check_enabled : bool;
  rgb_to_gray_btn_visible : bool;
  rgb_to_gray_btn_enabled : bool
}.

(** [update_colormap_status] *)
Definition update_colormap_status (self : MainWindow)
    (controls : ColormapControls) : ColormapControls :=
  match current_data (image_engine self) with
  | None =>
      {| colormap_status_label := NoDataLoaded;
         colormap_combo_enabled := false;
         invert_colormap_check_enabled := false;
         rgb_to_gray_btn_visible := false;
         rgb_to_gray_btn_enabled := rgb_to_gray_btn_enabled controls |}
  | Some data =>
      (* check if RGB (3-channel) *)
      if ((ndim data =? 3) && (nth 0 (shape data) 0 =? 3))%nat then
        {| colormap_status_label := ColormapDisabledForRGB;
           colormap_combo_enabled := false;
           invert_colormap_check_enabled := false;
           rgb_to_gray_btn_visible := true;
           rgb_to_gray_btn_enabled := true |}
      else
        (* single channel - colormap applies *)
        {| colormap_status_label := ColormapActive;
           colormap_combo_enabled := true;
           invert_colormap_check_enabled := true;
           rgb_to_gray_btn_visible := false;
           rgb_to_gray_btn_enabled := false |}
  end.

(** The methods are unfolded on request only. *)
Arguments _prepare_data_for_display : simpl never.
Arguments _apply_scaling_to_channel : simpl never.
Arguments _apply_scaling : simpl never.
Arguments normalize_to_0_1 : simpl never.
Arguments auto_scale : simpl never.
Arguments percentile : simpl never.
Arguments histogram : simpl never.
Arguments update_display : simpl never.
Arguments set_data : simpl never.
Arguments HistogramWidget.update_histogram : simpl never.
Arguments FITSFileManager.get_data : simpl never.
Arguments rotate_preserving_dtype : simpl never.
Arguments apply_transformations : simpl never.
Arguments flip_last : simpl never.
Arguments flip_second_last : simpl never.
Arguments transpose_120 : simpl never.
Arguments index_first : simpl never.

(* ================================================================== *)
(** * Part II.  Notions used in the statements, and sample data        *)
(* ================================================================== *)

(** ** Scaling *)

(** A finite value in the interval [0, 1]. *)
Definition in_unit (x : float) : Prop :=
  exists r, x = Fin r /\ 0 <= r <= 1.

(** Every element is finite. *)
Definition all_finite (xs : list float) : Prop :=
  Forall (fun x => isfinite x = true) xs.

(** Clipping of a real to [lo, hi], as [np.clip] does on finite values. *)
Definition clipR (lo hi r : R) : R := Rmin (Rmax r lo) hi.

(** At least two samples differ after clipping to [lo, hi]. *)
Definition varies (lo hi : R) (xs : list float) : Prop :=
  exists x y, In (Fin x) xs /\ In (Fin y) xs /\ clipR lo hi x <> clipR lo hi y.

(** The modes that normalise by the extremes of the transformed array. *)
Definition normalizes_by_own_range (mode : string) : bool :=
  ((mode =? "log") || (mode =? "sqrt") || (mode =? "asinh"))%string.

(** The three transforms on a clipped value [c] in [lo, hi]. *)
Definition log_transform (lo c : R) : R := ln (c - lo + 1) / ln 10.
Definition sqrt_transform (lo c : R) : R := sqrt (Rabs (c - lo)).

(** The channels that [_apply_scaling] transforms one by one: the three
    colour planes of a channel-last RGB array, the array itself otherwise. *)
Definition channels_of (data : ndarray) : list ndarray :=
  if ((ndim data =? 3) && (nth 2 (shape data) 0 =? 3))%nat then
    flat_map (fun i => match channel_last data i with
                       | Ok channel => [channel]
                       | Raise _ => []
                       end) [0; 1; 2]%nat
  else [data].

(** The invariant on the stored bounds. *)
Definition bounds_ordered (e : ImageDisplayEngine) : Prop :=
  exists lo hi, vmin e = Some lo /\ vmax e = Some hi /\ flt lo hi = true.

(** ** Histogram *)

(** Edges in ascending order. *)
Inductive ascending : list R -> Prop :=
| ascending_nil : ascending []
| ascending_one : forall e, ascending [e]
| ascending_cons : forall e1 e2 rest,
    e1 <= e2 -> ascending (e2 :: rest) -> ascending (e1 :: e2 :: rest).

(** ** Transform pipeline *)

Section TransformNotions.

Context {lib : Library}.

(** The canonical array of the current HDU: the stored original when there
    is one, else what the data source holds. *)
Definition canonical (w : MainWindow) : result (option ndarray) :=
  match original_data w with
  | Some original => Ok (Some original)
  | None => FITSFileManager.get_data (fits_manager w) (current_hdu_index w)
  end.

(** The window once the canonical array [c] is stored. *)
Definition captured (c : ndarray) (w : MainWindow) : MainWindow :=
  match original_data w with
  | Some _ => w
  | None => with_original_data (Some c) w
  end.

(** Rotation of the canonical array by the stored angle. *)
Definition rotated (w : MainWindow) (c : ndarray) : result ndarray :=
  if (rotation_angle w =? 0)%Z then Ok c
  else rotate_preserving_dtype c (rotation_angle w).

(** The two flips, in the order the pipeline applies them. *)
Definition flipped (w : MainWindow) (a : ndarray) : result ndarray :=
  (b <-? (if flip_horizontal w then flip_last a else Ok a) ;
   if flip_vertical w then flip_second_last b else Ok b)%result.

(** The array the pipeline derives from the canonical array [c] and the
    transform state of [w]. *)
Definition transformed (w : MainWindow) (c : ndarray) : result ndarray :=
  (r <-? rotated w c ; flipped w r)%result.

(** The last part of [apply_transformations]: showing the derived array. *)
Definition redisplay (data : ndarray) (old_vmin old_vmax : option float)
  : M MainWindow unit :=
  (on_engine (modify (with_current_data (Some data))) ;;
   on_engine (set_data (Some data)) ;;
   match old_vmin, old_vmax with
   | Some _, Some _ =>
       on_engine (modify (with_vmin old_vmin)) ;;
       on_engine (modify (with_vmax old_vmax)) ;;
       on_engine update_display
   | _, _ => ret tt
   end ;;
   now <- get ;;
   on_histogram
     (HistogramWidget.update_histogram (Some data)
        (vmin (image_engine now)) (vmax (image_engine now)) 100))%monad.

(** The outcomes of [apply_transformations]. *)
Inductive pipeline_outcome (w : MainWindow) : result unit * MainWindow -> Prop :=
| source_raises : forall e,
    canonical w = Raise e ->
    pipeline_outcome w (Raise e, w)
| nothing_to_show :
    canonical w = Ok None ->
    pipeline_outcome w (Ok tt, w)
| rotation_fails : forall c e,
    canonical w = Ok (Some c) ->
    rotated w c = Raise e ->
    pipeline_outcome w (Ok tt, with_status_bar (RotationError e) (captured c w))
| flip_fails : forall c r e,
    canonical w = Ok (Some c) ->
    rotated w c = Ok r ->
    flipped w r = Raise e ->
    pipeline_outcome w (Raise e, captured c w)
| shown : forall c d,
    canonical w = Ok (Some c) ->
    transformed w c = Ok d ->
    pipeline_outcome w
      (redisplay d (vmin (image_engine w)) (vmax (image_engine w))
                 (captured c w)).

(** The window a command hands to [apply_transformations]. *)
Definition prepared (cmd : command) (w : MainWindow) : MainWindow :=
  match cmd with
  | Rotate angle => with_rotation_angle (angle mod 360) w
  | FlipHorizontal => with_flip_horizontal (negb (flip_horizontal w)) w
  | FlipVertical => with_flip_vertical (negb (flip_vertical w)) w
  end.

(** The status line a command leaves when it completes. *)
Definition report (cmd : command) (w : MainWindow) : message :=
  match cmd with
  | Rotate _ => RotatedTo (rotation_angle w)
  | FlipHorizontal => HorizontalFlip (flip_horizontal w)
  | FlipVertical => VerticalFlip (flip_vertical w)
  end.

(** The display pipeline's reduction of an array to two dimensions or to
    channel-last RGB. *)
Definition reduction (c : ndarray) : result (option ndarray) :=
  _prepare_data_for_display (with_current_data (Some c) new_engine).





End TransformNotions.

(** ** Sample data *)

(** A 2 x 2 image of 16-bit integers, as read from a FITS file. *)
Definition sample_image : ndarray :=
  {| dtype := DInt 16 BigEndian;
     shape := [2; 2]%nat;
     flat := [Fin 1; Fin 2; Fin 3; Fin 4] |}.

(** A file manager with one HDU, holding [sample_image]. *)
Definition sample_manager : FITSFileManager.t :=
  {| FITSFileManager.hdulist :=
       Some [ {| FITSFileManager.type_name := "PrimaryHDU";
                 FITSFileManager.data := Some sample_image;
                 FITSFileManager.extname := None;
                 FITSFileManager.header_text := "SIMPLE  =                    T" |} ];
     FITSFileManager.filepath := Some "image.fits"%string;
     FITSFileManager.num_hdus := 1 |}.

(** An engine showing [sample_image] in linear mode with bounds (0, 100). *)
Definition sample_engine : ImageDisplayEngine :=
  {| current_data := Some sample_image;
     vmin := Some (Fin 0); vmax := Some (Fin 100);
     scaling_mode := "linear"; colormap := "viridis"; image := None |}.


(** A data cube of shape (5, 2, 2): the slice shown is the one at index 2. *)
Definition sample_cube : ndarray :=
  {| dtype := float32;
     shape := [5; 2; 2]%nat;
     flat := map (fun k => Fin (INR k)) (seq 0 20) |}.

(** An engine in sqrt mode with bounds (0, 100). *)
Definition sqrt_engine : ImageDisplayEngine :=
  {| current_data := None;
     vmin := Some (Fin 0); vmax := Some (Fin 100);
     scaling_mode := "sqrt"; colormap := "viridis"; image := None |}.



(** A stand-in for the library in the examples: a quarter turn of a
    two-dimensional array, delivered with element type float64. *)
Definition quarter_turn (a : ndarray) (angle : Z) : result ndarray :=
  match shape a with
  | [h; w] =>
      Ok {| dtype := float64;
            shape := [w; h];
            flat := gather (h * w)
                      (fun k => (k mod h) * w + (w - 1 - k / h))%nat (flat a) |}
  | _ => Raise LibraryError
  end.

(** A platform that converts NaN and the infinities to 0. *)
Definition nonfinite_as_zero (d : DType) (x : float) : Z := 0%Z.

(** The library of the examples. *)
Definition example_library : Library :=
  {| ndimage_rotate := quarter_turn;
     nonfinite_as_integer := nonfinite_as_zero |}.

(** A window showing the 2 x 2 image of [sample_manager], turned by 90
    degrees earlier on. *)
Definition turned_window : MainWindow :=
  {| fits_manager := sample_manager;
     current_hdu_index := 0;
     original_rgb_data := None;
     original_data := Some sample_image;
     rotation_angle := 90;
     flip_horizontal := false;
     flip_vertical := false;
     image_engine := sample_engine;
     histogram_widget := HistogramWidget.new;
     status_bar := RotatedTo 90 |}.

(** The same window right after the HDU was selected. *)
Definition fresh_window : MainWindow :=
  {| fits_manager := sample_manager;
     current_hdu_index := 0;
     original_rgb_data := None;
     original_data := None;
     rotation_angle := 0;
     flip_horizontal := false;
     flip_vertical := false;
     image_engine := sample_engine;
     histogram_widget := HistogramWidget.new;
     status_bar := NoMessage |}.

(** The sample image after the stand-in rotation and the restoration of
    its element type. *)
Definition turned_sample : ndarray :=
  astype (lib := example_library) (dtype sample_image)
    (np_clip {| dtype := float64;
                shape := [2; 2]%nat;
                flat := gather 4 (fun k => (k mod 2) * 2 + (2 - 1 - k / 2))%nat
                          (flat sample_image) |}
             (iinfo_min (dtype sample_image)) (iinfo_max (dtype sample_image))).

(** ** File manager *)





(** A file that fails to open, and a file with the one HDU of
    [sample_manager]. *)
Definition missing_file (path : string)
  : result (list FITSFileManager.HDU) := Raise LibraryError.


(** ** Engine *)

(** What changes an engine: its public methods, and the assignments to
    [current_data], [vmin] and [vmax] that [main_window.py] makes. *)
Inductive engine_call : Type :=
| SetData (data : option ndarray)
| UpdateDisplay
| SetScalingLimits (new_vmin new_vmax : float)
| SetScalingMode (mode : string)
| SetColormap (name : string)
| AssignCurrentData (data : option ndarray)
| AssignVmin (v : option float)
| AssignVmax (v : option float).

Definition run_engine_call (c : engine_call) : M ImageDisplayEngine unit :=
  match c with
  | SetData data => set_data data
  | UpdateDisplay => update_display
  | SetScalingLimits a b => set_scaling_limits a b
  | SetScalingMode mode => set_scaling_mode mode
  | SetColormap name => set_colormap name
  | AssignCurrentData data => modify (with_current_data data)
  | AssignVmin v => modify (with_vmin v)
  | AssignVmax v => modify (with_vmax v)
  end.

(** An engine after a sequence of calls, each made on the engine its
    predecessor left, whether that one returned or raised. *)
Fixpoint run_engine_calls (cs : list engine_call) (e : ImageDisplayEngine)
  : ImageDisplayEngine :=
  match cs with
  | [] => e
  | c :: rest => run_engine_calls rest (snd (run_engine_call c e))
  end.

(** The four scaling modes. *)
Definition valid_mode (mode : string) : Prop :=
  In mode ["linear"; "log"; "sqrt"; "asinh"]%string.

(** The value linear scaling gives one sample. *)
Definition linear_value (lo hi : R) (x : float) : float :=
  match x with
  | Fin r => Fin ((clipR lo hi r - lo) / (hi - lo))
  | PosInf => Fin 1
  | NegInf => Fin 0
  | NaN => NaN
  end.

(** The transform of one sample in the log, sqrt and asinh modes, before
    normalisation. *)
Definition own_range_transform (mode : string) (lo hi : float) (x : float)
  : float :=
  let c := clip lo hi x in
  if (mode =? "log")%string then flog10 (fadd (fsub c lo) (Fin 1))
  else if (mode =? "sqrt")%string then fsqrt (fabs (fsub c lo))
  else farcsinh c.

(** An engine in log mode, as the main window sets it up. *)
Definition log_engine : ImageDisplayEngine :=
  snd (set_scaling_mode "log" new_engine).

(** A 0 x 4 image. *)
Definition empty_image : ndarray :=
  {| dtype := float32; shape := [0; 4]%nat; flat := [] |}.

(** A 1 x 3 image with a NaN sample. *)
Definition image_with_nan : ndarray :=
  {| dtype := float32; shape := [1; 3]%nat; flat := [Fin 0; NaN; Fin 100] |}.

(** ** Subscripts *)

(** The integer subscripts [indices] address the positions [positions] on
    the leading axes of an array of shape [dims]. *)
Inductive selects : list nat -> list Z -> list nat -> Prop :=
| selects_nil : forall dims, selects dims [] []
| selects_cons : forall d dims i indices k positions,
    normalize_index d i = Ok k ->
    selects dims indices positions ->
    selects (d :: dims) (i :: indices) (k :: positions).

(** A cube of shape (2, 3, 2, 2) holding 0, 1, ..., 23. *)
Definition sample_hypercube : ndarray :=
  {| dtype := float32;
     shape := [2; 3; 2; 2]%nat;
     flat := map (fun k => Fin (INR k)) (seq 0 24) |}.

(** ** Histogram bars *)


(** ** Flips *)

(** Position on an axis of length [n] that a flipped axis shows at [i]. *)
Definition mirrored (flip : bool) (n i : nat) : nat :=
  if flip then (n - 1 - i)%nat else i.

(** The window of [turned_window] before any rotation, with the original
    array stored. *)
Definition loaded_window : MainWindow :=
  {| fits_manager := sample_manager;
     current_hdu_index := 0;
     original_rgb_data := None;
     original_data := Some sample_image;
     rotation_angle := 0;
     flip_horizontal := false;
     flip_vertical := false;
     image_engine := sample_engine;
     histogram_widget := HistogramWidget.new;
     status_bar := NoMessage |}.

(** ** Header cards *)

(** [n] spaces. *)
Fixpoint spaces (n : nat) : string :=
  match n with
  | O => EmptyString
  | S n' => String (Ascii.ascii_of_nat 32) (spaces n')
  end.

(** A card padded with spaces to the 80 characters of a FITS card. *)
Definition pad_card (card : string) : string :=
  (card ++ spaces (80 - String.length card))%string.

(** Every character is white space. *)
Fixpoint all_space (s : string) : bool :=
  match s with
  | EmptyString => true
  | String c s' => isspace c && all_space s'
  end.

(** A card as it is shown: not empty, at most 80 characters, without
    trailing white space. *)
Definition shown_card (card : string) : Prop :=
  card <> EmptyString /\ (String.length card <= 80)%nat /\ rstrip card = card.

(** The line separator. *)
Definition newline : string := String (Ascii.ascii_of_nat 10) EmptyString.

(** ** Zoom *)

(** The limits that show a whole image of [n] pixels along an axis. *)
Definition full_extent (n : nat) : limits := (- (1 / 2), INR n - 1 / 2).

(** The view [inner] lies within the view [outer]. *)
Definition within (inner outer : limits) : Prop :=
  fst outer <= fst inner /\ snd inner <= snd outer.

(** A tool bar for the examples: its state is whether the pan tool is
    active, and [home] shows the unit square. *)
Definition example_toolbar : Toolbar :=
  {| toolbar_state := bool;
     toolbar_pan := negb;
     toolbar_home := fun t _ => (t, ((0, 1), (0, 1))) |}.

(** A viewer of [loaded_window] (a 2 x 2 image) zoomed to its centre. *)
Definition sample_viewer : Viewer (tb := example_toolbar) :=
  mk_viewer (tb := example_toolbar) loaded_window (0, 1) (0, 1) false None.

(** Height and width of the image that [imshow] draws for an array: its
    first two axes. *)
Definition displayed_dimensions (shown : ndarray) : nat * nat :=
  (nth 0 (shape shown) 0%nat, nth 1 (shape shown) 0%nat).

(** ** Scaling sliders *)

(** The value a slider position stands for: position [value] of [steps]
    between [lo] and [hi]. *)
Definition slider_value (lo hi : R) (steps value : Z) : R :=
  lo + (IZR value / IZR steps) * (hi - lo).

(** The panel of [loaded_window], with the data range of its image. *)
Definition sample_panel : ScalingPanel :=
  {| panel_window := loaded_window;
     data_min := 1;
     data_max := 4;
     min_value_label := None;
     max_value_label := None |}.

(** ** Failing rotation *)

(** A library whose rotation always fails. *)
Definition failing_library : Library :=
  {| ndimage_rotate := fun _ _ => Raise LibraryError;
     nonfinite_as_integer := nonfinite_as_zero |}.

(** ** Colour images *)

(** A 1 x 2 colour image in channel-last layout. *)
Definition sample_rgb : ndarray :=
  {| dtype := float32;
     shape := [1; 2; 3]%nat;
     flat := [Fin 0; Fin 50; Fin 100; Fin 10; Fin 20; Fin 30] |}.

(** ** Colormap panel *)

(** A state of the colormap panel: the label announces an RGB image, the
    two controls are enabled and the button is hidden. *)
Definition sample_controls : ColormapControls :=
  {| colormap_status_label := ColormapDisabledForRGB;
     colormap_combo_enabled := true;
     invert_colormap_check_enabled := true;
     rgb_to_gray_btn_visible := false;
     rgb_to_gray_btn_enabled := true |}.

(* ================================================================== *)
(** * Part III.  Properties                                            *)
(* ================================================================== *)

(** ** FITSFileManager: the accessors outside the valid index range *)

(** C10.  When no file is open, or the index is negative or not below the
    number of HDUs, [get_data] returns [None], [get_hdu_info] returns the
    empty dict and [get_header] returns the empty string; none of the
    three raises. *)
Theorem accessors_total_out_of_range :
  forall (self : FITSFileManager.t) (index : Z),
    FITSFileManager.hdulist self = None \/
    (index < 0)%Z \/ (index >= FITSFileManager.num_hdus self)%Z ->
    FITSFileManager.get_data self index = Ok None /\
    FITSFileManager.get_hdu_info self index = Ok [] /\
    FITSFileManager.get_header self index = Ok ""%string.
Proof.
  intros self index H.
  unfold FITSFileManager.get_data, FITSFileManager.get_hdu_info,
    FITSFileManager.get_header.
  destruct (FITSFileManager.hdulist self) as [hdus|]; [|auto].
  assert (G : ((index <? 0) || (index >=? FITSFileManager.num_hdus self))%Z = true).
  { destruct H as [H | [H | H]].
    - discriminate.
    - apply orb_true_iff; left; apply Z.ltb_lt; exact H.
    - apply orb_true_iff; right; apply Z.geb_le; lia. }
  rewrite G; auto.
Qed.

Lemma accessors_total_out_of_range_witness :
  FITSFileManager.get_data sample_manager 5 = Ok None /\
  FITSFileManager.get_hdu_info sample_manager 5 = Ok [] /\
  FITSFileManager.get_header sample_manager 5 = Ok ""%string.
Proof.
  apply (accessors_total_out_of_range sample_manager 5).
  right; right; simpl; lia.
Defined.

(** ** ImageDisplayEngine: automatic scaling *)





Lemma percentile_defined a q :
  0 <= q <= 100 -> exists v, percentile a q = Ok v.
Proof.
  intros [H0 H100]. unfold percentile.
  destruct (Rle_dec 0 q); [|contradiction].
  destruct (Rle_dec q 100); [|contradiction].
  eexists; reflexivity.
Qed.




Lemma auto_scale_default_defined e :
  exists lo hi, auto_scale e (1 / 2) (199 / 2) = Ok (lo, hi).
Proof.
  unfold auto_scale. destruct (current_data e) as [data|]; [|eauto].
  destruct (finite_values (flat data)) as [|first rest] eqn:E; [eauto|].
  destruct (percentile_defined (first :: rest) (1 / 2)) as [lo ->]; [lra|].
  destruct (percentile_defined (first :: rest) (199 / 2)) as [hi ->]; [lra|].
  cbn [rbind]. destruct (Rge_dec lo hi); [|eauto].
  destruct (Rge_dec _ _); eauto.
Qed.



(** ** ImageDisplayEngine: manual scaling limits *)

Lemma update_display_bounds :
  forall e, vmin (snd (update_display e)) = vmin e /\
            vmax (snd (update_display e)) = vmax e.
Proof.
  intros e. unfold update_display, bind, get, reading, modify, ret.
  destruct (current_data e); simpl; auto.
  destruct (_prepare_data_for_display e) as [[d|]|]; simpl; auto.
  destruct (_apply_scaling e (Some d)); simpl; auto.
Qed.

Lemma flt_Fin a b : a < b -> flt (Fin a) (Fin b) = true.
Proof. intros H. unfold flt. destruct (Rlt_dec a b); [reflexivity | lra]. Qed.





(** ** HistogramWidget: the bin counts *)

Lemma bin_counts_step lo hi rest xs :
  bin_counts (lo :: hi :: rest) xs =
  count_if (in_bin lo hi (match rest with [] => true | _ => false end)) xs
  :: bin_counts (hi :: rest) xs.
Proof. reflexivity. Qed.

Lemma list_sum_step n l : list_sum (n :: l) = (n + list_sum l)%nat.
Proof. reflexivity. Qed.

Lemma last_default (l : list R) d d' : l <> [] -> last l d = last l d'.
Proof.
  induction l as [|a l IH]; intros Hne; [congruence|].
  destruct l as [|b l]; [reflexivity|].
  change (last (b :: l) d = last (b :: l) d'). apply IH. discriminate.
Qed.

Lemma bin_counts_below edges x e0 :
  ascending (e0 :: edges) -> x < e0 ->
  list_sum (bin_counts (e0 :: edges) [x]) = 0%nat.
Proof.
  revert e0. induction edges as [|e1 rest IH]; intros e0 Hasc Hx.
  - reflexivity.
  - inversion Hasc as [| |a b l Hle Hrest]; subst.
    rewrite bin_counts_step, list_sum_step, (IH e1 Hrest) by lra.
    unfold count_if, in_bin; simpl.
    destruct (Rle_dec e0 x); [lra | reflexivity].
Qed.

Lemma bin_counts_single edges x e0 :
  edges <> [] -> ascending (e0 :: edges) ->
  e0 <= x -> x <= last edges e0 ->
  list_sum (bin_counts (e0 :: edges) [x]) = 1%nat.
Proof.
  revert e0. induction edges as [|e1 rest IH]; intros e0 Hne Hasc Hlo Hhi.
  - congruence.
  - inversion Hasc as [| |a b l Hle Hrest]; subst.
    rewrite bin_counts_step, list_sum_step.
    destruct rest as [|e2 rest'].
    + simpl in Hhi. unfold count_if, in_bin; simpl.
      destruct (Rle_dec e0 x); [|lra].
      destruct (Rle_dec x e1); [reflexivity | lra].
    + destruct (Rlt_dec x e1) as [Hlt|Hge].
      * rewrite (bin_counts_below _ _ _ Hrest Hlt).
        unfold count_if, in_bin; simpl.
        destruct (Rle_dec e0 x); [|lra].
        destruct (Rlt_dec x e1); [reflexivity | lra].
      * rewrite IH; try assumption; try discriminate; try lra.
        -- unfold count_if, in_bin; simpl.
           destruct (Rle_dec e0 x); [|lra].
           destruct (Rlt_dec x e1); [lra | reflexivity].
        -- change (last (e1 :: e2 :: rest') e0) with (last (e2 :: rest') e0) in Hhi.
           rewrite (last_default _ e1 e0); [exact Hhi | discriminate].
Qed.

Lemma count_if_step p x xs :
  count_if p (x :: xs) = (count_if p [x] + count_if p xs)%nat.
Proof. unfold count_if; simpl. destruct (p x); reflexivity. Qed.

Lemma bin_counts_sum_step edges x xs :
  list_sum (bin_counts edges (x :: xs)) =
  (list_sum (bin_counts edges [x]) + list_sum (bin_counts edges xs))%nat.
Proof.
  induction edges as [|lo edges IH]; [reflexivity|].
  destruct edges as [|hi rest]; [reflexivity|].
  rewrite !bin_counts_step, !list_sum_step, IH, count_if_step. lia.
Qed.

Lemma bin_counts_total edges e0 xs :
  edges <> [] -> ascending (e0 :: edges) ->
  Forall (fun x => e0 <= x <= last edges e0) xs ->
  list_sum (bin_counts (e0 :: edges) xs) = length xs.
Proof.
  intros Hne Hasc Hall. induction Hall as [|x xs [Hlo Hhi] _ IH].
  - clear Hne Hasc. revert e0. induction edges as [|e1 rest IH]; intros e0.
    + reflexivity.
    + rewrite bin_counts_step, list_sum_step, IH. reflexivity.
  - rewrite bin_counts_sum_step, IH, bin_counts_single by assumption.
    reflexivity.
Qed.

Lemma bin_counts_length edges xs :
  length (bin_counts edges xs) = (length edges - 1)%nat.
Proof.
  induction edges as [|lo edges IH]; [reflexivity|].
  destruct edges as [|hi rest]; [reflexivity|].
  rewrite bin_counts_step. simpl length in *. rewrite IH. lia.
Qed.

Lemma diff_length edges :
  length (HistogramWidget.diff edges) = (length edges - 1)%nat.
Proof.
  induction edges as [|lo edges IH]; [reflexivity|].
  destruct edges as [|hi rest]; [reflexivity|].
  change (HistogramWidget.diff (lo :: hi :: rest))
    with ((hi - lo) :: HistogramWidget.diff (hi :: rest)).
  simpl length in *. rewrite IH. lia.
Qed.

Lemma removelast_length (edges : list R) :
  length (removelast edges) = (length edges - 1)%nat.
Proof.
  induction edges as [|lo edges IH]; [reflexivity|].
  destruct edges as [|hi rest]; [reflexivity|].
  change (removelast (lo :: hi :: rest)) with (lo :: removelast (hi :: rest)).
  simpl length in *. rewrite IH. lia.
Qed.

Lemma make_bars_heights lefts counts widths :
  length lefts = length counts -> length widths = length counts ->
  map HistogramWidget.height (HistogramWidget.make_bars lefts counts widths)
  = counts.
Proof.
  revert lefts widths. induction counts as [|c cs IH]; intros ls ws Hl Hw.
  - destruct ls; [reflexivity | discriminate].
  - destruct ls as [|l ls]; [discriminate|].
    destruct ws as [|w ws]; [discriminate|].
    simpl. f_equal. apply IH; simpl in *; lia.
Qed.

Lemma ascending_map_seq (f : nat -> R) a n :
  (forall i, (a <= i < a + n)%nat -> f i <= f (S i)) ->
  ascending (map f (seq a (S n))).
Proof.
  revert a. induction n as [|n IH]; intros a Hstep.
  - simpl. constructor.
  - change (map f (seq a (S (S n))))
      with (f a :: map f (seq (S a) (S n))).
    change (map f (seq (S a) (S n)))
      with (f (S a) :: map f (seq (S (S a)) n)).
    constructor.
    + apply Hstep. lia.
    + change (ascending (map f (seq (S a) (S n)))).
      apply IH. intros i Hi. apply Hstep. lia.
Qed.

Lemma linspace_ascending first last bins :
  (1 <= bins)%nat -> first <= last -> ascending (linspace first last bins).
Proof.
  intros Hb Hle. unfold linspace. rewrite Nat.add_1_r.
  apply ascending_map_seq. intros i Hi.
  assert (Hpos : 0 < INR bins) by (apply lt_0_INR; lia).
  set (t := (last - first) / INR bins).
  assert (Ht : 0 <= t).
  { unfold t. apply Rmult_le_pos; [lra|].
    apply Rlt_le, Rinv_0_lt_compat, Hpos. }
  assert (Hfull : t * INR bins = last - first).
  { unfold t. field. lra. }
  destruct (Nat.eqb_spec i bins) as [E|NE]; [lia|].
  destruct (Nat.eqb_spec (S i) bins) as [E'|NE'].
  - assert (Hi1 : INR i + 1 = INR bins) by (rewrite <- E', S_INR; reflexivity).
    nra.
  - rewrite S_INR. nra.
Qed.

Lemma linspace_shape first last bins :
  (1 <= bins)%nat ->
  exists edges, linspace first last bins = first :: edges /\
                edges <> [] /\ List.last edges first = last /\
                length (linspace first last bins) = S bins.
Proof.
  intros Hb. unfold linspace.
  rewrite length_map, length_seq, Nat.add_1_r.
  change (seq 0 (S bins)) with (0%nat :: seq 1 bins).
  destruct bins as [|b]; [lia|].
  exists (map (fun i => if (i =? S b)%nat then last
                        else first + INR i * ((last - first) / INR (S b)))
              (seq 1 (S b))).
  split; [|split; [|split]].
  - simpl map at 1. f_equal. simpl INR. ring.
  - discriminate.
  - rewrite seq_S, map_app. cbn [map]. rewrite last_last.
    change (1 + b)%nat with (S b). now rewrite Nat.eqb_refl.
  - reflexivity.
Qed.

Lemma Rlist_min_lower x xs :
  Rlist_min x xs <= x /\ Forall (fun y => Rlist_min x xs <= y) xs.
Proof.
  unfold Rlist_min. revert x. induction xs as [|y xs IH]; intros x; simpl.
  - split; [lra | constructor].
  - destruct (IH (Rmin x y)) as [H1 H2].
    pose proof (Rmin_l x y). pose proof (Rmin_r x y).
    split; [lra|]. constructor; [lra | exact H2].
Qed.

Lemma Rlist_max_upper x xs :
  x <= Rlist_max x xs /\ Forall (fun y => y <= Rlist_max x xs) xs.
Proof.
  unfold Rlist_max. revert x. induction xs as [|y xs IH]; intros x; simpl.
  - split; [lra | constructor].
  - destruct (IH (Rmax x y)) as [H1 H2].
    pose proof (Rmax_l x y). pose proof (Rmax_r x y).
    split; [lra|]. constructor; [lra | exact H2].
Qed.

Lemma Rlist_range x xs :
  Forall (fun y => Rlist_min x xs <= y <= Rlist_max x xs) (x :: xs).
Proof.
  destruct (Rlist_min_lower x xs) as [Hm Hms].
  destruct (Rlist_max_upper x xs) as [HM HMs].
  constructor; [lra|].
  rewrite Forall_forall in *. intros y Hy.
  specialize (Hms y Hy). specialize (HMs y Hy). simpl in *. lra.
Qed.

Lemma histogram_counts a bins :
  (1 <= bins)%nat ->
  exists counts bin_edges,
    histogram a bins = Ok (counts, bin_edges) /\
    list_sum counts = length a /\
    length counts = bins /\
    length bin_edges = S bins.
Proof.
  intros Hb. unfold histogram.
  destruct (Nat.eqb_spec bins 0) as [E|_]; [lia|].
  set (outer := match a with
                | [] => (0, 1)
                | x :: rest => (Rlist_min x rest, Rlist_max x rest)
                end).
  assert (Houter : fst outer <= snd outer /\
                   Forall (fun y => fst outer <= y <= snd outer) a).
  { unfold outer. destruct a as [|x rest]; simpl.
    - split; [lra | constructor].
    - pose proof (Rlist_range x rest) as Hr. split; [|exact Hr].
      inversion Hr; subst; lra. }
  destruct outer as [first_edge last_edge]. simpl in Houter.
  destruct Houter as [Hle Hall].
  set (widened := if Req_dec_T first_edge last_edge
                  then (first_edge - 1 / 2, last_edge + 1 / 2)
                  else (first_edge, last_edge)).
  assert (Hw : fst widened <= snd widened /\
               Forall (fun y => fst widened <= y <= snd widened) a).
  { unfold widened. destruct (Req_dec_T first_edge last_edge); simpl.
    - split; [lra|]. eapply Forall_impl; [|exact Hall]. simpl. intros; lra.
    - split; assumption. }
  destruct widened as [lo hi]. simpl in Hw. destruct Hw as [Hlohi Hin].
  destruct (linspace_shape lo hi bins Hb) as (edges & Heq & Hne & Hlast & Hlen).
  eexists _, _. split; [reflexivity|].
  split; [|split].
  - rewrite Heq. apply bin_counts_total; [exact Hne | |].
    + rewrite <- Heq. apply linspace_ascending; assumption.
    + rewrite Hlast. exact Hin.
  - rewrite bin_counts_length, Hlen. lia.
  - exact Hlen.
Qed.

Lemma update_histogram_completes (self : HistogramWidget.t) data vmin vmax bins :
  (1 <= bins)%nat ->
  fst (HistogramWidget.update_histogram (Some data) vmin vmax bins self) = Ok tt.
Proof.
  intros Hb. unfold HistogramWidget.update_histogram.
  unfold bind, modify, reading, ret. simpl.
  destruct (Nat.eqb_spec (length (finite_values (flat data))) 0); [reflexivity|].
  destruct (histogram_counts (finite_values (flat data)) bins Hb)
    as (counts & bin_edges & Hh & _).
  rewrite Hh. destruct vmin, vmax; reflexivity.
Qed.

(** C9.  After [update_histogram] on an array, with any number of bins
    that is at least one, the heights of the bars (the bin counts) add up
    to the number of finite elements of the array; there is one bar per
    bin when some element is finite, and no bar at all when none is. *)
Theorem histogram_counts_sum_to_finite_samples :
  forall (self : HistogramWidget.t) (data : ndarray)
         (vmin vmax : option float) (bins : nat),
    (1 <= bins)%nat ->
    let outcome :=
      HistogramWidget.update_histogram (Some data) vmin vmax bins self in
    let valid_data := finite_values (flat data) in
    fst outcome = Ok tt /\
    list_sum (map HistogramWidget.height (HistogramWidget.bars (snd outcome)))
      = length valid_data /\
    (valid_data = [] -> HistogramWidget.bars (snd outcome) = []) /\
    (valid_data <> [] -> length (HistogramWidget.bars (snd outcome)) = bins).
Proof.
  intros self data vmin vmax bins Hb outcome valid_data.
  unfold outcome, HistogramWidget.update_histogram.
  unfold bind, modify, reading, ret. simpl.
  fold valid_data.
  destruct (Nat.eqb_spec (length valid_data) 0) as [E|NE].
  - apply length_zero_iff_nil in E. rewrite E. simpl.
    repeat split; auto. congruence.
  - destruct (histogram_counts valid_data bins Hb)
      as (counts & bin_edges & Hh & Hsum & Hlc & Hle).
    rewrite Hh.
    assert (Hheights :
      map HistogramWidget.height
        (HistogramWidget.make_bars (removelast bin_edges) counts
           (HistogramWidget.diff bin_edges)) = counts).
    { apply make_bars_heights.
      - rewrite removelast_length, Hle, Hlc. lia.
      - rewrite diff_length, Hle, Hlc. lia. }
    destruct vmin, vmax; simpl; rewrite Hheights;
      (split; [reflexivity|]); (split; [exact Hsum|]);
      (split; [intros Hnil; rewrite Hnil in NE; simpl in NE; congruence|]);
      intros _; rewrite <- (length_map HistogramWidget.height), Hheights;
      exact Hlc.
Qed.

Lemma histogram_counts_sum_to_finite_samples_witness :
  list_sum (map HistogramWidget.height
              (HistogramWidget.bars
                 (snd (HistogramWidget.update_histogram
                         (Some {| dtype := float64; shape := [4]%nat;
                                  flat := [Fin 1; NaN; Fin 3; PosInf] |})
                         None None 100 HistogramWidget.new))))
  = 2%nat.
Proof.
  apply (histogram_counts_sum_to_finite_samples HistogramWidget.new
           {| dtype := float64; shape := [4]%nat;
              flat := [Fin 1; NaN; Fin 3; PosInf] |} None None 100).
  lia.
Defined.

(** ** ImageDisplayEngine: channel reduction *)

Lemma flat_index_bound dims idx k :
  flat_index dims idx = Some k -> (k < prod dims)%nat.
Proof.
  revert idx k. induction dims as [|d dims IH]; intros idx k H.
  - destruct idx; [|discriminate]. injection H as <-. simpl. lia.
  - destruct idx as [|i idx]; [discriminate|]. simpl in H.
    destruct (Nat.ltb_spec i d) as [Hi|]; [|discriminate].
    destruct (flat_index dims idx) as [r|] eqn:E; [|discriminate].
    injection H as <-. specialize (IH _ _ E).
    change (prod (d :: dims)) with (d * prod dims)%nat. nia.
Qed.

Lemma nth_error_window (l : list float) start len r :
  (r < len)%nat ->
  nth_error (firstn len (skipn start l)) r = nth_error l (start + r).
Proof.
  intros Hr. rewrite nth_error_firstn.
  destruct (Nat.ltb_spec r len); [|lia]. apply nth_error_skipn.
Qed.

(** Indexing the first axis: the element at [idx] of [a[i]] is the element
    at [i :: idx] of [a]. *)
Lemma index_first_item a d dims i :
  shape a = d :: dims -> (i < d)%nat ->
  exists b, index_first a i = Ok b /\
            dtype b = dtype a /\
            shape b = dims /\
            forall idx, item b idx = item a (i :: idx).
Proof.
  intros Hs Hi. unfold index_first. rewrite Hs.
  destruct (Nat.ltb_spec i d); [|lia].
  eexists. split; [reflexivity|]. split; [reflexivity|]. split; [reflexivity|].
  intros idx. unfold item. simpl. rewrite Hs. simpl.
  destruct (Nat.ltb_spec i d); [|lia].
  destruct (flat_index dims idx) as [r|] eqn:E; [|reflexivity].
  apply nth_error_window. eapply flat_index_bound; eassumption.
Qed.

Lemma index_tuple_item indices :
  forall a lead rest,
    shape a = lead ++ rest ->
    Forall2 lt indices lead ->
    exists b, index_tuple a indices = Ok b /\
              dtype b = dtype a /\
              shape b = rest /\
              forall idx, item b idx = item a (indices ++ idx).
Proof.
  induction indices as [|i indices IH]; intros a lead rest Hs Hlt.
  - inversion Hlt; subst. exists a. simpl in *. auto.
  - inversion Hlt as [|i' d indices' lead' Hi Hrest]; subst.
    simpl in Hs.
    destruct (index_first_item a _ _ i Hs Hi) as (b & Hb & Hd & Hsb & Hitem).
    destruct (IH b lead' rest Hsb Hrest) as (c & Hc & Hdc & Hsc & Hitem').
    exists c. simpl. rewrite Hb. simpl. rewrite Hc.
    split; [reflexivity|]. split; [congruence|]. split; [exact Hsc|].
    intros idx. rewrite Hitem', Hitem. reflexivity.
Qed.

Lemma gather_nth_error n src xs k :
  (k < n)%nat ->
  nth_error (gather n src xs) k = Some (nth (src k) xs (Fin 0)).
Proof.
  intros Hk. unfold gather.
  rewrite nth_error_map, nth_error_seq.
  destruct (Nat.ltb_spec k n); [reflexivity | lia].
Qed.

(** [np.transpose(a, (1, 2, 0))] moves the first axis last. *)
Lemma transpose_120_item a c h w :
  shape a = [c; h; w] -> length (flat a) = size a ->
  exists b, transpose_120 a = Ok b /\
            dtype b = dtype a /\
            shape b = [h; w; c] /\
            forall i j k, (i < h)%nat -> (j < w)%nat -> (k < c)%nat ->
                          item b [i; j; k] = item a [k; i; j].
Proof.
  intros Hs Hlen. unfold transpose_120. rewrite Hs.
  eexists. split; [reflexivity|]. split; [reflexivity|]. split; [reflexivity|].
  intros i j k Hi Hj Hk. unfold item. simpl shape. rewrite Hs. simpl flat.
  unfold size in Hlen. rewrite Hs in Hlen. simpl in Hlen. simpl.
  destruct (Nat.ltb_spec i h); [|lia].
  destruct (Nat.ltb_spec j w); [|lia].
  destruct (Nat.ltb_spec k c); [|lia].
  assert (Hp : (i * (w * (c * 1)) + (j * (c * 1) + (k * 1 + 0))
                = k + (i * w + j) * c)%nat) by lia.
  rewrite Hp.
  assert (Hin : (i * w + j < h * w)%nat) by nia.
  rewrite gather_nth_error by nia.
  rewrite Nat.Div0.mod_add, Nat.mod_small by lia.
  rewrite Nat.div_add by lia. rewrite Nat.div_small by lia.
  symmetry.
  replace (k * (h * (w * 1)) + (i * (w * 1) + (j * 1 + 0)))%nat
    with (k * (h * w) + (0 + (i * w + j)))%nat by lia.
  apply nth_error_nth'. nia.
Qed.

Lemma firstn_as_nth (l : list nat) m :
  (m <= length l)%nat ->
  map (fun i => nth i l 0%nat) (seq 0 m) = firstn m l.
Proof.
  revert m. induction l as [|x l IH]; intros m Hm.
  - simpl in Hm. replace m with 0%nat by lia. reflexivity.
  - destruct m as [|m]; [reflexivity|].
    simpl in Hm. change (seq 0 (S m)) with (0%nat :: seq 1 m).
    rewrite <- seq_shift. cbn [map firstn]. rewrite map_map. cbn [nth].
    f_equal. apply IH. lia.
Qed.

Lemma middle_in_range dims :
  Forall (fun d => 0 < d)%nat dims ->
  Forall2 lt (map (fun d => d / 2)%nat dims) dims.
Proof.
  induction 1 as [|d dims Hd _ IH]; cbn [map]; constructor.
  - apply Nat.div_lt; lia.
  - exact IH.
Qed.

(** C4.  [_prepare_data_for_display] is decided by the rank and shape of
    the current array: rank 1 gives [None]; rank 2 gives the array itself;
    shape (3, h, w) gives the channel-last transpose of shape (h, w, 3);
    any other rank 3 gives the slice at index [n / 2] of the first axis;
    a rank above 3 gives the two-dimensional slice at index [d / 2] of
    every axis before the last two. *)
Theorem prepare_data_for_display_by_rank :
  forall (self : ImageDisplayEngine) (data : ndarray),
    current_data self = Some data ->
    (ndim data = 1%nat -> _prepare_data_for_display self = Ok None) /\
    (ndim data = 2%nat -> _prepare_data_for_display self = Ok (Some data)) /\
    (forall h w,
        shape data = [3; h; w]%nat -> length (flat data) = size data ->
        exists rgb,
          _prepare_data_for_display self = Ok (Some rgb) /\
          shape rgb = [h; w; 3]%nat /\
          forall i j c, (i < h)%nat -> (j < w)%nat -> (c < 3)%nat ->
                        item rgb [i; j; c] = item data [c; i; j]) /\
    (forall n h w,
        shape data = [n; h; w] -> n <> 3%nat ->
        _prepare_data_for_display self =
          (slice <-? index_first data (n / 2) ; Ok (Some slice))%result /\
        ((0 < n)%nat ->
         exists slice,
           _prepare_data_for_display self = Ok (Some slice) /\
           shape slice = [h; w] /\
           forall idx, item slice idx = item data ((n / 2)%nat :: idx))) /\
    ((3 < ndim data)%nat ->
     let leading := firstn (ndim data - 2) (shape data) in
     let middle := map (fun d => d / 2)%nat leading in
     _prepare_data_for_display self =
       (slice <-? index_tuple data middle ; Ok (Some slice))%result /\
     (Forall (fun d => 0 < d)%nat leading ->
      exists slice,
        _prepare_data_for_display self = Ok (Some slice) /\
        shape slice = skipn (ndim data - 2) (shape data) /\
        ndim slice = 2%nat /\
        forall idx, item slice idx = item data (middle ++ idx))).
Proof.
  intros self data Hcur. unfold _prepare_data_for_display. rewrite Hcur.
  split; [|split; [|split; [|split]]].
  - intros ->. reflexivity.
  - intros ->. reflexivity.
  - intros h w Hs Hlen. unfold ndim. rewrite Hs. simpl.
    destruct (transpose_120_item data 3 h w Hs Hlen) as (rgb & Ht & _ & Hsh & Hit).
    exists rgb. rewrite Ht. auto.
  - intros n h w Hs Hn3. unfold ndim. rewrite Hs. cbn [length Nat.eqb nth].
    destruct (Nat.eqb_spec n 3) as [|_]; [contradiction|].
    split; [reflexivity|]. intros Hpos.
    destruct (index_first_item data n [h; w] (n / 2) Hs)
      as (slice & Hi & _ & Hsh & Hit); [apply Nat.div_lt; lia|].
    exists slice. rewrite Hi. auto.
  - intros Hrank.
    set (leading := firstn (ndim data - 2) (shape data)).
    set (middle := map (fun d => d / 2)%nat leading).
    destruct (Nat.eqb_spec (ndim data) 1) as [|_]; [lia|].
    destruct (Nat.eqb_spec (ndim data) 2) as [|_]; [lia|].
    destruct (Nat.eqb_spec (ndim data) 3) as [|_]; [lia|].
    assert (Hmid : map (fun i => (nth i (shape data) 0 / 2)%nat)
                       (seq 0 (ndim data - 2)) = middle).
    { unfold middle, leading. rewrite <- firstn_as_nth by (unfold ndim; lia).
      now rewrite map_map. }
    rewrite Hmid. split; [reflexivity|]. intros Hpos.
    destruct (index_tuple_item middle data leading
                (skipn (ndim data - 2) (shape data)))
      as (slice & Hi & _ & Hsh & Hit).
    + unfold leading. now rewrite firstn_skipn.
    + apply middle_in_range, Hpos.
    + exists slice. rewrite Hi. split; [reflexivity|]. split; [exact Hsh|].
      split; [|exact Hit].
      unfold ndim in *. rewrite Hsh, length_skipn. lia.
Qed.

Lemma prepare_data_for_display_by_rank_witness :
  _prepare_data_for_display (with_current_data (Some sample_cube) new_engine)
  = (slice <-? index_first sample_cube (5 / 2) ; Ok (Some slice))%result.
Proof.
  apply (prepare_data_for_display_by_rank
           (with_current_data (Some sample_cube) new_engine) sample_cube
           eq_refl) with (h := 2%nat) (w := 2%nat).
  - reflexivity.
  - discriminate.
Defined.

(** ** ImageDisplayEngine: the scaling transform *)

Lemma all_finite_reals xs :
  all_finite xs -> exists rs, xs = map Fin rs.
Proof.
  induction 1 as [|x xs Hx _ [rs IH]].
  - exists []. reflexivity.
  - destruct x as [r| | |]; try discriminate.
    exists (r :: rs). simpl. now rewrite IH.
Qed.

Lemma all_finite_map_Fin rs : all_finite (map Fin rs).
Proof. induction rs; constructor; auto. Qed.

Lemma clip_Fin lo hi r :
  clip (Fin lo) (Fin hi) (Fin r) = Fin (clipR lo hi r).
Proof. reflexivity. Qed.

Lemma clipR_range lo hi r : lo <= hi -> lo <= clipR lo hi r <= hi.
Proof.
  intros H. unfold clipR, Rmin, Rmax.
  destruct (Rle_dec r lo); destruct (Rle_dec _ hi); lra.
Qed.

Lemma fold_fminimum_Fin ss s :
  fold_left fminimum (map Fin ss) (Fin s) = Fin (Rlist_min s ss).
Proof.
  unfold Rlist_min. revert s. induction ss as [|a ss IH]; intros s.
  - reflexivity.
  - simpl. apply IH.
Qed.

Lemma fold_fmaximum_Fin ss s :
  fold_left fmaximum (map Fin ss) (Fin s) = Fin (Rlist_max s ss).
Proof.
  unfold Rlist_max. revert s. induction ss as [|a ss IH]; intros s.
  - reflexivity.
  - simpl. apply IH.
Qed.

Lemma amin_Fin s ss : amin (map Fin (s :: ss)) = Ok (Fin (Rlist_min s ss)).
Proof. simpl. now rewrite fold_fminimum_Fin. Qed.

Lemma amax_Fin s ss : amax (map Fin (s :: ss)) = Ok (Fin (Rlist_max s ss)).
Proof. simpl. now rewrite fold_fmaximum_Fin. Qed.

Lemma fdiv_fsub_Fin s m M :
  m < M ->
  fdiv (fsub (Fin s) (Fin m)) (fsub (Fin M) (Fin m)) = Fin ((s - m) / (M - m)).
Proof.
  intros H. unfold fsub, fneg, fadd, fdiv.
  destruct (Req_dec_T (M + - m) 0); [lra | reflexivity].
Qed.

Lemma unit_fraction s m M :
  m <= s <= M -> m < M -> 0 <= (s - m) / (M - m) <= 1.
Proof.
  intros [H1 H2] H. split.
  - apply Rmult_le_pos; [lra|]. apply Rlt_le, Rinv_0_lt_compat. lra.
  - apply Rmult_le_reg_r with (M - m); [lra|].
    unfold Rdiv. rewrite Rmult_assoc, Rinv_l by lra. lra.
Qed.

(** Min-max normalisation of a list of finite values that are not all
    equal lands in [0, 1]. *)
Lemma normalize_finite_varied ss :
  (exists a b, In a ss /\ In b ss /\ a <> b) ->
  exists out, normalize_to_0_1 (map Fin ss) = Ok out /\
              length out = length ss /\
              Forall in_unit out.
Proof.
  intros (a & b & Ha & Hb & Hab).
  destruct ss as [|s ss]; [contradiction|].
  pose proof (Rlist_range s ss) as Hrange.
  rewrite Forall_forall in Hrange.
  assert (Hlt : Rlist_min s ss < Rlist_max s ss).
  { pose proof (Hrange a Ha). pose proof (Hrange b Hb).
    destruct (Rlt_dec a b); lra. }
  unfold normalize_to_0_1. rewrite amin_Fin, amax_Fin. cbn [rbind].
  unfold flt at 1. destruct (Rlt_dec (Rlist_min s ss) (Rlist_max s ss)); [|lra].
  eexists. split; [reflexivity|]. split.
  - now rewrite !length_map.
  - rewrite Forall_forall. intros y Hy.
    rewrite map_map in Hy. apply in_map_iff in Hy.
    destruct Hy as (t & <- & Ht).
    rewrite fdiv_fsub_Fin by assumption.
    eexists; split; [reflexivity|].
    apply unit_fraction; [apply Hrange, Ht | assumption].
Qed.

Lemma increasing_injective (g : R -> R) lo hi :
  (forall a b, lo <= a -> a < b -> b <= hi -> g a < g b) ->
  forall a b, lo <= a <= hi -> lo <= b <= hi -> a <> b -> g a <> g b.
Proof.
  intros Hinc a b Ha Hb Hab.
  destruct (Rlt_dec a b) as [Hlt|Hnlt].
  - pose proof (Hinc a b (proj1 Ha) Hlt (proj2 Hb)). lra.
  - assert (Hlt : b < a) by lra.
    pose proof (Hinc b a (proj1 Hb) Hlt (proj2 Ha)). lra.
Qed.

Lemma ln_10_pos : 0 < ln 10.
Proof. rewrite <- ln_1. apply ln_increasing; lra. Qed.

Lemma log_transform_increasing lo hi a b :
  lo <= a -> a < b -> b <= hi -> log_transform lo a < log_transform lo b.
Proof.
  intros Ha Hab Hb. unfold log_transform.
  apply Rmult_lt_compat_r; [apply Rinv_0_lt_compat, ln_10_pos|].
  apply ln_increasing; lra.
Qed.

Lemma sqrt_transform_increasing lo hi a b :
  lo <= a -> a < b -> b <= hi -> sqrt_transform lo a < sqrt_transform lo b.
Proof.
  intros Ha Hab Hb. unfold sqrt_transform.
  rewrite !Rabs_pos_eq by lra. apply sqrt_lt_1_alt. lra.
Qed.

Lemma flog10_shifted lo hi r :
  lo <= hi ->
  flog10 (fadd (fsub (clip (Fin lo) (Fin hi) (Fin r)) (Fin lo)) (Fin 1))
  = Fin (log_transform lo (clipR lo hi r)).
Proof.
  intros H. rewrite clip_Fin. pose proof (clipR_range lo hi r H).
  unfold fsub, fneg, fadd, flog10, log_transform.
  destruct (Rlt_dec 0 (clipR lo hi r + - lo + 1)); [reflexivity | lra].
Qed.

Lemma fsqrt_shifted lo hi r :
  fsqrt (fabs (fsub (clip (Fin lo) (Fin hi) (Fin r)) (Fin lo)))
  = Fin (sqrt_transform lo (clipR lo hi r)).
Proof.
  rewrite clip_Fin. unfold fsub, fneg, fadd, fabs, fsqrt, sqrt_transform.
  destruct (Rle_dec 0 (Rabs (clipR lo hi r + - lo))) as [|N]; [reflexivity|].
  exfalso. apply N, Rabs_pos.
Qed.

Lemma varies_transformed (g : R -> R) lo hi rs :
  lo <= hi ->
  (forall a b, lo <= a -> a < b -> b <= hi -> g a < g b) ->
  varies lo hi (map Fin rs) ->
  exists a b, In a (map (fun r => g (clipR lo hi r)) rs) /\
              In b (map (fun r => g (clipR lo hi r)) rs) /\ a <> b.
Proof.
  intros Hle Hinc (x & y & Hx & Hy & Hxy).
  apply in_map_iff in Hx. destruct Hx as (x' & Ex & Hx). injection Ex as ->.
  apply in_map_iff in Hy. destruct Hy as (y' & Ey & Hy). injection Ey as ->.
  exists (g (clipR lo hi x)), (g (clipR lo hi y)).
  split; [apply in_map_iff; eauto|]. split; [apply in_map_iff; eauto|].
  apply (increasing_injective g lo hi Hinc); auto using clipR_range.
Qed.

Lemma linear_unit lo hi rs :
  lo < hi ->
  Forall in_unit
    (map (fun c => fdiv (fsub c (Fin lo)) (fsub (Fin hi) (Fin lo)))
         (map (clip (Fin lo) (Fin hi)) (map Fin rs))).
Proof.
  intros Hlt. rewrite !map_map. rewrite Forall_forall. intros y Hy.
  apply in_map_iff in Hy. destruct Hy as (r & <- & _).
  rewrite clip_Fin, fdiv_fsub_Fin by assumption.
  eexists; split; [reflexivity|].
  apply unit_fraction; [apply clipR_range; lra | assumption].
Qed.

Lemma normalized_transform_unit (g : R -> R) lo hi rs scaled :
  lo <= hi ->
  (forall a b, lo <= a -> a < b -> b <= hi -> g a < g b) ->
  scaled = map (fun r => Fin (g (clipR lo hi r))) rs ->
  varies lo hi (map Fin rs) ->
  exists out, normalize_to_0_1 scaled = Ok out /\
              length out = length rs /\
              Forall in_unit out.
Proof.
  intros Hle Hinc -> Hvar.
  rewrite <- (map_map (fun r => g (clipR lo hi r)) Fin).
  destruct (normalize_finite_varied _ (varies_transformed g lo hi rs Hle Hinc Hvar))
    as (out & Hout & Hlen & Hunit).
  exists out. rewrite length_map in Hlen. auto.
Qed.

(** The transform of one channel. *)
Lemma scaling_channel_unit self data lo hi :
  vmin self = Some (Fin lo) -> vmax self = Some (Fin hi) -> lo < hi ->
  all_finite (flat data) ->
  (normalizes_by_own_range (scaling_mode self) = true ->
   varies lo hi (flat data)) ->
  exists out,
    _apply_scaling_to_channel self data = Ok out /\
    shape out = shape data /\
    length (flat out) = length (flat data) /\
    Forall in_unit (flat out).
Proof.
  intros Hmin Hmax Hlt Hfin Hvar.
  destruct (all_finite_reals _ Hfin) as [rs Hrs].
  unfold _apply_scaling_to_channel. rewrite Hmin, Hmax, Hrs in *.
  cbn [np_clip_bounds operand rbind].
  assert (Hflt : flt (Fin lo) (Fin hi) = true).
  { unfold flt. destruct (Rlt_dec lo hi); [reflexivity | contradiction]. }
  assert (Hlinear :
    exists out,
      Ok {| dtype := float_result (dtype data); shape := shape data;
            flat := map (fun c => fdiv (fsub c (Fin lo)) (fsub (Fin hi) (Fin lo)))
                        (map (clip (Fin lo) (Fin hi)) (map Fin rs)) |} = Ok out /\
      shape out = shape data /\
      length (flat out) = length (map Fin rs) /\
      Forall in_unit (flat out)).
  { eexists. split; [reflexivity|]. cbn [shape flat].
    split; [reflexivity|]. split; [now rewrite !length_map|].
    apply linear_unit, Hlt. }
  destruct (String.eqb_spec (scaling_mode self) "linear") as [_|_].
  { rewrite Hflt. exact Hlinear. }
  destruct (String.eqb_spec (scaling_mode self) "log") as [E|_].
  { rewrite E in Hvar. specialize (Hvar eq_refl).
    destruct (normalized_transform_unit (log_transform lo) lo hi rs
                (map flog10
                   (map (fun c => fadd (fsub c (Fin lo)) (Fin 1))
                      (map (clip (Fin lo) (Fin hi)) (map Fin rs)))))
      as (out & Hout & Hlen & Hunit); try assumption; try lra.
    - apply log_transform_increasing.
    - rewrite !map_map. apply map_ext. intros r. apply flog10_shifted. lra.
    - rewrite Hout. eexists. split; [reflexivity|]. cbn [shape flat].
      rewrite length_map. auto. }
  destruct (String.eqb_spec (scaling_mode self) "sqrt") as [E|_].
  { rewrite E in Hvar. specialize (Hvar eq_refl).
    destruct (normalized_transform_unit (sqrt_transform lo) lo hi rs
                (map (fun s => fsqrt (fabs s))
                   (map (fun c => fsub c (Fin lo))
                      (map (clip (Fin lo) (Fin hi)) (map Fin rs)))))
      as (out & Hout & Hlen & Hunit); try assumption; try lra.
    - apply sqrt_transform_increasing.
    - rewrite !map_map. apply map_ext. intros r. apply fsqrt_shifted.
    - rewrite Hout. eexists. split; [reflexivity|]. cbn [shape flat].
      rewrite length_map. auto. }
  destruct (String.eqb_spec (scaling_mode self) "asinh") as [E|_].
  { rewrite E in Hvar. specialize (Hvar eq_refl).
    destruct (normalized_transform_unit arcsinh lo hi rs
                (map farcsinh (map (clip (Fin lo) (Fin hi)) (map Fin rs))))
      as (out & Hout & Hlen & Hunit); try assumption; try lra.
    - intros a b _ Hab _. apply arcsinh_lt, Hab.
    - rewrite !map_map. apply map_ext. intros r. reflexivity.
    - rewrite Hout. eexists. split; [reflexivity|]. cbn [shape flat].
      rewrite length_map. auto. }
  rewrite Hflt. exact Hlinear.
Qed.

Lemma in_unit_zero : in_unit (Fin 0).
Proof. exists 0. split; [reflexivity | lra]. Qed.

Lemma in_unit_nth l k : Forall in_unit l -> in_unit (nth k l (Fin 0)).
Proof.
  intros H. destruct (Nat.lt_ge_cases k (length l)) as [Hk|Hk].
  - apply (proj1 (Forall_nth in_unit l) H). exact Hk.
  - rewrite nth_overflow by exact Hk. apply in_unit_zero.
Qed.

Lemma all_finite_gather n src xs : all_finite xs -> all_finite (gather n src xs).
Proof.
  intros H. unfold gather, all_finite. rewrite Forall_forall. intros y Hy.
  apply in_map_iff in Hy. destruct Hy as (k & <- & _).
  destruct (Nat.lt_ge_cases (src k) (length xs)) as [Hk|Hk].
  - apply (proj1 (Forall_nth _ xs) H). exact Hk.
  - rewrite nth_overflow by exact Hk. reflexivity.
Qed.

Lemma shape_eqb_refl s : shape_eqb s s = true.
Proof. unfold shape_eqb. destruct (list_eq_dec Nat.eq_dec s s); congruence. Qed.

Lemma rgb_shape data :
  ((ndim data =? 3) && (nth 2 (shape data) 0 =? 3))%nat = true ->
  exists h w, shape data = [h; w; 3]%nat.
Proof.
  intros H. apply andb_true_iff in H. destruct H as [H1 H2].
  apply Nat.eqb_eq in H1, H2. unfold ndim in H1.
  destruct (shape data) as [|h [|w [|c [|? ?]]]]; try discriminate.
  simpl in H2. subst c. eauto.
Qed.

Lemma set_channel_last_unit acc i channel h w :
  shape acc = [h; w; 3]%nat -> (i < 3)%nat -> shape channel = [h; w] ->
  Forall in_unit (flat acc) -> Forall in_unit (flat channel) ->
  exists acc', set_channel_last acc i channel = Ok acc' /\
               shape acc' = [h; w; 3]%nat /\
               Forall in_unit (flat acc').
Proof.
  intros Hs Hi Hc Hacc Hch. unfold set_channel_last. rewrite Hs, Hc.
  destruct (Nat.ltb_spec i 3); [|lia]. rewrite shape_eqb_refl.
  eexists. split; [reflexivity|]. split; [reflexivity|]. cbn [flat].
  rewrite Forall_forall. intros y Hy. apply in_map_iff in Hy.
  destruct Hy as (k & <- & _).
  destruct (k mod 3 =? i)%nat; apply in_unit_nth; assumption.
Qed.

(** One turn of the loop over the colour planes. *)
Lemma rgb_channel_step self data lo hi h w acc i :
  vmin self = Some (Fin lo) -> vmax self = Some (Fin hi) -> lo < hi ->
  all_finite (flat data) -> shape data = [h; w; 3]%nat -> (i < 3)%nat ->
  (normalizes_by_own_range (scaling_mode self) = true ->
   forall channel, channel_last data i = Ok channel ->
                   varies lo hi (flat channel)) ->
  shape acc = [h; w; 3]%nat -> Forall in_unit (flat acc) ->
  exists acc',
    (channel <-? channel_last data i ;
     scaled <-? _apply_scaling_to_channel self (astype_float float32 channel) ;
     set_channel_last acc i scaled)%result = Ok acc' /\
    shape acc' = [h; w; 3]%nat /\ Forall in_unit (flat acc').
Proof.
  intros Hmin Hmax Hlt Hfin Hs Hi Hvar Hsa Hacc.
  assert (Hch : exists channel, channel_last data i = Ok channel /\
                                shape channel = [h; w] /\
                                all_finite (flat channel)).
  { unfold channel_last. rewrite Hs. destruct (Nat.ltb_spec i 3); [|lia].
    eexists. split; [reflexivity|]. split; [reflexivity|].
    apply all_finite_gather, Hfin. }
  destruct Hch as (channel & Hch & Hsc & Hfc). rewrite Hch. cbn [rbind].
  destruct (scaling_channel_unit self (astype_float float32 channel) lo hi
              Hmin Hmax Hlt Hfc) as (scaled & Hsc' & Hss & _ & Hunit).
  { intros Hm. apply (Hvar Hm channel Hch). }
  rewrite Hsc'. cbn [rbind].
  apply (set_channel_last_unit acc i scaled h w); try assumption.
  rewrite Hss. exact Hsc.
Qed.

(** The transform of a whole array, channel by channel for RGB input. *)
Lemma scaling_array_unit self data lo hi :
  vmin self = Some (Fin lo) -> vmax self = Some (Fin hi) -> lo < hi ->
  all_finite (flat data) ->
  (normalizes_by_own_range (scaling_mode self) = true ->
   Forall (fun channel => varies lo hi (flat channel)) (channels_of data)) ->
  exists out,
    _apply_scaling self (Some data) = Ok (Some out) /\
    shape out = shape data /\
    Forall in_unit (flat out).
Proof.
  intros Hmin Hmax Hlt Hfin Hvar. unfold _apply_scaling.
  unfold channels_of in Hvar.
  destruct ((ndim data =? 3) && (nth 2 (shape data) 0 =? 3))%nat eqn:Hrgb.
  - destruct (rgb_shape data Hrgb) as (h & w & Hs).
    assert (Hvar' : forall i, (i < 3)%nat ->
              normalizes_by_own_range (scaling_mode self) = true ->
              forall channel, channel_last data i = Ok channel ->
                              varies lo hi (flat channel)).
    { intros i Hi Hm channel Hch. specialize (Hvar Hm).
      rewrite Forall_forall in Hvar. apply Hvar.
      apply in_flat_map. exists i. split.
      - destruct i as [|[|[|]]]; simpl; auto; lia.
      - rewrite Hch. left. reflexivity. }
    assert (Hzero : shape (zeros_like data float32) = [h; w; 3]%nat /\
                    Forall in_unit (flat (zeros_like data float32))).
    { split; [exact Hs|]. cbn [zeros_like flat].
      rewrite Forall_forall. intros y Hy. apply repeat_spec in Hy. subst y.
      apply in_unit_zero. }
    destruct Hzero as [Hz1 Hz2]. cbn [fold_left rbind].
    destruct (rgb_channel_step self data lo hi h w _ 0%nat Hmin Hmax Hlt Hfin Hs
                ltac:(lia) (Hvar' 0%nat ltac:(lia)) Hz1 Hz2)
      as (acc0 & E0 & Hs0 & Hu0).
    rewrite E0. cbn [rbind].
    destruct (rgb_channel_step self data lo hi h w acc0 1%nat Hmin Hmax Hlt Hfin Hs
                ltac:(lia) (Hvar' 1%nat ltac:(lia)) Hs0 Hu0)
      as (acc1 & E1 & Hs1 & Hu1).
    rewrite E1. cbn [rbind].
    destruct (rgb_channel_step self data lo hi h w acc1 2%nat Hmin Hmax Hlt Hfin Hs
                ltac:(lia) (Hvar' 2%nat ltac:(lia)) Hs1 Hu1)
      as (acc2 & E2 & Hs2 & Hu2).
    rewrite E2. cbn [rbind].
    exists acc2. split; [reflexivity|]. split; [congruence | exact Hu2].
  - destruct (scaling_channel_unit self data lo hi Hmin Hmax Hlt Hfin)
      as (out & Hout & Hs & _ & Hunit).
    { intros Hm. specialize (Hvar Hm). inversion Hvar; assumption. }
    rewrite Hout. cbn [rbind]. exists out. auto.
Qed.


Lemma clipR_inside lo hi r : lo <= r <= hi -> clipR lo hi r = r.
Proof.
  intros [H1 H2]. unfold clipR, Rmin, Rmax.
  destruct (Rle_dec r lo); destruct (Rle_dec _ hi); lra.
Qed.


Lemma normalize_single s : normalize_to_0_1 [Fin s] = Ok [Fin s].
Proof.
  unfold normalize_to_0_1. simpl. destruct (Rlt_dec s s); [lra | reflexivity].
Qed.


(** The same happens in the two other modes that normalise by the
    transformed array's own range. *)
Example log_mode_constant_image :
  exists out,
    _apply_scaling_to_channel
      {| current_data := None; vmin := Some (Fin 0); vmax := Some (Fin 99);
         scaling_mode := "log"; colormap := "viridis"; image := None |}
      {| dtype := float64; shape := [1; 1]%nat; flat := [Fin 99] |} = Ok out /\
    flat out = [Fin 2].
Proof.
  assert (E : [flog10 (fadd (fsub (clip (Fin 0) (Fin 99) (Fin 99)) (Fin 0)) (Fin 1))]
              = [Fin 2]).
  { rewrite flog10_shifted by lra. unfold log_transform.
    rewrite clipR_inside by lra.
    replace (99 - 0 + 1) with (10 * 10) by lra.
    rewrite ln_mult by lra. pose proof ln_10_pos.
    do 2 f_equal. field. lra. }
  eexists. split.
  - unfold _apply_scaling_to_channel.
    cbn [vmin vmax scaling_mode flat map np_clip_bounds operand rbind].
    change (("log" =? "linear")%string) with false.
    change (("log" =? "log")%string) with true.
    cbv iota. rewrite E, normalize_single. cbn [rbind]. reflexivity.
  - reflexivity.
Qed.

Example asinh_mode_constant_image :
  exists out v,
    _apply_scaling_to_channel
      {| current_data := None; vmin := Some (Fin (-2)); vmax := Some (Fin 2);
         scaling_mode := "asinh"; colormap := "viridis"; image := None |}
      {| dtype := float64; shape := [1; 1]%nat; flat := [Fin (-1)] |} = Ok out /\
    flat out = [Fin v] /\ v < 0.
Proof.
  eexists. exists (arcsinh (-1)). split; [|split].
  - unfold _apply_scaling_to_channel.
    cbn [vmin vmax scaling_mode flat map np_clip_bounds operand rbind].
    change (("asinh" =? "linear")%string) with false.
    change (("asinh" =? "log")%string) with false.
    change (("asinh" =? "sqrt")%string) with false.
    change (("asinh" =? "asinh")%string) with true.
    cbv iota. rewrite clip_Fin, clipR_inside by lra.
    cbn [farcsinh]. rewrite normalize_single. cbn [rbind]. reflexivity.
  - reflexivity.
  - rewrite <- arcsinh_0. apply arcsinh_lt. lra.
Qed.

(** ** MainWindow: the transform pipeline *)

Lemma copy_id a : copy a = a.
Proof. destruct a; reflexivity. Qed.

Lemma update_display_frame e :
  current_data (snd (update_display e)) = current_data e /\
  vmin (snd (update_display e)) = vmin e /\
  vmax (snd (update_display e)) = vmax e /\
  scaling_mode (snd (update_display e)) = scaling_mode e.
Proof.
  unfold update_display, bind, get, reading, modify, ret.
  destruct (current_data e) eqn:E; simpl; auto.
  destruct (_prepare_data_for_display e) as [[d|]|]; simpl; auto.
  destruct (_apply_scaling e (Some d)); simpl; auto.
Qed.

Lemma set_data_frame d e :
  current_data (snd (set_data (Some d) e)) = Some d /\
  scaling_mode (snd (set_data (Some d) e)) = scaling_mode e.
Proof.
  unfold set_data, bind, modify, reading.
  destruct (auto_scale_default_defined (with_current_data (Some d) e))
    as (lo & hi & ->).
  cbn [fst snd].
  destruct (update_display_frame
              (with_vmax (Some hi) (with_vmin (Some lo)
                 (with_current_data (Some d) e)))) as (H1 & _ & _ & H4).
  destruct (update_display _) as [[|] e']; simpl in *; auto.
Qed.

Section PipelineProperties.

Context {lib : Library}.

Lemma apply_transformations_unfold w :
  current_data (image_engine w) <> None ->
  apply_transformations w =
  match canonical w with
  | Raise e => (Raise e, w)
  | Ok None => (Ok tt, w)
  | Ok (Some c) =>
      match rotated w c with
      | Raise e => (Ok tt, with_status_bar (RotationError e) (captured c w))
      | Ok r =>
          match flipped w r with
          | Raise e => (Raise e, captured c w)
          | Ok d => redisplay d (vmin (image_engine w)) (vmax (image_engine w))
                              (captured c w)
          end
      end
  end.
Proof.
  intros Hcur.
  unfold apply_transformations, canonical, captured, rotated,
    flipped, redisplay, bind, get, reading, modify, ret.
  destruct (current_data (image_engine w)) as [prev|]; [|congruence].
  destruct (original_data w) as [original|].
  - rewrite copy_id.
    destruct (rotation_angle w =? 0)%Z;
      [|destruct (rotate_preserving_dtype original (rotation_angle w)) as [r|];
        [|reflexivity]];
      (destruct (flip_horizontal w);
       [match goal with |- context [flip_last ?x] =>
          destruct (flip_last x); [|reflexivity] end|]);
      cbn [rbind];
      (destruct (flip_vertical w);
       [match goal with |- context [flip_second_last ?x] =>
          destruct (flip_second_last x); reflexivity end | reflexivity]).
  - destruct (FITSFileManager.get_data (fits_manager w) (current_hdu_index w)) as [[data|]|]; try reflexivity.
    rewrite !copy_id.
    destruct (rotation_angle w =? 0)%Z;
      [|destruct (rotate_preserving_dtype data (rotation_angle w)) as [r|];
        [|reflexivity]];
      (destruct (flip_horizontal w);
       [match goal with |- context [flip_last ?x] =>
          destruct (flip_last x); [|reflexivity] end|]);
      cbn [rbind];
      (destruct (flip_vertical w);
       [match goal with |- context [flip_second_last ?x] =>
          destruct (flip_second_last x); reflexivity end | reflexivity]).
Qed.

Lemma apply_transformations_outcome w :
  current_data (image_engine w) <> None ->
  pipeline_outcome w (apply_transformations w).
Proof.
  intros Hcur. rewrite (apply_transformations_unfold w Hcur).
  destruct (canonical w) as [[c|]|e] eqn:Hcan.
  - destruct (rotated w c) as [r|e] eqn:Hrot.
    + destruct (flipped w r) as [d|e] eqn:Hflip.
      * apply shown; [exact Hcan|]. unfold transformed. now rewrite Hrot.
      * eapply flip_fails; eassumption.
    + apply rotation_fails; assumption.
  - apply nothing_to_show. exact Hcan.
  - apply source_raises. exact Hcan.
Qed.

(** What [redisplay] leaves alone, and what it shows. *)
Lemma redisplay_frame d ov oV w :
  let w' := snd (redisplay d ov oV w) in
  fits_manager w' = fits_manager w /\
  current_hdu_index w' = current_hdu_index w /\
  original_data w' = original_data w /\
  rotation_angle w' = rotation_angle w /\
  flip_horizontal w' = flip_horizontal w /\
  flip_vertical w' = flip_vertical w /\
  current_data (image_engine w') = Some d.
Proof.
  unfold redisplay, bind, on_engine, on_histogram, modify, get, ret.
  cbn [image_engine with_image_engine].
  pose proof (set_data_frame d (with_current_data (Some d) (image_engine w)))
    as [Hcur _].
  destruct (set_data (Some d) (with_current_data (Some d) (image_engine w)))
    as [[[]|e2] e] eqn:E2; cbn [snd] in Hcur.
  - destruct ov as [a|], oV as [b|]; cbn [image_engine with_image_engine];
      try (destruct (HistogramWidget.update_histogram _ _ _ _ _) as [r5 h5];
           cbn; auto 10).
    pose proof (update_display_frame (with_vmax (Some b) (with_vmin (Some a) e)))
      as [Hc _].
    destruct (update_display (with_vmax (Some b) (with_vmin (Some a) e)))
      as [[[]|e4] e'] eqn:E4; cbn [snd] in Hc;
      cbn [image_engine with_image_engine];
      try (destruct (HistogramWidget.update_histogram _ _ _ _ _) as [r5 h5]);
      cbn; rewrite ?Hc; cbn; auto 10.
  - cbn. auto 10.
Qed.

(** When [redisplay] completes, bounds that were set are as before. *)
Lemma redisplay_bounds d a b w w' :
  redisplay d (Some a) (Some b) w = (Ok tt, w') ->
  vmin (image_engine w') = Some a /\ vmax (image_engine w') = Some b.
Proof.
  unfold redisplay, bind, on_engine, on_histogram, modify, get, ret.
  cbn [image_engine with_image_engine].
  destruct (set_data (Some d) (with_current_data (Some d) (image_engine w)))
    as [[[]|e2] e]; [|discriminate].
  cbn [image_engine with_image_engine].
  pose proof (update_display_frame (with_vmax (Some b) (with_vmin (Some a) e)))
    as (_ & Hmin & Hmax & _).
  destruct (update_display (with_vmax (Some b) (with_vmin (Some a) e)))
    as [[[]|e4] e']; [|discriminate].
  cbn [snd image_engine with_image_engine] in *.
  destruct (HistogramWidget.update_histogram _ _ _ _ _) as [r5 h5].
  intros H. injection H as _ <-. cbn. rewrite Hmin, Hmax. auto.
Qed.

Lemma captured_frame c w :
  fits_manager (captured c w) = fits_manager w /\
  current_hdu_index (captured c w) = current_hdu_index w /\
  rotation_angle (captured c w) = rotation_angle w /\
  flip_horizontal (captured c w) = flip_horizontal w /\
  flip_vertical (captured c w) = flip_vertical w /\
  image_engine (captured c w) = image_engine w.
Proof. unfold captured. destruct (original_data w); cbn; auto 10. Qed.

Lemma captured_original c w :
  canonical w = Ok (Some c) -> original_data (captured c w) = Some c.
Proof.
  unfold canonical, captured. destruct (original_data w) eqn:E.
  - intros H. injection H as <-. exact E.
  - reflexivity.
Qed.

(** Whatever its outcome, [apply_transformations] leaves the data source,
    the selected HDU and the transform state alone. *)
Lemma apply_transformations_frame w :
  let w' := snd (apply_transformations w) in
  fits_manager w' = fits_manager w /\
  current_hdu_index w' = current_hdu_index w /\
  rotation_angle w' = rotation_angle w /\
  flip_horizontal w' = flip_horizontal w /\
  flip_vertical w' = flip_vertical w.
Proof.
  destruct (current_data (image_engine w)) as [prev|] eqn:Hcur.
  - assert (Hne : current_data (image_engine w) <> None) by congruence.
    destruct (apply_transformations_outcome w Hne)
      as [e _|_|c e _ _|c r e _ _ _|c d _ _]; cbn [snd];
      try (cbn; auto 10; fail).
    + destruct (captured_frame c w) as (H1 & H2 & H3 & H4 & H5 & _).
      cbn. auto 10.
    + destruct (captured_frame c w) as (H1 & H2 & H3 & H4 & H5 & _). auto 10.
    + destruct (captured_frame c w) as (H1 & H2 & H3 & H4 & H5 & _).
      destruct (redisplay_frame d (vmin (image_engine w)) (vmax (image_engine w))
                  (captured c w)) as (G1 & G2 & _ & G3 & G4 & G5 & _).
      cbn zeta in *. repeat split; congruence.
  - unfold apply_transformations, bind, get, ret. rewrite Hcur.
    cbn. auto 10.
Qed.

(** The stored original after [apply_transformations]: as before, or the
    canonical array just captured. *)
Lemma apply_transformations_original w c :
  canonical w = Ok (Some c) ->
  let w' := snd (apply_transformations w) in
  (original_data w' = original_data w \/ original_data w' = Some c) /\
  (current_data (image_engine w) <> None -> original_data w' = Some c).
Proof.
  intros Hcan.
  destruct (current_data (image_engine w)) as [prev|] eqn:Hcur.
  - assert (Hne : current_data (image_engine w) <> None) by congruence.
    rewrite <- Hcur.
    pose proof (captured_original c w Hcan) as Hcap.
    destruct (apply_transformations_outcome w Hne)
      as [e H|H|c' e H _|c' r e H _ _|c' d H _]; cbn [snd];
      rewrite Hcan in H; try discriminate; injection H as <-.
    + cbn. auto.
    + auto.
    + destruct (redisplay_frame d (vmin (image_engine w)) (vmax (image_engine w))
                  (captured c w)) as (_ & _ & G & _).
      cbn zeta in G. rewrite G. auto.
  - unfold apply_transformations, bind, get, ret. rewrite Hcur.
    cbn. split; [auto | congruence].
Qed.

Lemma run_command_unfold cmd w :
  run_command cmd w =
  match current_data (image_engine w) with
  | None => (Ok tt, w)
  | Some _ =>
      match apply_transformations (prepared cmd w) with
      | (Ok _, w') => (Ok tt, with_status_bar (report cmd w') w')
      | (Raise e, w') => (Raise e, w')
      end
  end.
Proof.
  destruct cmd; cbn [run_command prepared report];
    unfold rotate_image, flip_horizontal_image, flip_vertical_image,
      bind, get, modify, ret;
    destruct (current_data (image_engine w)); try reflexivity;
    destruct (apply_transformations _) as [[[]|e] w']; reflexivity.
Qed.

Lemma prepared_frame cmd w :
  fits_manager (prepared cmd w) = fits_manager w /\
  current_hdu_index (prepared cmd w) = current_hdu_index w /\
  original_data (prepared cmd w) = original_data w /\
  image_engine (prepared cmd w) = image_engine w.
Proof. destruct cmd; cbn; auto. Qed.

Lemma canonical_ext w w' :
  fits_manager w' = fits_manager w ->
  current_hdu_index w' = current_hdu_index w ->
  original_data w' = original_data w ->
  canonical w' = canonical w.
Proof. intros H1 H2 H3. unfold canonical. now rewrite H1, H2, H3. Qed.

Lemma canonical_stored w c :
  original_data w = Some c -> canonical w = Ok (Some c).
Proof. intros H. unfold canonical. now rewrite H. Qed.

Lemma canonical_original w c o :
  canonical w = Ok (Some c) -> original_data w = Some o -> o = c.
Proof. unfold canonical. intros H E. rewrite E in H. congruence. Qed.

(** One command keeps the canonical array. *)
Lemma run_command_canonical cmd w c :
  canonical w = Ok (Some c) ->
  let w' := snd (run_command cmd w) in
  canonical w' = Ok (Some c) /\
  (original_data w = Some c -> original_data w' = Some c) /\
  (current_data (image_engine w) <> None -> original_data w' = Some c).
Proof.
  intros Hcan. rewrite run_command_unfold.
  destruct (current_data (image_engine w)) as [prev|] eqn:Hcur;
    [|cbn; repeat split; auto; congruence].
  destruct (prepared_frame cmd w) as (P1 & P2 & P3 & P4).
  assert (Hcan0 : canonical (prepared cmd w) = Ok (Some c)).
  { rewrite (canonical_ext w (prepared cmd w)); assumption. }
  destruct (apply_transformations_original (prepared cmd w) c Hcan0) as [_ Horig].
  rewrite P4 in Horig. specialize (Horig ltac:(congruence)).
  destruct (apply_transformations (prepared cmd w)) as [[[]|e] w1];
    cbn [snd] in *; repeat split; auto using canonical_stored.
Qed.

Lemma run_commands_canonical cs : forall w c,
  canonical w = Ok (Some c) ->
  canonical (run_commands cs w) = Ok (Some c) /\
  (original_data w = Some c -> original_data (run_commands cs w) = Some c).
Proof.
  induction cs as [|cmd cs IH]; intros w c Hcan.
  - cbn. auto.
  - cbn [run_commands].
    destruct (run_command_canonical cmd w c Hcan) as (H1 & H2 & _).
    destruct (IH _ c H1) as [G1 G2]. auto.
Qed.

Lemma prepare_is_reduction e c :
  current_data e = Some c -> _prepare_data_for_display e = reduction c.
Proof.
  intros H. unfold reduction, _prepare_data_for_display. now rewrite H.
Qed.

Lemma apply_transformations_shows w c d :
  current_data (image_engine w) <> None ->
  canonical w = Ok (Some c) ->
  transformed w c = Ok d ->
  current_data (image_engine (snd (apply_transformations w))) = Some d.
Proof.
  intros Hne Hcan Htr. rewrite (apply_transformations_unfold w Hne), Hcan.
  unfold transformed in Htr.
  destruct (rotated w c) as [r|]; [|discriminate]. cbn [rbind] in Htr.
  rewrite Htr.
  apply (redisplay_frame d (vmin (image_engine w)) (vmax (image_engine w))
           (captured c w)).
Qed.

Lemma transformed_ext w w2 c :
  rotation_angle w2 = rotation_angle w ->
  flip_horizontal w2 = flip_horizontal w ->
  flip_vertical w2 = flip_vertical w ->
  transformed w2 c = transformed w c.
Proof.
  intros H1 H2 H3. unfold transformed, rotated, flipped.
  now rewrite H1, H2, H3.
Qed.

(** C3.  [apply_transformations] derives the array it shows from the
    canonical array and the transform state, not from the array shown
    before: two windows with the same canonical array and the same
    transform state end up showing the same array.  It leaves the
    canonical array stored; after any sequence of rotate and flip commands
    the canonical array of the current HDU is still the one the data
    source gave, and [original_data], once set, holds exactly that
    array. *)
Theorem canonical_array_replayed_and_kept :
  forall (w : MainWindow) (c : ndarray),
    canonical w = Ok (Some c) ->
    (current_data (image_engine w) <> None ->
     original_data (snd (apply_transformations w)) = Some c /\
     forall d, transformed w c = Ok d ->
               current_data (image_engine (snd (apply_transformations w)))
               = Some d) /\
    (forall (w2 : MainWindow) (d : ndarray),
        canonical w2 = Ok (Some c) ->
        current_data (image_engine w2) <> None ->
        rotation_angle w2 = rotation_angle w ->
        flip_horizontal w2 = flip_horizontal w ->
        flip_vertical w2 = flip_vertical w ->
        transformed w c = Ok d ->
        current_data (image_engine (snd (apply_transformations w2))) = Some d) /\
    (forall cs : list command,
        canonical (run_commands cs w) = Ok (Some c) /\
        (original_data (run_commands cs w) = None \/
         original_data (run_commands cs w) = Some c) /\
        (original_data w = Some c ->
         original_data (run_commands cs w) = Some c) /\
        (cs <> [] -> current_data (image_engine w) <> None ->
         original_data (run_commands cs w) = Some c)).
Proof.
  intros w c Hcan. split; [|split].
  - intros Hne. split.
    + apply (apply_transformations_original w c Hcan), Hne.
    + intros d Htr. apply (apply_transformations_shows w c d); assumption.
  - intros w2 d Hcan2 Hne2 Ha Hh Hv Htr.
    apply (apply_transformations_shows w2 c d); try assumption.
    rewrite (transformed_ext w w2 c); assumption.
  - intros cs.
    destruct (run_commands_canonical cs w c Hcan) as [H1 H2].
    split; [exact H1|]. split; [|split; [exact H2|]].
    + destruct (original_data (run_commands cs w)) as [o|] eqn:E; [|auto].
      right. f_equal. eapply canonical_original; eassumption.
    + intros Hcs Hne. destruct cs as [|cmd cs]; [congruence|].
      cbn [run_commands].
      destruct (run_command_canonical cmd w c Hcan) as (G1 & _ & G3).
      apply (run_commands_canonical cs _ c G1). apply G3, Hne.
Qed.

(** An image stays on display through [apply_transformations]. *)
Lemma apply_transformations_keeps_image w :
  current_data (image_engine w) <> None ->
  current_data (image_engine (snd (apply_transformations w))) <> None.
Proof.
  intros Hne.
  destruct (apply_transformations_outcome w Hne)
    as [e _|_|c e _ _|c r e _ _ _|c d _ _]; cbn [snd]; try exact Hne.
  - destruct (captured_frame c w) as (_ & _ & _ & _ & _ & He).
    cbn. now rewrite He.
  - destruct (captured_frame c w) as (_ & _ & _ & _ & _ & He). now rewrite He.
  - destruct (redisplay_frame d (vmin (image_engine w)) (vmax (image_engine w))
                (captured c w)) as (_ & _ & _ & _ & _ & _ & G).
    cbn zeta in G. rewrite G. discriminate.
Qed.

(** Rotations keep an image on display and leave the flips alone. *)
Lemma rotations_frame angles : forall w,
  current_data (image_engine w) <> None ->
  current_data (image_engine (run_commands (map Rotate angles) w)) <> None /\
  flip_horizontal (run_commands (map Rotate angles) w) = flip_horizontal w /\
  flip_vertical (run_commands (map Rotate angles) w) = flip_vertical w.
Proof.
  induction angles as [|angle angles IH]; intros w Hne; [cbn; auto|].
  cbn [map run_commands].
  assert (Hstep :
    current_data (image_engine (snd (run_command (Rotate angle) w))) <> None /\
    flip_horizontal (snd (run_command (Rotate angle) w)) = flip_horizontal w /\
    flip_vertical (snd (run_command (Rotate angle) w)) = flip_vertical w).
  { rewrite run_command_unfold.
    destruct (current_data (image_engine w)) as [prev|] eqn:Hcur; [|congruence].
    destruct (prepared_frame (Rotate angle) w) as (_ & _ & _ & P4).
    pose proof (apply_transformations_keeps_image (prepared (Rotate angle) w))
      as Hkeep.
    rewrite P4, Hcur in Hkeep. specialize (Hkeep ltac:(discriminate)).
    pose proof (apply_transformations_frame (prepared (Rotate angle) w))
      as (_ & _ & _ & Hh & Hv).
    cbn zeta in Hh, Hv.
    change (flip_horizontal (prepared (Rotate angle) w))
      with (flip_horizontal w) in Hh.
    change (flip_vertical (prepared (Rotate angle) w))
      with (flip_vertical w) in Hv.
    destruct (apply_transformations (prepared (Rotate angle) w)) as [[[]|e] w1];
      cbn [snd] in *; auto. }
  destruct Hstep as (S1 & S2 & S3).
  destruct (IH _ S1) as (G1 & G2 & G3).
  split; [exact G1|]. split; congruence.
Qed.

(** A request for no rotation, with the flips off, shows the canonical
    array. *)
Lemma rotate_to_identity w angle c :
  current_data (image_engine w) <> None ->
  angle = 0%Z \/ angle = 360%Z ->
  canonical w = Ok (Some c) ->
  flip_horizontal w = false ->
  flip_vertical w = false ->
  rotation_angle (snd (rotate_image angle w)) = 0%Z /\
  current_data (image_engine (snd (rotate_image angle w))) = Some c /\
  _prepare_data_for_display (image_engine (snd (rotate_image angle w)))
  = reduction c.
Proof.
  intros Hne Hzero Hcan Hfh Hfv.
  change (rotate_image angle) with (run_command (Rotate angle)).
  rewrite run_command_unfold.
  destruct (current_data (image_engine w)) as [prev|] eqn:Hcur; [|congruence].
  assert (Hmod : (angle mod 360 = 0)%Z) by (destruct Hzero; subst; reflexivity).
  destruct (prepared_frame (Rotate angle) w) as (P1 & P2 & P3 & P4).
  pose proof (apply_transformations_frame (prepared (Rotate angle) w))
    as (_ & _ & Hangle & _).
  cbn zeta in Hangle.
  change (rotation_angle (prepared (Rotate angle) w))
    with (angle mod 360)%Z in Hangle.
  assert (Hshow :
    current_data (image_engine
      (snd (apply_transformations (prepared (Rotate angle) w)))) = Some c).
  { apply (apply_transformations_shows _ c c).
    - rewrite P4. congruence.
    - rewrite (canonical_ext w); assumption.
    - unfold transformed, rotated, flipped.
      cbn [prepared rotation_angle with_rotation_angle flip_horizontal
             flip_vertical].
      rewrite Hmod, Hfh, Hfv. reflexivity. }
  destruct (apply_transformations (prepared (Rotate angle) w)) as [[[]|e] w1];
    cbn [snd image_engine with_status_bar rotation_angle] in *;
    (split; [congruence|]); (split; [exact Hshow|]);
    apply prepare_is_reduction, Hshow.
Qed.

(** C5.  [rotate_image] stores the requested angle modulo 360 whatever the
    angle stored before; and after any sequence of rotations, a request
    for 0 or 360 degrees with both flips off puts the canonical array
    itself on display, so that what is drawn is the reduction of the
    untransformed canonical array. *)
Theorem rotation_is_absolute :
  forall (w : MainWindow) (angle : Z),
    current_data (image_engine w) <> None ->
    rotation_angle (snd (rotate_image angle w)) = (angle mod 360)%Z /\
    (forall (c : ndarray) (earlier : list Z),
        angle = 0%Z \/ angle = 360%Z ->
        canonical w = Ok (Some c) ->
        flip_horizontal w = false ->
        flip_vertical w = false ->
        let w' := snd (rotate_image angle
                         (run_commands (map Rotate earlier) w)) in
        rotation_angle w' = 0%Z /\
        current_data (image_engine w') = Some c /\
        _prepare_data_for_display (image_engine w') = reduction c).
Proof.
  intros w angle Hne. split.
  - change (rotate_image angle) with (run_command (Rotate angle)).
    rewrite run_command_unfold.
    destruct (current_data (image_engine w)) as [prev|] eqn:Hcur; [|congruence].
    pose proof (apply_transformations_frame (prepared (Rotate angle) w))
      as (_ & _ & Hangle & _).
    cbn zeta in Hangle.
    change (rotation_angle (prepared (Rotate angle) w))
      with (angle mod 360)%Z in Hangle.
    destruct (apply_transformations (prepared (Rotate angle) w)) as [[[]|e] w1];
      cbn [snd] in *; exact Hangle.
  - intros c earlier Hzero Hcan Hfh Hfv. cbn zeta.
    destruct (rotations_frame earlier w Hne) as (K1 & K2 & K3).
    destruct (run_commands_canonical (map Rotate earlier) w c Hcan) as [K4 _].
    apply rotate_to_identity; try assumption; congruence.
Qed.

Lemma apply_transformations_bounds w a b w' :
  vmin (image_engine w) = Some a -> vmax (image_engine w) = Some b ->
  apply_transformations w = (Ok tt, w') ->
  vmin (image_engine w') = Some a /\ vmax (image_engine w') = Some b.
Proof.
  intros Hmin Hmax H.
  destruct (current_data (image_engine w)) as [prev|] eqn:Hcur.
  - rewrite apply_transformations_unfold in H by congruence.
    destruct (canonical w) as [[c|]|e]; [| |discriminate].
    + destruct (captured_frame c w) as (_ & _ & _ & _ & _ & He).
      destruct (rotated w c) as [r|e].
      * destruct (flipped w r) as [d|e]; [|discriminate].
        rewrite Hmin, Hmax in H. apply (redisplay_bounds _ _ _ _ _ H).
      * injection H as <-. cbn. rewrite He. auto.
    + injection H as <-. auto.
  - unfold apply_transformations, bind, get, ret in H.
    rewrite Hcur in H. injection H as <-. auto.
Qed.

(** C7.  A transform update that completes leaves the scaling bounds as
    they were, when both were set: this holds for [apply_transformations]
    and for each rotate and flip command built on it. *)
Theorem transform_keeps_scaling_bounds :
  forall (w : MainWindow) (a b : float),
    vmin (image_engine w) = Some a ->
    vmax (image_engine w) = Some b ->
    (forall w', apply_transformations w = (Ok tt, w') ->
                vmin (image_engine w') = Some a /\
                vmax (image_engine w') = Some b) /\
    (forall cmd w', run_command cmd w = (Ok tt, w') ->
                    vmin (image_engine w') = Some a /\
                    vmax (image_engine w') = Some b).
Proof.
  intros w a b Hmin Hmax. split.
  - intros w'. apply apply_transformations_bounds; assumption.
  - intros cmd w' H. rewrite run_command_unfold in H.
    destruct (current_data (image_engine w)) as [prev|].
    + destruct (prepared_frame cmd w) as (_ & _ & _ & P4).
      destruct (apply_transformations (prepared cmd w)) as [[[]|e] w1] eqn:E;
        [|discriminate].
      injection H as <-. cbn [image_engine with_status_bar].
      apply (apply_transformations_bounds (prepared cmd w) a b w1);
        [rewrite P4; exact Hmin | rewrite P4; exact Hmax | exact E].
    + injection H as <-. auto.
Qed.

(** *** Element type after rotation *)

























(** *** Completion *)

Lemma update_display_linear_completes e d lo hi :
  current_data e = Some d -> ndim d = 2%nat ->
  vmin e = Some lo -> vmax e = Some hi ->
  scaling_mode e = "linear"%string ->
  fst (update_display e) = Ok tt.
Proof.
  intros Hd Hrank Hlo Hhi Hmode.
  unfold update_display, bind, get, reading, modify, ret. rewrite Hd.
  unfold _prepare_data_for_display. rewrite Hd, Hrank. cbn [Nat.eqb].
  unfold _apply_scaling. unfold ndim in Hrank. unfold ndim. rewrite Hrank.
  cbn [Nat.eqb andb].
  unfold _apply_scaling_to_channel. rewrite Hlo, Hhi, Hmode.
  cbn [np_clip_bounds operand rbind String.eqb Ascii.eqb Bool.eqb].
  destruct (flt lo hi); reflexivity.
Qed.

(** In linear mode a two-dimensional array is always shown. *)
Lemma redisplay_linear_completes d ov oV w :
  ndim d = 2%nat ->
  scaling_mode (image_engine w) = "linear"%string ->
  fst (redisplay d ov oV w) = Ok tt.
Proof.
  intros Hrank Hmode.
  unfold redisplay, bind, on_engine, on_histogram, modify, get, ret.
  cbn [image_engine with_image_engine].
  set (e1 := with_current_data (Some d) (image_engine w)).
  assert (Hset : fst (set_data (Some d) e1) = Ok tt /\
                 current_data (snd (set_data (Some d) e1)) = Some d /\
                 scaling_mode (snd (set_data (Some d) e1)) = "linear"%string).
  { destruct (set_data_frame d e1) as [Hc Hm]. split; [|split; [exact Hc|]].
    - unfold set_data, bind, modify, reading.
      destruct (auto_scale_default_defined (with_current_data (Some d) e1))
        as (lo & hi & ->). cbn [fst snd].
      pose proof (update_display_linear_completes
                    (with_vmax (Some hi) (with_vmin (Some lo)
                       (with_current_data (Some d) e1))) d lo hi
                    eq_refl Hrank eq_refl eq_refl Hmode) as Hu.
      destruct (update_display _) as [r e']. exact Hu.
    - rewrite Hm. exact Hmode. }
  destruct Hset as (Hs1 & Hs2 & Hs3).
  destruct (set_data (Some d) e1) as [r2 e2]. cbn [fst snd] in *. subst r2.
  cbn [image_engine with_image_engine].
  assert (Hhist : forall data v1 v2 h,
            fst (HistogramWidget.update_histogram (Some data) v1 v2 100 h) = Ok tt).
  { intros data v1 v2 h.
    apply (update_histogram_completes h data v1 v2 100). lia. }
  destruct ov as [a|], oV as [b|]; cbn [image_engine with_image_engine].
  - pose proof (update_display_linear_completes
                  (with_vmax (Some b) (with_vmin (Some a) e2)) d a b
                  Hs2 Hrank eq_refl eq_refl Hs3) as Hu.
    destruct (update_display _) as [r4 e4]. cbn [fst] in Hu. subst r4.
    cbn [image_engine with_image_engine].
    specialize (Hhist d (vmin e4) (vmax e4) (histogram_widget w)).
    destruct (HistogramWidget.update_histogram _ _ _ _ _) as [r5 h5]. exact Hhist.
  - specialize (Hhist d (vmin e2) (vmax e2) (histogram_widget w)).
    destruct (HistogramWidget.update_histogram _ _ _ _ _) as [r5 h5]. exact Hhist.
  - specialize (Hhist d (vmin e2) (vmax e2) (histogram_widget w)).
    destruct (HistogramWidget.update_histogram _ _ _ _ _) as [r5 h5]. exact Hhist.
  - specialize (Hhist d (vmin e2) (vmax e2) (histogram_widget w)).
    destruct (HistogramWidget.update_histogram _ _ _ _ _) as [r5 h5]. exact Hhist.
Qed.

Lemma apply_transformations_completes w c d :
  current_data (image_engine w) <> None ->
  canonical w = Ok (Some c) ->
  transformed w c = Ok d ->
  ndim d = 2%nat ->
  scaling_mode (image_engine w) = "linear"%string ->
  fst (apply_transformations w) = Ok tt.
Proof.
  intros Hne Hcan Htr Hrank Hmode.
  rewrite (apply_transformations_unfold w Hne), Hcan.
  unfold transformed in Htr.
  destruct (rotated w c) as [r|]; [|discriminate]. cbn [rbind] in Htr.
  rewrite Htr. apply redisplay_linear_completes; [exact Hrank|].
  destruct (captured_frame c w) as (_ & _ & _ & _ & _ & He). now rewrite He.
Qed.

End PipelineProperties.

(** *** Examples *)



Lemma canonical_array_replayed_and_kept_witness :
  original_data
    (run_commands (lib := example_library)
       [Rotate 90; FlipHorizontal; Rotate 45] fresh_window)
  = Some sample_image.
Proof.
  destruct (canonical_array_replayed_and_kept (lib := example_library)
              fresh_window sample_image eq_refl) as (_ & _ & H).
  destruct (H [Rotate 90; FlipHorizontal; Rotate 45]) as (_ & _ & _ & H4).
  apply H4; discriminate.
Defined.

Lemma rotation_is_absolute_witness :
  rotation_angle
    (snd (rotate_image (lib := example_library) 360
            (run_commands (lib := example_library)
               (map Rotate [90; 45]%Z) fresh_window))) = 0%Z /\
  current_data
    (image_engine
       (snd (rotate_image (lib := example_library) 360
               (run_commands (lib := example_library)
                  (map Rotate [90; 45]%Z) fresh_window))))
  = Some sample_image /\
  _prepare_data_for_display
    (image_engine
       (snd (rotate_image (lib := example_library) 360
               (run_commands (lib := example_library)
                  (map Rotate [90; 45]%Z) fresh_window))))
  = reduction sample_image.
Proof.
  apply (rotation_is_absolute (lib := example_library) fresh_window 360).
  - discriminate.
  - right; reflexivity.
  - reflexivity.
  - reflexivity.
  - reflexivity.
Defined.


Lemma transform_keeps_scaling_bounds_witness :
  exists w',
    apply_transformations (lib := example_library) turned_window
    = (Ok tt, w') /\
    vmin (image_engine w') = Some (Fin 0) /\
    vmax (image_engine w') = Some (Fin 100).
Proof.
  pose proof (apply_transformations_completes (lib := example_library)
                turned_window sample_image turned_sample) as Hok.
  destruct (apply_transformations (lib := example_library) turned_window)
    as [r w'] eqn:E.
  cbn [fst] in Hok.
  assert (Hr : r = Ok tt) by (apply Hok; try reflexivity; discriminate).
  subst r. exists w'. split; [reflexivity|].
  apply (transform_keeps_scaling_bounds (lib := example_library)
           turned_window (Fin 0) (Fin 100) eq_refl eq_refl).
  exact E.
Defined.

(* ------------------------------------------------------------------ *)
(** ** FITSFileManager: opening, closing and the accessors in range *)

Lemma close_file_closed m :
  FITSFileManager.close_file m =
  (Ok tt, match FITSFileManager.hdulist m with
          | Some _ => FITSFileManager.new
          | None => m
          end).
Proof.
  unfold FITSFileManager.close_file, bind, get, modify, ret.
  destruct (FITSFileManager.hdulist m); reflexivity.
Qed.

Lemma open_file_unfold fits_open path m :
  FITSFileManager.open_file fits_open path m =
  match fits_open path with
  | Ok hdus =>
      (Ok true,
       {| FITSFileManager.hdulist := Some hdus;
          FITSFileManager.filepath := Some path;
          FITSFileManager.num_hdus := Z.of_nat (length hdus) |})
  | Raise _ =>
      (Ok false, match FITSFileManager.hdulist m with
                 | Some _ => FITSFileManager.new
                 | None => m
                 end)
  end.
Proof.
  unfold FITSFileManager.open_file, bind. rewrite close_file_closed.
  destruct (fits_open path); reflexivity.
Qed.








(** X1.  [open_file] never raises.  When the library opens the file, the
    manager holds its HDU list, the path and the number of HDUs, and the
    call returns [True]; when the library raises, the call returns [False]
    and no file is open afterwards: a file that was open before the call
    has been closed and the manager is back in its initial state. *)
Theorem open_file_outcome :
  forall (fits_open : string -> result (list FITSFileManager.HDU))
         (path : string) (self : FITSFileManager.t),
    (forall hdus,
        fits_open path = Ok hdus ->
        FITSFileManager.open_file fits_open path self =
        (Ok true,
         {| FITSFileManager.hdulist := Some hdus;
            FITSFileManager.filepath := Some path;
            FITSFileManager.num_hdus := Z.of_nat (length hdus) |})) /\
    (forall e,
        fits_open path = Raise e ->
        fst (FITSFileManager.open_file fits_open path self) = Ok false /\
        FITSFileManager.hdulist
          (snd (FITSFileManager.open_file fits_open path self)) = None /\
        (FITSFileManager.hdulist self <> None ->
         snd (FITSFileManager.open_file fits_open path self)
         = FITSFileManager.new)).
Proof.
  intros fits_open path self. split.
  - intros hdus H. rewrite open_file_unfold, H. reflexivity.
  - intros e H. rewrite open_file_unfold, H. cbn [fst snd].
    destruct (FITSFileManager.hdulist self) eqn:E.
    + repeat split.
    + repeat split; [exact E | congruence].
Qed.

Lemma open_file_outcome_witness :
  FITSFileManager.open_file missing_file "absent.fits" sample_manager
  = (Ok false, FITSFileManager.new).
Proof.
  destruct (open_file_outcome missing_file "absent.fits" sample_manager)
    as [_ H].
  destruct (H LibraryError eq_refl) as (H1 & _ & H3).
  destruct (FITSFileManager.open_file missing_file "absent.fits" sample_manager)
    as [r m].
  cbn [fst snd] in H1, H3. rewrite H1, H3; [reflexivity | discriminate].
Defined.





(** X4.  Whenever [get_hdu_info] and [get_data] both return for an index,
    the ['has_data'] entry of the metadata, read with the default
    [False], is true exactly when [get_data] returns an array. *)
Theorem has_data_agrees_with_get_data :
  forall (self : FITSFileManager.t) (index : Z) (info : dict)
         (d : option ndarray),
    FITSFileManager.get_hdu_info self index = Ok info ->
    FITSFileManager.get_data self index = Ok d ->
    truthy (dict_get info "has_data" (PyBool false))
    = match d with Some _ => true | None => false end.
Proof.
  intros self index info d.
  unfold FITSFileManager.get_hdu_info, FITSFileManager.get_data.
  destruct (FITSFileManager.hdulist self) as [hdus|].
  - destruct ((index <? 0) || (index >=? FITSFileManager.num_hdus self))%Z.
    + intros [= <-] [= <-]. reflexivity.
    + destruct (FITSFileManager.hdu_at hdus index) as [hdu|e];
        cbn [rbind]; [|discriminate].
      intros [= <-] [= <-]. unfold FITSFileManager.hdu_metadata.
      destruct (FITSFileManager.data hdu); reflexivity.
  - intros [= <-] [= <-]. reflexivity.
Qed.

Lemma has_data_agrees_with_get_data_witness :
  truthy (dict_get (FITSFileManager.hdu_metadata 0
                      {| FITSFileManager.type_name := "PrimaryHDU";
                         FITSFileManager.data := Some sample_image;
                         FITSFileManager.extname := None;
                         FITSFileManager.header_text :=
                           "SIMPLE  =                    T" |})
                   "has_data" (PyBool false))
  = true.
Proof.
  apply (has_data_agrees_with_get_data sample_manager 0 _ (Some sample_image));
    reflexivity.
Defined.

(* ------------------------------------------------------------------ *)
(** ** ImageDisplayEngine: scaling mode, colormap and what they leave alone *)

Lemma set_scaling_mode_unfold mode e :
  set_scaling_mode mode e =
  if existsb (String.eqb mode) ["linear"; "log"; "sqrt"; "asinh"]%string
  then update_display (with_scaling_mode mode e)
  else (Ok tt, e).
Proof.
  unfold set_scaling_mode.
  destruct (existsb _ _); reflexivity.
Qed.

Lemma valid_mode_existsb mode :
  valid_mode mode <->
  existsb (String.eqb mode) ["linear"; "log"; "sqrt"; "asinh"]%string = true.
Proof.
  unfold valid_mode. rewrite existsb_exists. split.
  - intros H. exists mode. split; [exact H | apply String.eqb_refl].
  - intros (m & Hin & Heq). apply String.eqb_eq in Heq. subst m. exact Hin.
Qed.

Lemma set_scaling_limits_frame a b e :
  current_data (snd (set_scaling_limits a b e)) = current_data e /\
  scaling_mode (snd (set_scaling_limits a b e)) = scaling_mode e.
Proof.
  unfold set_scaling_limits. destruct (flt a b); [|split; reflexivity].
  unfold bind, modify. cbn [fst snd].
  destruct (update_display_frame (with_vmax (Some b) (with_vmin (Some a) e)))
    as (H1 & _ & _ & H4).
  split; [rewrite H1 | rewrite H4]; reflexivity.
Qed.

Lemma set_colormap_frame name e :
  current_data (snd (set_colormap name e)) = current_data e /\
  vmin (snd (set_colormap name e)) = vmin e /\
  vmax (snd (set_colormap name e)) = vmax e /\
  scaling_mode (snd (set_colormap name e)) = scaling_mode e.
Proof.
  unfold set_colormap, bind, modify. cbn [fst snd].
  destruct (update_display_frame (with_colormap name e))
    as (H1 & H2 & H3 & H4).
  rewrite H1, H2, H3, H4. repeat split.
Qed.

Lemma set_scaling_mode_frame mode e :
  current_data (snd (set_scaling_mode mode e)) = current_data e /\
  vmin (snd (set_scaling_mode mode e)) = vmin e /\
  vmax (snd (set_scaling_mode mode e)) = vmax e.
Proof.
  rewrite set_scaling_mode_unfold.
  destruct (existsb _ _); [|repeat split].
  destruct (update_display_frame (with_scaling_mode mode e))
    as (H1 & H2 & H3 & _).
  rewrite H1, H2, H3. repeat split.
Qed.

Lemma set_scaling_mode_valid mode e :
  valid_mode (scaling_mode e) ->
  valid_mode (scaling_mode (snd (set_scaling_mode mode e))).
Proof.
  intros He. rewrite set_scaling_mode_unfold.
  destruct (existsb _ _) eqn:E; [|exact He].
  destruct (update_display_frame (with_scaling_mode mode e)) as (_ & _ & _ & H).
  rewrite H. apply valid_mode_existsb. exact E.
Qed.

Lemma run_engine_call_valid_mode c e :
  valid_mode (scaling_mode e) ->
  valid_mode (scaling_mode (snd (run_engine_call c e))).
Proof.
  intros He. destruct c; cbn [run_engine_call].
  - destruct data as [d|]; [|exact He].
    destruct (set_data_frame d e) as [_ H]. rewrite H. exact He.
  - destruct (update_display_frame e) as (_ & _ & _ & H). rewrite H. exact He.
  - destruct (set_scaling_limits_frame new_vmin new_vmax e) as [_ H].
    rewrite H. exact He.
  - apply set_scaling_mode_valid, He.
  - destruct (set_colormap_frame name e) as (_ & _ & _ & H). rewrite H. exact He.
  - exact He.
  - exact He.
  - exact He.
Qed.

(** X5.  The scaling mode of an engine is always one of 'linear', 'log',
    'sqrt' and 'asinh': it is 'linear' at construction, [set_scaling_mode]
    with another name changes nothing and returns, with one of the four
    names it stores the name even when the redraw raises, and no other
    method or assignment of the program touches it. *)
Theorem scaling_mode_stays_valid :
  forall calls : list engine_call,
    valid_mode (scaling_mode (run_engine_calls calls new_engine)) /\
    (forall (self : ImageDisplayEngine) (mode : string),
        ~ valid_mode mode -> set_scaling_mode mode self = (Ok tt, self)) /\
    (forall (self : ImageDisplayEngine) (mode : string),
        valid_mode mode ->
        scaling_mode (snd (set_scaling_mode mode self)) = mode).
Proof.
  intros calls. split; [|split].
  - assert (H : forall e, valid_mode (scaling_mode e) ->
                          valid_mode (scaling_mode (run_engine_calls calls e))).
    { induction calls as [|c cs IH]; intros e He; [exact He|].
      cbn [run_engine_calls]. apply IH, run_engine_call_valid_mode, He. }
    apply H. left. reflexivity.
  - intros self mode Hbad. rewrite set_scaling_mode_unfold.
    destruct (existsb _ _) eqn:E; [|reflexivity].
    exfalso. apply Hbad, valid_mode_existsb, E.
  - intros self mode Hok. rewrite set_scaling_mode_unfold.
    apply valid_mode_existsb in Hok. rewrite Hok.
    destruct (update_display_frame (with_scaling_mode mode self))
      as (_ & _ & _ & H).
    rewrite H. reflexivity.
Qed.

Lemma scaling_mode_stays_valid_witness :
  scaling_mode (snd (set_scaling_mode "sqrt" sample_engine)) = "sqrt"%string.
Proof.
  destruct (scaling_mode_stays_valid []) as (_ & _ & H).
  apply (H sample_engine "sqrt"%string).
  right; right; left; reflexivity.
Defined.

(** X6.  [set_colormap], [set_scaling_mode] and [update_display] never
    change the data or the scaling limits of the engine, and
    [set_scaling_limits] never changes the data, whether the redraw
    returns or raises. *)
Theorem display_settings_keep_data_and_limits :
  forall (self : ImageDisplayEngine),
    (forall name,
        current_data (snd (set_colormap name self)) = current_data self /\
        vmin (snd (set_colormap name self)) = vmin self /\
        vmax (snd (set_colormap name self)) = vmax self /\
        colormap (snd (set_colormap name self)) = name) /\
    (forall mode,
        current_data (snd (set_scaling_mode mode self)) = current_data self /\
        vmin (snd (set_scaling_mode mode self)) = vmin self /\
        vmax (snd (set_scaling_mode mode self)) = vmax self) /\
    (current_data (snd (update_display self)) = current_data self /\
     vmin (snd (update_display self)) = vmin self /\
     vmax (snd (update_display self)) = vmax self) /\
    (forall a b,
        current_data (snd (set_scaling_limits a b self)) = current_data self).
Proof.
  intros self. split; [|split; [|split]].
  - intros name.
    destruct (set_colormap_frame name self) as (H1 & H2 & H3 & _).
    repeat split; try assumption.
    unfold set_colormap, bind, modify. cbn [fst snd].
    unfold update_display, bind, get, reading, modify, ret.
    destruct (current_data (with_colormap name self)); [|reflexivity].
    destruct (_prepare_data_for_display _) as [[d|]|]; try reflexivity.
    destruct (_apply_scaling _ _); reflexivity.
  - intros mode. apply set_scaling_mode_frame.
  - destruct (update_display_frame self) as (H1 & H2 & H3 & _).
    repeat split; assumption.
  - intros a b. apply set_scaling_limits_frame.
Qed.

(** ** ImageDisplayEngine: linear scaling sample by sample *)

Lemma linear_sample lo hi x :
  lo < hi ->
  fdiv (fsub (clip (Fin lo) (Fin hi) x) (Fin lo)) (fsub (Fin hi) (Fin lo))
  = linear_value lo hi x.
Proof.
  intros Hlt. destruct x as [r| | |].
  - rewrite clip_Fin, fdiv_fsub_Fin by assumption. reflexivity.
  - change (clip (Fin lo) (Fin hi) PosInf) with (Fin hi).
    rewrite fdiv_fsub_Fin by assumption. cbn [linear_value].
    f_equal. field. lra.
  - change (clip (Fin lo) (Fin hi) NegInf) with (Fin (Rmin lo hi)).
    rewrite Rmin_left by lra.
    rewrite fdiv_fsub_Fin by assumption. cbn [linear_value].
    f_equal. field. lra.
  - reflexivity.
Qed.

Lemma not_own_range_is_linear (self : ImageDisplayEngine) data :
  normalizes_by_own_range (scaling_mode self) = false ->
  _apply_scaling_to_channel self data =
  (clipped <-? np_clip_bounds (vmin self) (vmax self) (flat data) ;
   hi <-? operand (vmax self) ;
   lo <-? operand (vmin self) ;
   if flt lo hi then
     Ok {| dtype := float_result (dtype data);
           shape := shape data;
           flat := map (fun c => fdiv (fsub c lo) (fsub hi lo)) clipped |}
   else Ok {| dtype := float_result (dtype data);
              shape := shape data;
              flat := clipped |})%result.
Proof.
  unfold normalizes_by_own_range. intros H.
  apply orb_false_iff in H. destruct H as [H Hasinh].
  apply orb_false_iff in H. destruct H as [Hlog Hsqrt].
  unfold _apply_scaling_to_channel. rewrite Hlog, Hsqrt, Hasinh.
  destruct (scaling_mode self =? "linear")%string; reflexivity.
Qed.

(** X7.  With finite limits [lo < hi], in linear mode (and for any mode
    name that is not 'log', 'sqrt' or 'asinh') every output sample is a
    function of the input sample at the same position: a finite [x]
    gives [(clip(x) - lo) / (hi - lo)], NaN stays NaN, plus infinity
    gives 1 and minus infinity 0.  So samples at or below [lo] give 0,
    samples at or above [hi] give 1, and the order of samples is kept. *)
Theorem linear_scaling_sample_by_sample :
  forall (self : ImageDisplayEngine) (lo hi : R) (data : ndarray),
    vmin self = Some (Fin lo) -> vmax self = Some (Fin hi) -> lo < hi ->
    normalizes_by_own_range (scaling_mode self) = false ->
    _apply_scaling_to_channel self data
    = Ok {| dtype := float_result (dtype data);
            shape := shape data;
            flat := map (linear_value lo hi) (flat data) |} /\
    (forall x, x <= lo -> linear_value lo hi (Fin x) = Fin 0) /\
    (forall x, hi <= x -> linear_value lo hi (Fin x) = Fin 1) /\
    (forall x y, x <= y ->
       exists a b, linear_value lo hi (Fin x) = Fin a /\
                   linear_value lo hi (Fin y) = Fin b /\ a <= b).
Proof.
  intros self lo hi data Hmin Hmax Hlt Hmode. repeat split.
  - rewrite not_own_range_is_linear by assumption.
    rewrite Hmin, Hmax. cbn [np_clip_bounds operand rbind].
    rewrite flt_Fin by assumption. do 2 f_equal.
    rewrite map_map. apply map_ext. intros x. apply linear_sample, Hlt.
  - intros x Hx. cbn [linear_value]. f_equal. unfold clipR.
    rewrite Rmax_right by lra. rewrite Rmin_left by lra. field. lra.
  - intros x Hx. cbn [linear_value]. f_equal. unfold clipR.
    rewrite Rmax_left by lra. rewrite Rmin_right by lra. field. lra.
  - intros x y Hxy. do 2 eexists. split; [reflexivity|]. split; [reflexivity|].
    assert (Hc : clipR lo hi x <= clipR lo hi y).
    { unfold clipR. apply Rle_min_compat_r, Rle_max_compat_r, Hxy. }
    unfold Rdiv. apply Rmult_le_compat_r; [|lra].
    apply Rlt_le, Rinv_0_lt_compat. lra.
Qed.

Lemma linear_scaling_sample_by_sample_witness :
  _apply_scaling_to_channel sample_engine sample_image
  = Ok {| dtype := float64;
          shape := [2; 2]%nat;
          flat := map (linear_value 0 100) [Fin 1; Fin 2; Fin 3; Fin 4] |}.
Proof.
  apply (linear_scaling_sample_by_sample sample_engine 0 100 sample_image).
  - reflexivity.
  - reflexivity.
  - lra.
  - reflexivity.
Defined.

(** ** ImageDisplayEngine: NaN samples and empty arrays *)

Lemma fminimum_nan_r a : fminimum a NaN = NaN.
Proof. destruct a; reflexivity. Qed.

Lemma fmaximum_nan_r a : fmaximum a NaN = NaN.
Proof. destruct a; reflexivity. Qed.

Lemma fold_fminimum_nan l : fold_left fminimum l NaN = NaN.
Proof. induction l as [|x l IH]; [reflexivity | exact IH]. Qed.

Lemma fold_fmaximum_nan l : fold_left fmaximum l NaN = NaN.
Proof. induction l as [|x l IH]; [reflexivity | exact IH]. Qed.

Lemma fold_fminimum_in_nan l : forall a,
  In NaN l -> fold_left fminimum l a = NaN.
Proof.
  induction l as [|x l IH]; intros a H; [destruct H|].
  cbn [fold_left]. destruct H as [->|H].
  - rewrite fminimum_nan_r. apply fold_fminimum_nan.
  - apply IH, H.
Qed.

Lemma fold_fmaximum_in_nan l : forall a,
  In NaN l -> fold_left fmaximum l a = NaN.
Proof.
  induction l as [|x l IH]; intros a H; [destruct H|].
  cbn [fold_left]. destruct H as [->|H].
  - rewrite fmaximum_nan_r. apply fold_fmaximum_nan.
  - apply IH, H.
Qed.

Lemma amin_nan xs : In NaN xs -> amin xs = Ok NaN.
Proof.
  destruct xs as [|x xs]; intros H; [destruct H|].
  unfold amin. f_equal. destruct H as [->|H].
  - apply fold_fminimum_nan.
  - apply fold_fminimum_in_nan, H.
Qed.

Lemma amax_nan xs : In NaN xs -> amax xs = Ok NaN.
Proof.
  destruct xs as [|x xs]; intros H; [destruct H|].
  unfold amax. f_equal. destruct H as [->|H].
  - apply fold_fmaximum_nan.
  - apply fold_fmaximum_in_nan, H.
Qed.

Lemma normalize_with_nan scaled :
  In NaN scaled -> normalize_to_0_1 scaled = Ok scaled.
Proof.
  intros H. unfold normalize_to_0_1.
  rewrite (amin_nan _ H), (amax_nan _ H). reflexivity.
Qed.

Lemma own_range_cases mode :
  normalizes_by_own_range mode = true ->
  ((mode =? "linear") = false)%string /\
  (((mode =? "log") = true)%string \/
   ((mode =? "log") = false /\ (mode =? "sqrt") = true)%string \/
   ((mode =? "log") = false /\ (mode =? "sqrt") = false /\
    (mode =? "asinh") = true)%string).
Proof.
  unfold normalizes_by_own_range. intros H.
  assert (Hlin : (mode =? "linear")%string = false).
  { destruct (String.eqb_spec mode "linear") as [->|]; [discriminate H|].
    reflexivity. }
  split; [exact Hlin|].
  destruct (mode =? "log")%string; [left; reflexivity|].
  destruct (mode =? "sqrt")%string; [right; left; split; reflexivity|].
  destruct (mode =? "asinh")%string; [|discriminate H].
  right; right. repeat split.
Qed.

Lemma own_range_unfold (self : ImageDisplayEngine) data lo hi :
  vmin self = Some lo -> vmax self = Some hi ->
  normalizes_by_own_range (scaling_mode self) = true ->
  _apply_scaling_to_channel self data =
  (normalized <-? normalize_to_0_1
                    (map (own_range_transform (scaling_mode self) lo hi)
                         (flat data)) ;
   Ok {| dtype := float_result (dtype data);
         shape := shape data;
         flat := normalized |})%result.
Proof.
  intros Hmin Hmax Hmode.
  destruct (own_range_cases _ Hmode) as [Hlin Hcases].
  unfold _apply_scaling_to_channel, own_range_transform.
  rewrite Hmin, Hmax, Hlin. cbn [np_clip_bounds operand rbind].
  destruct Hcases as [Hlog | [[Hlog Hsqrt] | (Hlog & Hsqrt & Hasinh)]].
  - rewrite Hlog. rewrite !map_map. reflexivity.
  - rewrite Hlog, Hsqrt. rewrite !map_map. reflexivity.
  - rewrite Hlog, Hsqrt, Hasinh. rewrite !map_map. reflexivity.
Qed.

Lemma own_range_transform_nan mode lo hi :
  own_range_transform mode lo hi NaN = NaN.
Proof.
  unfold own_range_transform.
  change (clip lo hi NaN) with NaN.
  destruct (mode =? "log")%string; [reflexivity|].
  destruct (mode =? "sqrt")%string; reflexivity.
Qed.

(** X8.  In the log, sqrt and asinh modes one NaN sample switches the
    normalisation off for the whole array: the minimum and the maximum of
    the transformed array are then NaN, the test [scaled_max > scaled_min]
    fails, and the result is the transformed array itself, for instance
    [sqrt(|clip(x) - vmin|)] at a finite sample [x] in sqrt mode and
    [log10(clip(x) - vmin + 1)] in log mode. *)
Theorem nan_sample_disables_normalisation :
  forall (self : ImageDisplayEngine) (lo hi : float) (data : ndarray),
    vmin self = Some lo -> vmax self = Some hi ->
    normalizes_by_own_range (scaling_mode self) = true ->
    In NaN (flat data) ->
    _apply_scaling_to_channel self data
    = Ok {| dtype := float_result (dtype data);
            shape := shape data;
            flat := map (own_range_transform (scaling_mode self) lo hi)
                        (flat data) |} /\
    (forall l h x, l <= h ->
       own_range_transform "sqrt" (Fin l) (Fin h) (Fin x)
       = Fin (sqrt_transform l (clipR l h x)) /\
       own_range_transform "log" (Fin l) (Fin h) (Fin x)
       = Fin (log_transform l (clipR l h x)) /\
       own_range_transform "asinh" (Fin l) (Fin h) (Fin x)
       = Fin (arcsinh (clipR l h x))).
Proof.
  intros self lo hi data Hmin Hmax Hmode Hnan. split.
  - rewrite (own_range_unfold self data lo hi Hmin Hmax Hmode).
    rewrite normalize_with_nan; [reflexivity|].
    apply in_map_iff. exists NaN. split; [|exact Hnan].
    apply own_range_transform_nan.
  - intros l h x Hlh. repeat split.
    + apply fsqrt_shifted.
    + apply flog10_shifted, Hlh.
Qed.

Lemma nan_sample_disables_normalisation_witness :
  _apply_scaling_to_channel sqrt_engine image_with_nan
  = Ok {| dtype := float32;
          shape := [1; 3]%nat;
          flat := map (own_range_transform "sqrt" (Fin 0) (Fin 100))
                      [Fin 0; NaN; Fin 100] |}.
Proof.
  apply (nan_sample_disables_normalisation sqrt_engine (Fin 0) (Fin 100)
           image_with_nan).
  - reflexivity.
  - reflexivity.
  - reflexivity.
  - right; left; reflexivity.
Defined.

(** X9.  On an array without elements, linear scaling returns the empty
    array, while the log, sqrt and asinh modes raise [ValueError] (the
    minimum of an empty array); [set_data] with an empty two-dimensional
    array in one of these modes raises it after having stored the array
    and the limits (0, 1). *)
Theorem scaling_of_empty_array :
  forall (self : ImageDisplayEngine) (data : ndarray),
    flat data = [] ->
    (forall lo hi,
        vmin self = Some lo -> vmax self = Some hi ->
        normalizes_by_own_range (scaling_mode self) = true ->
        _apply_scaling_to_channel self data = Raise ValueError) /\
    (forall lo hi,
        vmin self = Some lo -> vmax self = Some hi ->
        normalizes_by_own_range (scaling_mode self) = false ->
        _apply_scaling_to_channel self data
        = Ok {| dtype := float_result (dtype data);
                shape := shape data;
                flat := [] |}) /\
    (ndim data = 2%nat ->
     normalizes_by_own_range (scaling_mode self) = true ->
     set_data (Some data) self
     = (Raise ValueError,
        with_vmax (Some (Fin 1))
          (with_vmin (Some (Fin 0)) (with_current_data (Some data) self)))).
Proof.
  intros self data Hempty. split; [|split].
  - intros lo hi Hmin Hmax Hmode.
    rewrite (own_range_unfold self data lo hi Hmin Hmax Hmode), Hempty.
    reflexivity.
  - intros lo hi Hmin Hmax Hmode.
    rewrite not_own_range_is_linear by assumption.
    rewrite Hmin, Hmax, Hempty. cbn [np_clip_bounds operand rbind map].
    destruct (flt hi lo); destruct (flt lo hi); reflexivity.
  - intros Hrank Hmode.
    unfold set_data, bind, modify, reading. cbn [fst snd].
    unfold auto_scale. cbn [current_data with_current_data].
    rewrite Hempty. cbn [finite_values flat_map fst snd].
    set (e := with_vmax _ _).
    unfold update_display, bind, get, reading.
    assert (Hdata : current_data e = Some data) by reflexivity.
    rewrite Hdata.
    unfold _prepare_data_for_display. rewrite Hdata, Hrank.
    cbn [Nat.eqb].
    unfold _apply_scaling.
    assert (H3 : ((ndim data =? 3) && (nth 2 (shape data) 0 =? 3))%nat = false)
      by (rewrite Hrank; reflexivity).
    rewrite H3.
    rewrite (own_range_unfold e data (Fin 0) (Fin 1) eq_refl eq_refl Hmode).
    rewrite Hempty. reflexivity.
Qed.

Lemma scaling_of_empty_array_witness :
  set_data (Some empty_image) log_engine
  = (Raise ValueError,
     with_vmax (Some (Fin 1))
       (with_vmin (Some (Fin 0))
          (with_current_data (Some empty_image) log_engine))).
Proof.
  apply (scaling_of_empty_array log_engine empty_image); reflexivity.
Defined.

(** ** ImageDisplayEngine: the automatic limits and the data range *)






(* ------------------------------------------------------------------ *)
(** ** ImageDisplayEngine: [handle_multidimensional] *)

Lemma normalize_index_bound d i k :
  normalize_index d i = Ok k -> (k < d)%nat.
Proof.
  unfold normalize_index.
  destruct ((0 <=? i) && (i <? Z.of_nat d))%Z eqn:E1.
  - apply andb_true_iff in E1. destruct E1 as [H1 H2].
    apply Z.leb_le in H1. apply Z.ltb_lt in H2.
    intros [= <-]. lia.
  - destruct ((- Z.of_nat d <=? i) && (i <? 0))%Z eqn:E2; [|discriminate].
    apply andb_true_iff in E2. destruct E2 as [H1 H2].
    apply Z.leb_le in H1. apply Z.ltb_lt in H2.
    intros [= <-]. lia.
Qed.

Lemma normalize_index_nat d k :
  normalize_index d (Z.of_nat k)
  = if (k <? d)%nat then Ok k else Raise IndexError.
Proof.
  unfold normalize_index.
  destruct (Nat.ltb_spec k d) as [H|H].
  - replace ((0 <=? Z.of_nat k) && (Z.of_nat k <? Z.of_nat d))%Z with true.
    + rewrite Nat2Z.id. reflexivity.
    + symmetry. apply andb_true_iff. split;
        [apply Z.leb_le | apply Z.ltb_lt]; lia.
  - replace ((0 <=? Z.of_nat k) && (Z.of_nat k <? Z.of_nat d))%Z with false.
    + replace ((- Z.of_nat d <=? Z.of_nat k) && (Z.of_nat k <? 0))%Z
        with false; [reflexivity|].
      symmetry. apply andb_false_iff. right. apply Z.ltb_ge. lia.
    + symmetry. apply andb_false_iff. right. apply Z.ltb_ge. lia.
Qed.

Lemma normalize_index_from_end d k :
  (0 < k <= d)%nat ->
  normalize_index d (- Z.of_nat k) = Ok (d - k)%nat.
Proof.
  intros H. unfold normalize_index.
  replace ((0 <=? - Z.of_nat k) && (- Z.of_nat k <? Z.of_nat d))%Z with false.
  - replace ((- Z.of_nat d <=? - Z.of_nat k) && (- Z.of_nat k <? 0))%Z
      with true.
    + f_equal. lia.
    + symmetry. apply andb_true_iff. split;
        [apply Z.leb_le | apply Z.ltb_lt]; lia.
  - symmetry. apply andb_false_iff. left. apply Z.leb_gt. lia.
Qed.

Lemma getitem_nil a : getitem a [] = Ok a.
Proof. destruct a. reflexivity. Qed.

(** Integer subscripts first: they act as [index_tuple] does. *)
Lemma getitem_selects indices : forall a positions subs,
  selects (shape a) indices positions ->
  getitem a (map Index indices ++ subs)
  = (b <-? index_tuple a positions ; getitem b subs)%result.
Proof.
  induction indices as [|i indices IH]; intros a positions subs Hsel.
  - inversion Hsel; subst. reflexivity.
  - inversion Hsel as [|d dims i' indices' k positions' Hk Hrest Hs]; subst.
    pose proof (normalize_index_bound _ _ _ Hk) as Hlt.
    cbn [index_tuple]. unfold index_first. rewrite <- Hs.
    destruct (Nat.ltb_spec k d); [|lia]. cbn [rbind].
    rewrite <- IH by exact Hrest.
    unfold getitem. rewrite <- Hs.
    cbn [map app getitem_shape getitem_flat shape flat dtype].
    rewrite Hk. reflexivity.
Qed.

Lemma selects_leading dims indices positions :
  selects dims indices positions ->
  length positions = length indices /\
  (length indices <= length dims)%nat /\
  Forall2 lt positions (firstn (length indices) dims).
Proof.
  induction 1 as [dims|d dims i indices k positions Hk Hsel (IH1 & IH2 & IH3)].
  - repeat split; [simpl; lia | constructor].
  - cbn [length firstn]. repeat split; [lia | lia |].
    constructor; [|exact IH3]. eapply normalize_index_bound, Hk.
Qed.

Lemma block_length (xs : list float) d p k :
  length xs = (d * p)%nat -> (k < d)%nat ->
  length (firstn p (skipn (k * p) xs)) = p.
Proof.
  intros Hlen Hk. rewrite length_firstn, length_skipn, Hlen. nia.
Qed.

Lemma blocks_concat p : forall d (xs : list float),
  length xs = (d * p)%nat ->
  flat_map (fun k => firstn p (skipn (k * p) xs)) (seq 0 d) = xs.
Proof.
  induction d as [|d IH]; intros xs Hlen.
  - destruct xs; [reflexivity | discriminate].
  - change (seq 0 (S d)) with (0%nat :: seq 1 d).
    rewrite <- seq_shift. cbn [flat_map]. rewrite flat_map_concat_map, map_map.
    rewrite <- flat_map_concat_map.
    rewrite (flat_map_ext _ (fun k => firstn p (skipn (k * p) (skipn p xs)))).
    + rewrite IH.
      * cbn [Nat.mul skipn]. apply firstn_skipn.
      * rewrite length_skipn, Hlen. lia.
    + intros k. rewrite skipn_skipn. do 2 f_equal. lia.
Qed.

Lemma flat_map_ext_in {A B} (f g : A -> list B) l :
  (forall a, In a l -> f a = g a) -> flat_map f l = flat_map g l.
Proof.
  intros H. rewrite !flat_map_concat_map. f_equal. apply map_ext_in, H.
Qed.

(** Full slices change nothing. *)
Lemma getitem_shape_full_slices j : forall dims,
  (j <= length dims)%nat ->
  getitem_shape dims (repeat FullSlice j) = Ok dims.
Proof.
  induction j as [|j IH]; intros dims Hj; [reflexivity|].
  destruct dims as [|d dims]; [simpl in Hj; lia|].
  cbn [repeat getitem_shape]. rewrite IH by (simpl in Hj; lia). reflexivity.
Qed.

Lemma getitem_flat_full_slices j : forall dims (xs : list float),
  (j <= length dims)%nat -> length xs = prod dims ->
  getitem_flat dims xs (repeat FullSlice j) = xs.
Proof.
  induction j as [|j IH]; intros dims xs Hj Hlen; [reflexivity|].
  destruct dims as [|d dims]; [simpl in Hj; lia|].
  cbn [repeat getitem_flat].
  change (prod (d :: dims)) with (d * prod dims)%nat in Hlen.
  rewrite (flat_map_ext_in _
             (fun k => firstn (prod dims) (skipn (k * prod dims) xs))).
  - apply blocks_concat, Hlen.
  - intros k Hk. apply in_seq in Hk. apply IH; [simpl in Hj; lia|].
    apply block_length with (d := d); [exact Hlen | lia].
Qed.

Lemma getitem_full_slices a j :
  (j <= ndim a)%nat -> length (flat a) = size a ->
  getitem a (repeat FullSlice j) = Ok a.
Proof.
  intros Hj Hlen. unfold getitem.
  rewrite getitem_shape_full_slices by exact Hj. cbn [rbind].
  rewrite getitem_flat_full_slices by assumption.
  destruct a. reflexivity.
Qed.

Lemma index_first_well_formed a k b :
  length (flat a) = size a -> index_first a k = Ok b ->
  length (flat b) = size b.
Proof.
  unfold index_first, size. intros Hlen.
  destruct (shape a) as [|d dims] eqn:Hs; [discriminate|].
  destruct (Nat.ltb_spec k d); [|discriminate].
  intros [= <-]. cbn [flat shape].
  apply block_length with (d := d); [exact Hlen | assumption].
Qed.

Lemma index_tuple_well_formed positions : forall a b,
  length (flat a) = size a -> index_tuple a positions = Ok b ->
  length (flat b) = size b.
Proof.
  induction positions as [|k positions IH]; intros a b Hlen.
  - intros [= <-]. exact Hlen.
  - cbn [index_tuple].
    destruct (index_first a k) as [c|] eqn:E; [|discriminate].
    cbn [rbind]. apply IH. eapply index_first_well_formed; eassumption.
Qed.

(** The subscripts [handle_multidimensional] builds. *)
Lemma built_slices m leading : forall extra start,
  (start + length leading <= m)%nat ->
  extra = [] \/ m = (start + length leading)%nat ->
  map (fun p : nat * Z => let '(i, idx) := p in
                          if (i <? m)%nat then Index idx else FullSlice)
      (combine (seq start (length (leading ++ extra))) (leading ++ extra))
  = map Index leading ++ repeat FullSlice (length extra).
Proof.
  induction leading as [|i leading IH]; intros extra start Hle Hextra.
  - cbn [app length map]. cbn [length] in Hle, Hextra.
    destruct Hextra as [->|Hm]; [reflexivity|].
    assert (Hstart : (m <= start)%nat) by lia. clear Hle Hm.
    revert start Hstart.
    induction extra as [|x extra IHx]; intros start Hstart; [reflexivity|].
    cbn [length seq combine map repeat].
    destruct (Nat.ltb_spec start m); [lia|].
    f_equal. apply IHx. lia.
  - cbn [app length seq combine map]. cbn [length] in Hle, Hextra.
    destruct (Nat.ltb_spec start m); [|lia].
    f_equal. apply IH; [lia|].
    destruct Hextra as [->|Hm]; [left; reflexivity | right; lia].
Qed.

Lemma getitem_too_many subs : forall dims,
  (length dims < length subs)%nat ->
  getitem_shape dims subs = Raise IndexError.
Proof.
  induction subs as [|s subs IH]; intros dims H; [simpl in H; lia|].
  destruct dims as [|d dims]; [destruct s; reflexivity|].
  cbn [length] in H. destruct s as [i|]; cbn [getitem_shape].
  - destruct (normalize_index d i) as [k|e] eqn:E; cbn [rbind].
    + apply IH. lia.
    + unfold normalize_index in E.
      destruct (_ && _)%bool; [discriminate|].
      destruct (_ && _)%bool; [discriminate|]. congruence.
  - rewrite IH by lia. reflexivity.
Qed.

(** X11.  [handle_multidimensional]: an array of rank at most 2 is
    returned as it is, whatever the indices; for a higher rank [n], more
    than [n] indices raise [IndexError]; otherwise the first [n - 2]
    indices (fewer if fewer are given; negative ones count from the end)
    select a sub-array, every further entry of [slice_indices] is ignored,
    and the element at [idx] of the result is the element at
    [positions ++ idx] of the array.  With the indices [d // 2] of the
    leading axes this is the slice [_prepare_data_for_display] shows for
    an array of rank above 3, or of rank 3 whose first axis is not 3
    long. *)
Theorem handle_multidimensional_spec :
  forall (self : ImageDisplayEngine) (data : ndarray),
    (forall slice_indices,
        (ndim data <= 2)%nat ->
        handle_multidimensional self data slice_indices = Ok data) /\
    (forall slice_indices,
        (2 < ndim data)%nat ->
        (ndim data < length slice_indices)%nat ->
        handle_multidimensional self data slice_indices = Raise IndexError) /\
    (forall leading extra positions,
        (2 < ndim data)%nat ->
        length (flat data) = size data ->
        selects (shape data) leading positions ->
        (length leading <= ndim data - 2)%nat ->
        extra = [] \/ length leading = (ndim data - 2)%nat ->
        (length extra <= 2)%nat ->
        exists slice,
          handle_multidimensional self data (leading ++ extra) = Ok slice /\
          dtype slice = dtype data /\
          shape slice = skipn (length leading) (shape data) /\
          forall idx, item slice idx = item data (positions ++ idx)) /\
    ((3 < ndim data)%nat \/
     (ndim data = 3%nat /\ nth 0 (shape data) 0%nat <> 3%nat) ->
     _prepare_data_for_display (with_current_data (Some data) self)
     = (slice <-? handle_multidimensional self data
                    (map (fun d => Z.of_nat (d / 2))
                         (firstn (ndim data - 2) (shape data))) ;
        Ok (Some slice))%result).
Proof.
  intros self data. split; [|split; [|split]].
  - intros slice_indices Hrank. unfold handle_multidimensional.
    destruct (Nat.leb_spec (ndim data) 2); [reflexivity | lia].
  - intros slice_indices Hrank Hmany. unfold handle_multidimensional.
    destruct (Nat.leb_spec (ndim data) 2); [lia|].
    unfold getitem. rewrite getitem_too_many; [reflexivity|].
    rewrite length_map, length_combine, length_seq, Nat.min_id.
    exact Hmany.
  - intros leading extra positions Hrank Hlen Hsel Hlead Hextra Htwo.
    unfold handle_multidimensional.
    destruct (Nat.leb_spec (ndim data) 2); [lia|].
    rewrite (built_slices (ndim data - 2) leading extra 0)
      by (cbn [Nat.add];
          first [assumption
                | destruct Hextra; [left; assumption | right; lia]]).
    rewrite (getitem_selects leading data positions _ Hsel).
    destruct (selects_leading _ _ _ Hsel) as (Hpos & Hdims & Hlt).
    destruct (index_tuple_item positions data
                (firstn (length leading) (shape data))
                (skipn (length leading) (shape data)))
      as (b & Hb & Hdt & Hsb & Hitem).
    { symmetry. apply firstn_skipn. }
    { exact Hlt. }
    rewrite Hb. cbn [rbind].
    rewrite getitem_full_slices.
    + exists b. repeat split; assumption.
    + unfold ndim. rewrite Hsb, length_skipn. fold (ndim data).
      destruct Hextra as [->|Hfull]; [simpl; lia | lia].
    + eapply index_tuple_well_formed; eassumption.
  - intros Hrank.
    unfold handle_multidimensional.
    destruct (Nat.leb_spec (ndim data) 2); [lia|].
    set (middle := map (fun d => (d / 2)%nat)
                       (firstn (ndim data - 2) (shape data))).
    assert (Hmiddle : map (fun d => Z.of_nat (d / 2))
                          (firstn (ndim data - 2) (shape data))
                      = map Z.of_nat middle)
      by (unfold middle; rewrite map_map; reflexivity).
    rewrite Hmiddle.
    assert (Hget : forall positions a,
               getitem a
                 (map (fun p : nat * Z =>
                         let '(i, idx) := p in
                         if (i <? length positions)%nat
                         then Index idx else FullSlice)
                      (combine (seq 0 (length (map Z.of_nat positions)))
                               (map Z.of_nat positions)))
               = index_tuple a positions).
    { intros positions a.
      pose proof (built_slices (length positions) (map Z.of_nat positions)
                    [] 0) as Hb.
      rewrite app_nil_r in Hb. rewrite Hb; clear Hb;
        [|rewrite length_map; simpl; lia | left; reflexivity].
      cbn [length repeat]. rewrite app_nil_r. clear.
      revert a. induction positions as [|k positions IH]; intros a.
      - apply getitem_nil.
      - cbn [map index_tuple]. unfold index_first, getitem.
        destruct (shape a) as [|d dims] eqn:Hs; [reflexivity|].
        cbn [getitem_shape getitem_flat].
        rewrite normalize_index_nat.
        destruct (Nat.ltb_spec k d); [|reflexivity].
        cbn [rbind]. rewrite <- IH. reflexivity. }
    assert (Hlen : length middle = (ndim data - 2)%nat).
    { unfold middle. rewrite length_map, length_firstn. unfold ndim. lia. }
    rewrite <- Hlen. rewrite Hget.
    unfold _prepare_data_for_display.
    cbn [current_data with_current_data].
    destruct (Nat.eqb_spec (ndim data) 1); [lia|].
    destruct (Nat.eqb_spec (ndim data) 2); [lia|].
    assert (Hidx : map (fun i => (nth i (shape data) 0 / 2)%nat)
                       (seq 0 (ndim data - 2)) = middle).
    { unfold middle. rewrite <- firstn_as_nth by (unfold ndim; lia).
      rewrite map_map. reflexivity. }
    destruct (Nat.eqb_spec (ndim data) 3) as [H3|H3].
    + destruct Hrank as [Hrank|[_ Hfirst]]; [lia|].
      destruct (Nat.eqb_spec (nth 0 (shape data) 0%nat) 3); [contradiction|].
      rewrite <- Hidx, H3. cbn [Nat.sub seq map index_tuple].
      destruct (index_first data _); reflexivity.
    + rewrite Hidx. reflexivity.
Qed.

Lemma handle_multidimensional_spec_witness :
  exists slice,
    handle_multidimensional new_engine sample_hypercube ([1; -1; 7; 9])%Z
    = Ok slice /\
    dtype slice = float32 /\
    shape slice = [2; 2]%nat /\
    forall idx, item slice idx = item sample_hypercube ([1; 2] ++ idx)%nat.
Proof.
  destruct (handle_multidimensional_spec new_engine sample_hypercube)
    as (_ & _ & H & _).
  apply (H [1; -1]%Z [7; 9]%Z [1; 2]%nat).
  - unfold ndim. cbn [sample_hypercube shape length]. lia.
  - reflexivity.
  - repeat constructor.
  - unfold ndim. cbn [sample_hypercube shape length]. lia.
  - right. reflexivity.
  - cbn [length]. lia.
Defined.

(* ------------------------------------------------------------------ *)
(** ** HistogramWidget: the bars and the data range *)







(* ------------------------------------------------------------------ *)
(** ** MainWindow: flips and reset *)

Lemma prod_app l1 l2 : prod (l1 ++ l2) = (prod l1 * prod l2)%nat.
Proof.
  unfold prod. induction l1 as [|d l1 IH]; cbn [app fold_right].
  - lia.
  - rewrite IH. lia.
Qed.

(** Offset of a multi-index whose last entry addresses the last axis. *)
Lemma flat_index_last lead w j : forall pre,
  flat_index (lead ++ [w]) (pre ++ [j])
  = match flat_index lead pre with
    | Some base => if (j <? w)%nat then Some (base * w + j)%nat else None
    | None => None
    end.
Proof.
  induction lead as [|d lead IH]; intros pre.
  - destruct pre as [|i pre].
    + cbn [app flat_index prod fold_right].
      destruct (j <? w)%nat; [f_equal; lia | reflexivity].
    + cbn [app flat_index].
      destruct (i <? w)%nat; [|reflexivity].
      destruct pre; reflexivity.
  - destruct pre as [|i pre].
    + cbn [app flat_index].
      destruct (j <? d)%nat; [|reflexivity].
      destruct lead; reflexivity.
    + cbn [app flat_index]. rewrite IH.
      destruct (i <? d)%nat; [|reflexivity].
      destruct (flat_index lead pre) as [base|]; [|reflexivity].
      destruct (j <? w)%nat; [|reflexivity].
      f_equal. rewrite prod_app. cbn [prod fold_right]. lia.
Qed.

Lemma flat_index_last_two lead h w i j pre :
  flat_index (lead ++ [h; w]) (pre ++ [i; j])
  = match flat_index lead pre with
    | Some base =>
        if ((i <? h) && (j <? w))%nat
        then Some ((base * h + i) * w + j)%nat else None
    | None => None
    end.
Proof.
  change (lead ++ [h; w]) with (lead ++ [h] ++ [w]).
  change (pre ++ [i; j]) with (pre ++ [i] ++ [j]).
  rewrite !app_assoc, flat_index_last, flat_index_last.
  destruct (flat_index lead pre); [|reflexivity].
  destruct (i <? h)%nat; reflexivity.
Qed.

Lemma flip_last_item a lead w :
  shape a = lead ++ [w] -> length (flat a) = size a ->
  exists b, flip_last a = Ok b /\
            dtype b = dtype a /\
            shape b = shape a /\
            length (flat b) = size b /\
            forall pre j, (j < w)%nat ->
                          item b (pre ++ [j]) = item a (pre ++ [w - 1 - j]%nat).
Proof.
  intros Hs Hlen. unfold flip_last. rewrite Hs, rev_app_distr. cbn [rev app].
  eexists. split; [reflexivity|]. split; [reflexivity|].
  split; [cbn [shape]; congruence|].
  split.
  { unfold size, gather. cbn [flat shape]. rewrite length_map, length_seq.
    rewrite Hlen. unfold size. rewrite Hs. reflexivity. }
  intros pre j Hj. unfold item. cbn [shape flat]. rewrite Hs.
  rewrite !flat_index_last.
  destruct (flat_index lead pre) as [base|] eqn:E; [|reflexivity].
  destruct (Nat.ltb_spec j w); [|lia].
  destruct (Nat.ltb_spec (w - 1 - j) w); [|lia].
  pose proof (flat_index_bound _ _ _ E) as Hbase.
  assert (Hsize : length (flat a) = (prod lead * w)%nat).
  { rewrite Hlen. unfold size. rewrite Hs, prod_app.
    cbn [prod fold_right]. lia. }
  rewrite gather_nth_error by (rewrite Hsize; nia).
  assert (Hmod : ((base * w + j) mod w = j)%nat).
  { rewrite Nat.add_comm, Nat.Div0.mod_add. apply Nat.mod_small. lia. }
  rewrite Hmod.
  replace (base * w + j - j + (w - 1 - j))%nat
    with (base * w + (w - 1 - j))%nat by lia.
  symmetry. apply nth_error_nth'. rewrite Hsize. nia.
Qed.

Lemma flip_second_last_item a lead h w :
  shape a = lead ++ [h; w] -> length (flat a) = size a ->
  exists b, flip_second_last a = Ok b /\
            dtype b = dtype a /\
            shape b = shape a /\
            length (flat b) = size b /\
            forall pre i j, (i < h)%nat -> (j < w)%nat ->
                            item b (pre ++ [i; j])
                            = item a (pre ++ [(h - 1 - i)%nat; j]).
Proof.
  intros Hs Hlen. unfold flip_second_last. rewrite Hs, rev_app_distr.
  cbn [rev app].
  eexists. split; [reflexivity|]. split; [reflexivity|].
  split; [cbn [shape]; congruence|].
  split.
  { unfold size, gather. cbn [flat shape]. rewrite length_map, length_seq.
    rewrite Hlen. unfold size. rewrite Hs. reflexivity. }
  intros pre i j Hi Hj. unfold item. cbn [shape flat]. rewrite Hs.
  rewrite !flat_index_last_two.
  destruct (flat_index lead pre) as [base|] eqn:E; [|reflexivity].
  destruct (Nat.ltb_spec i h); [|lia].
  destruct (Nat.ltb_spec j w); [|lia].
  destruct (Nat.ltb_spec (h - 1 - i) h); [|lia].
  cbn [andb].
  pose proof (flat_index_bound _ _ _ E) as Hbase.
  assert (Hsize : length (flat a) = (prod lead * (h * w))%nat).
  { rewrite Hlen. unfold size. rewrite Hs, prod_app.
    cbn [prod fold_right]. lia. }
  assert (Hk : ((base * h + i) * w + j = base * (h * w) + (i * w + j))%nat)
    by lia.
  assert (Hin : (i * w + j < h * w)%nat) by nia.
  rewrite gather_nth_error by (rewrite Hsize; nia).
  assert (Hmod : (((base * h + i) * w + j) mod (h * w) = i * w + j)%nat).
  { rewrite Hk, Nat.add_comm, Nat.Div0.mod_add. apply Nat.mod_small, Hin. }
  assert (Hmodw : (((base * h + i) * w + j) mod w = j)%nat).
  { rewrite Nat.add_comm, Nat.Div0.mod_add. apply Nat.mod_small. lia. }
  assert (Hdiv : ((i * w + j) / w = i)%nat).
  { rewrite Nat.add_comm, Nat.div_add by lia.
    rewrite Nat.div_small by lia. reflexivity. }
  rewrite Hmod, Hmodw, Hdiv.
  replace ((base * h + i) * w + j - (i * w + j) + (h - 1 - i) * w + j)%nat
    with ((base * h + (h - 1 - i)) * w + j)%nat by nia.
  symmetry. apply nth_error_nth'. rewrite Hsize. nia.
Qed.

Section PipelineFlips.

Context {lib : Library}.

Lemma flipped_item w r lead h wd :
  shape r = lead ++ [h; wd] -> length (flat r) = size r ->
  exists d, flipped w r = Ok d /\
            dtype d = dtype r /\
            shape d = shape r /\
            forall pre i j, (i < h)%nat -> (j < wd)%nat ->
              item d (pre ++ [i; j])
              = item r (pre ++ [mirrored (flip_vertical w) h i;
                                 mirrored (flip_horizontal w) wd j]).
Proof.
  intros Hs Hlen. unfold flipped, mirrored.
  assert (Hs' : shape r = (lead ++ [h]) ++ [wd])
    by (rewrite Hs, <- app_assoc; reflexivity).
  destruct (flip_horizontal w).
  - destruct (flip_last_item r _ _ Hs' Hlen)
      as (b & Hb & Hdt & Hsb & Hlb & Hitem).
    rewrite Hb. cbn [rbind].
    assert (Hitem' : forall pre i j, (j < wd)%nat ->
               item b (pre ++ [i; j]) = item r (pre ++ [i; (wd - 1 - j)%nat])).
    { intros pre i j Hj.
      change (pre ++ [i; j]) with (pre ++ [i] ++ [j]).
      change (pre ++ [i; (wd - 1 - j)%nat])
        with (pre ++ [i] ++ [(wd - 1 - j)%nat]).
      rewrite !app_assoc. apply Hitem, Hj. }
    destruct (flip_vertical w).
    + destruct (flip_second_last_item b lead h wd)
        as (d & Hd & Hdt2 & Hsd & _ & Hitem2); [congruence | exact Hlb |].
      exists d. split; [exact Hd|]. split; [congruence|]. split; [congruence|].
      intros pre i j Hi Hj. rewrite Hitem2, Hitem' by assumption. reflexivity.
    + exists b. split; [reflexivity|]. split; [exact Hdt|]. split; [exact Hsb|].
      intros pre i j Hi Hj. apply Hitem', Hj.
  - cbn [rbind]. destruct (flip_vertical w).
    + destruct (flip_second_last_item r lead h wd Hs Hlen)
        as (d & Hd & Hdt2 & Hsd & _ & Hitem2).
      exists d. split; [exact Hd|]. split; [exact Hdt2|]. split; [exact Hsd|].
      exact Hitem2.
    + exists r. repeat split.
Qed.

(** X13.  What the flips show.  Let [r] be the canonical array after the
    rotation step (the canonical array itself when the angle is 0), of
    shape [(..., h, w)].  [apply_transformations] puts on display an
    array of the same shape and element type whose element at
    [(..., i, j)] is the element of [r] at [(..., i', j')], where [i'] is
    [h - 1 - i] when the vertical flip is on and [i] otherwise, and [j']
    is [w - 1 - j] when the horizontal flip is on and [j] otherwise. *)
Theorem flips_mirror_last_two_axes :
  forall (w : MainWindow) (c r : ndarray) (lead : list nat) (h wd : nat),
    current_data (image_engine w) <> None ->
    canonical w = Ok (Some c) ->
    rotated w c = Ok r ->
    shape r = lead ++ [h; wd] ->
    length (flat r) = size r ->
    (rotation_angle w = 0%Z -> r = c) /\
    exists d,
      current_data (image_engine (snd (apply_transformations w))) = Some d /\
      dtype d = dtype r /\
      shape d = shape r /\
      forall pre i j, (i < h)%nat -> (j < wd)%nat ->
        item d (pre ++ [i; j])
        = item r (pre ++ [mirrored (flip_vertical w) h i;
                           mirrored (flip_horizontal w) wd j]).
Proof.
  intros w c r lead h wd Hcur Hcan Hrot Hs Hlen. split.
  - intros Hzero. unfold rotated in Hrot. rewrite Hzero in Hrot.
    cbn [Z.eqb] in Hrot. congruence.
  - destruct (flipped_item w r lead h wd Hs Hlen)
      as (d & Hd & Hdt & Hsd & Hitem).
    exists d. split; [|split; [exact Hdt | split; [exact Hsd | exact Hitem]]].
    apply (apply_transformations_shows w c d Hcur Hcan).
    unfold transformed. rewrite Hrot. exact Hd.
Qed.

Lemma run_command_shows cmd w c :
  current_data (image_engine w) <> None ->
  canonical w = Ok (Some c) ->
  let w' := snd (run_command cmd w) in
  current_data (image_engine w') <> None /\
  canonical w' = Ok (Some c) /\
  rotation_angle w' = rotation_angle (prepared cmd w) /\
  flip_horizontal w' = flip_horizontal (prepared cmd w) /\
  flip_vertical w' = flip_vertical (prepared cmd w) /\
  forall d, transformed (prepared cmd w) c = Ok d ->
            current_data (image_engine w') = Some d.
Proof.
  intros Hcur Hcan. cbv zeta.
  destruct (run_command_canonical cmd w c Hcan) as (Hcan' & _ & _).
  destruct (prepared_frame cmd w) as (Hf1 & Hf2 & Hf3 & Hf4).
  assert (Hpcur : current_data (image_engine (prepared cmd w)) <> None)
    by (rewrite Hf4; exact Hcur).
  assert (Hpcan : canonical (prepared cmd w) = Ok (Some c))
    by (rewrite (canonical_ext w (prepared cmd w)); assumption).
  pose proof (apply_transformations_frame (prepared cmd w)) as Hframe.
  pose proof (apply_transformations_keeps_image (prepared cmd w) Hpcur) as Hkeep.
  pose proof (fun d => apply_transformations_shows (prepared cmd w) c d
                         Hpcur Hpcan) as Hshow.
  cbv zeta in Hframe. destruct Hframe as (_ & _ & Ha & Hh & Hv).
  split; [|split; [exact Hcan'|]]; clear Hcan';
    rewrite run_command_unfold;
    (destruct (current_data (image_engine w)) eqn:E; [|congruence]);
    destruct (apply_transformations (prepared cmd w)) as [[[]|e] w2];
    cbn [snd with_status_bar rotation_angle flip_horizontal flip_vertical
         image_engine] in *;
    repeat split; assumption.
Qed.

(** X14.  Flipping twice along the same axis restores the flip state, and
    the two flips commute: after [flip_horizontal_image] twice (or
    [flip_vertical_image] twice) the window shows what the pipeline
    derives from the canonical array with the original flags, and
    horizontal-then-vertical shows the same array as
    vertical-then-horizontal. *)
Theorem flips_cancel_and_commute :
  forall (w : MainWindow) (c : ndarray),
    current_data (image_engine w) <> None ->
    canonical w = Ok (Some c) ->
    (forall cmd, cmd = FlipHorizontal \/ cmd = FlipVertical ->
       let w2 := run_commands [cmd; cmd] w in
       flip_horizontal w2 = flip_horizontal w /\
       flip_vertical w2 = flip_vertical w /\
       rotation_angle w2 = rotation_angle w /\
       forall d, transformed w c = Ok d ->
                 current_data (image_engine w2) = Some d) /\
    (let hv := run_commands [FlipHorizontal; FlipVertical] w in
     let vh := run_commands [FlipVertical; FlipHorizontal] w in
     flip_horizontal hv = negb (flip_horizontal w) /\
     flip_vertical hv = negb (flip_vertical w) /\
     flip_horizontal vh = flip_horizontal hv /\
     flip_vertical vh = flip_vertical hv /\
     forall d, transformed hv c = Ok d ->
               current_data (image_engine hv) = Some d /\
               current_data (image_engine vh) = Some d).
Proof.
  intros w c Hcur Hcan.
  assert (Htwo : forall c1 c2,
            let w1 := snd (run_command c1 w) in
            let w2 := snd (run_command c2 w1) in
            rotation_angle w2 = rotation_angle (prepared c2 (prepared c1 w)) /\
            flip_horizontal w2 = flip_horizontal (prepared c2 (prepared c1 w)) /\
            flip_vertical w2 = flip_vertical (prepared c2 (prepared c1 w)) /\
            forall d, transformed w2 c = Ok d ->
                      current_data (image_engine w2) = Some d).
  { intros c1 c2 w1 w2.
    destruct (run_command_shows c1 w c Hcur Hcan)
      as (Hcur1 & Hcan1 & Ha1 & Hh1 & Hv1 & _).
    fold w1 in Hcur1, Hcan1, Ha1, Hh1, Hv1.
    destruct (run_command_shows c2 w1 c Hcur1 Hcan1)
      as (_ & _ & Ha2 & Hh2 & Hv2 & Hshow).
    fold w2 in Ha2, Hh2, Hv2, Hshow.
    assert (Ha : rotation_angle w2 = rotation_angle (prepared c2 (prepared c1 w)))
      by (rewrite Ha2; destruct c2; cbn; congruence).
    assert (Hh : flip_horizontal w2
                 = flip_horizontal (prepared c2 (prepared c1 w)))
      by (rewrite Hh2; destruct c2; cbn; congruence).
    assert (Hv : flip_vertical w2 = flip_vertical (prepared c2 (prepared c1 w)))
      by (rewrite Hv2; destruct c2; cbn; congruence).
    repeat split; try assumption.
    intros d Hd. apply Hshow.
    rewrite <- Hd. apply transformed_ext; congruence. }
  split.
  - intros cmd Hcmd w2.
    destruct (Htwo cmd cmd) as (Ha & Hh & Hv & Hshow).
    change (snd (run_command cmd (snd (run_command cmd w)))) with w2
      in Ha, Hh, Hv, Hshow.
    assert (Ha' : rotation_angle w2 = rotation_angle w)
      by (rewrite Ha; destruct Hcmd; subst cmd; reflexivity).
    assert (Hh' : flip_horizontal w2 = flip_horizontal w)
      by (rewrite Hh; destruct Hcmd; subst cmd; cbn;
          [apply negb_involutive | reflexivity]).
    assert (Hv' : flip_vertical w2 = flip_vertical w)
      by (rewrite Hv; destruct Hcmd; subst cmd; cbn;
          [reflexivity | apply negb_involutive]).
    repeat split; try assumption.
    intros d Hd. apply Hshow. rewrite <- Hd.
    apply transformed_ext; assumption.
  - intros hv vh.
    destruct (Htwo FlipHorizontal FlipVertical) as (Ha & Hh & Hv & Hshow).
    destruct (Htwo FlipVertical FlipHorizontal) as (Ha2 & Hh2 & Hv2 & Hshow2).
    change (snd (run_command FlipVertical (snd (run_command FlipHorizontal w))))
      with hv in Ha, Hh, Hv, Hshow.
    change (snd (run_command FlipHorizontal (snd (run_command FlipVertical w))))
      with vh in Ha2, Hh2, Hv2, Hshow2.
    cbn [prepared with_flip_horizontal with_flip_vertical rotation_angle
         flip_horizontal flip_vertical] in Ha, Hh, Hv, Ha2, Hh2, Hv2.
    split; [congruence|]. split; [congruence|].
    split; [congruence|]. split; [congruence|].
    intros d Hd. split.
    + apply Hshow, Hd.
    + apply Hshow2. rewrite <- Hd. apply transformed_ext; congruence.
Qed.

Lemma reset_transformations_unfold w :
  reset_transformations w =
  match current_data (image_engine w) with
  | None => (Ok tt, w)
  | Some _ =>
      match apply_transformations
              (with_original_data None
                 (with_flip_vertical false
                    (with_flip_horizontal false (with_rotation_angle 0 w))))
      with
      | (Ok _, w') => (Ok tt, with_status_bar TransformationsReset w')
      | (Raise e, w') => (Raise e, w')
      end
  end.
Proof.
  unfold reset_transformations, bind, get, modify, ret.
  destruct (current_data (image_engine w)); [|reflexivity].
  cbn [fst snd].
  destruct (apply_transformations _) as [[[]|e] w']; reflexivity.
Qed.

(** X15.  [reset_transformations] on a window that shows an image sets
    the angle to 0 and both flips off, forgets the stored original and
    reads the array of the current HDU from the file manager again: that
    array is stored as the new original and put on display untransformed,
    whatever was stored or displayed before.  When the file manager has
    no array for the HDU, the engine is left as it was. *)
Theorem reset_shows_file_data :
  forall w : MainWindow,
    current_data (image_engine w) <> None ->
    let w' := snd (reset_transformations w) in
    rotation_angle w' = 0%Z /\
    flip_horizontal w' = false /\
    flip_vertical w' = false /\
    (forall data,
        FITSFileManager.get_data (fits_manager w) (current_hdu_index w)
        = Ok (Some data) ->
        original_data w' = Some data /\
        current_data (image_engine w') = Some data /\
        (fst (reset_transformations w) = Ok tt ->
         status_bar w' = TransformationsReset)) /\
    (FITSFileManager.get_data (fits_manager w) (current_hdu_index w) = Ok None ->
     original_data w' = None /\ image_engine w' = image_engine w).
Proof.
  intros w Hcur. cbv zeta.
  set (w0 := with_original_data None
               (with_flip_vertical false
                  (with_flip_horizontal false (with_rotation_angle 0 w)))).
  assert (Hcur0 : current_data (image_engine w0) <> None) by exact Hcur.
  assert (Hcan0 : canonical w0
                  = FITSFileManager.get_data (fits_manager w)
                                             (current_hdu_index w))
    by reflexivity.
  pose proof (apply_transformations_frame w0) as Hframe.
  cbv zeta in Hframe. destruct Hframe as (_ & _ & Ha & Hh & Hv).
  rewrite reset_transformations_unfold.
  destruct (current_data (image_engine w)) eqn:E; [|congruence].
  fold w0.
  split; [|split; [|split; [|split]]].
  - destruct (apply_transformations w0) as [[[]|e] w2]; exact Ha.
  - destruct (apply_transformations w0) as [[[]|e] w2]; exact Hh.
  - destruct (apply_transformations w0) as [[[]|e] w2]; exact Hv.
  - intros data Hdata. rewrite Hdata in Hcan0.
    destruct (apply_transformations_original w0 data Hcan0) as [_ Horig].
    specialize (Horig Hcur0).
    assert (Htr : transformed w0 data = Ok data) by reflexivity.
    pose proof (apply_transformations_shows w0 data data Hcur0 Hcan0 Htr)
      as Hshow.
    destruct (apply_transformations w0) as [[[]|e] w2];
      cbn [fst snd] in *; repeat split; try assumption.
    discriminate.
  - intros Hnone. rewrite Hnone in Hcan0.
    rewrite (apply_transformations_unfold w0 Hcur0), Hcan0.
    cbn [snd]. split; reflexivity.
Qed.

End PipelineFlips.

Lemma flips_mirror_last_two_axes_witness :
  exists d,
    current_data
      (image_engine
         (snd (apply_transformations (lib := example_library)
                 (with_flip_horizontal true loaded_window)))) = Some d /\
    dtype d = dtype sample_image /\
    shape d = shape sample_image /\
    forall pre i j, (i < 2)%nat -> (j < 2)%nat ->
      item d (pre ++ [i; j])
      = item sample_image (pre ++ [mirrored false 2 i; mirrored true 2 j]).
Proof.
  apply (flips_mirror_last_two_axes (lib := example_library)
           (with_flip_horizontal true loaded_window)
           sample_image sample_image [] 2 2).
  - discriminate.
  - reflexivity.
  - reflexivity.
  - reflexivity.
  - reflexivity.
Defined.

Lemma flips_cancel_and_commute_witness :
  flip_horizontal
    (run_commands (lib := example_library)
       [FlipHorizontal; FlipHorizontal] loaded_window) = false /\
  flip_vertical
    (run_commands (lib := example_library)
       [FlipHorizontal; FlipHorizontal] loaded_window) = false /\
  rotation_angle
    (run_commands (lib := example_library)
       [FlipHorizontal; FlipHorizontal] loaded_window) = 0%Z /\
  forall d, transformed (lib := example_library) loaded_window sample_image
            = Ok d ->
            current_data
              (image_engine
                 (run_commands (lib := example_library)
                    [FlipHorizontal; FlipHorizontal] loaded_window)) = Some d.
Proof.
  destruct (flips_cancel_and_commute (lib := example_library)
              loaded_window sample_image) as [H _].
  - discriminate.
  - reflexivity.
  - apply (H FlipHorizontal). left. reflexivity.
Defined.

Lemma reset_shows_file_data_witness :
  rotation_angle
    (snd (reset_transformations (lib := example_library) turned_window)) = 0%Z.
Proof.
  apply (reset_shows_file_data (lib := example_library) turned_window).
  discriminate.
Defined.

(* ------------------------------------------------------------------ *)
(** ** HeaderMetadataDialog: [format_header_text] *)

Lemma rstrip_empty_iff s : rstrip s = EmptyString <-> all_space s = true.
Proof.
  induction s as [|c s IH]; cbn [rstrip all_space]; [tauto|].
  destruct (rstrip s) eqn:E.
  - destruct (isspace c); cbn [andb].
    + split; [intros _; apply IH; reflexivity | reflexivity].
    + split; discriminate.
  - split; [discriminate|]. intros H. apply andb_true_iff in H.
    destruct H as [_ H]. apply IH in H. discriminate.
Qed.

Lemma lstrip_empty_iff s : lstrip s = EmptyString <-> all_space s = true.
Proof.
  induction s as [|c s IH]; cbn [lstrip all_space]; [tauto|].
  destruct (isspace c); cbn [andb]; [exact IH|].
  split; discriminate.
Qed.

Lemma all_space_rstrip s : all_space (rstrip s) = all_space s.
Proof.
  induction s as [|c s IH]; cbn [rstrip all_space]; [reflexivity|].
  destruct (rstrip s) eqn:E.
  - assert (Hs : all_space s = true) by (apply rstrip_empty_iff, E).
    rewrite Hs, andb_true_r.
    destruct (isspace c) eqn:Ec; cbn [all_space]; [reflexivity|].
    rewrite Ec. reflexivity.
  - cbn [all_space] in *. rewrite IH. reflexivity.
Qed.

(** The test [if card.strip()] on a right-stripped card. *)
Lemma strip_rstrip_test s :
  negb (strip (rstrip s) =? "")%string = negb (rstrip s =? "")%string.
Proof.
  f_equal. unfold strip.
  destruct (String.eqb_spec (rstrip s) "") as [E|NE].
  - rewrite E. reflexivity.
  - destruct (String.eqb_spec (lstrip (rstrip (rstrip s))) "") as [E'|NE'];
      [|reflexivity].
    exfalso. apply NE.
    apply lstrip_empty_iff in E'. rewrite !all_space_rstrip in E'.
    apply rstrip_empty_iff, E'.
Qed.

Lemma rstrip_app s t :
  rstrip (s ++ t)
  = match rstrip t with
    | EmptyString => rstrip s
    | r => (s ++ r)%string
    end.
Proof.
  induction s as [|c s IH]; cbn [append rstrip].
  - destruct (rstrip t); reflexivity.
  - rewrite IH. destruct (rstrip t) eqn:E; [reflexivity|].
    destruct s; reflexivity.
Qed.

Lemma rstrip_spaces n : rstrip (spaces n) = EmptyString.
Proof.
  induction n as [|n IH]; cbn [spaces rstrip]; [reflexivity|].
  rewrite IH. reflexivity.
Qed.

Lemma length_spaces n : String.length (spaces n) = n.
Proof. induction n as [|n IH]; cbn; congruence. Qed.

Lemma string_length_app s t :
  String.length (s ++ t) = (String.length s + String.length t)%nat.
Proof. induction s as [|c s IH]; cbn; congruence. Qed.

Lemma pad_card_length card :
  (String.length card <= 80)%nat -> String.length (pad_card card) = 80%nat.
Proof.
  intros H. unfold pad_card. rewrite string_length_app, length_spaces. lia.
Qed.

Lemma rstrip_pad_card card : rstrip (pad_card card) = rstrip card.
Proof. unfold pad_card. rewrite rstrip_app, rstrip_spaces. reflexivity. Qed.

Lemma substring_all n : forall s,
  (String.length s <= n)%nat -> substring 0 n s = s.
Proof.
  induction n as [|n IH]; intros s H.
  - destruct s; [reflexivity | cbn in H; lia].
  - destruct s as [|c s]; [reflexivity|].
    cbn [substring]. f_equal. apply IH. cbn in H. lia.
Qed.

Lemma substring_head block : forall rest,
  substring 0 (String.length block) (block ++ rest) = block.
Proof.
  induction block as [|c block IH]; intros rest.
  - destruct rest; reflexivity.
  - cbn [String.length append substring]. f_equal. apply IH.
Qed.

Lemma substring_skip block : forall i n rest,
  substring (String.length block + i) n (block ++ rest) = substring i n rest.
Proof.
  induction block as [|c block IH]; intros i n rest; [reflexivity|].
  cbn [String.length append Nat.add substring]. apply IH.
Qed.

Lemma range_from_zero_step len step :
  (0 < step)%nat ->
  range_from_zero (step + len) step
  = 0%nat :: map (fun i => step + i)%nat (range_from_zero len step).
Proof.
  intros Hs. unfold range_from_zero.
  replace ((step + len + step - 1) / step)%nat
    with (S ((len + step - 1) / step)).
  - cbn [seq map]. f_equal. rewrite <- seq_shift, !map_map.
    apply map_ext. intros k. lia.
  - replace (step + len + step - 1)%nat with (1 * step + (len + step - 1))%nat
      by lia.
    rewrite Nat.div_add_l by lia. reflexivity.
Qed.

Lemma range_from_zero_short len step :
  (0 < len <= step)%nat -> range_from_zero len step = [0%nat].
Proof.
  intros H. unfold range_from_zero.
  replace ((len + step - 1) / step)%nat with 1%nat; [reflexivity|].
  apply Nat.div_unique with (r := (len - 1)%nat); lia.
Qed.

Lemma range_from_zero_empty step :
  (0 < step)%nat -> range_from_zero 0 step = [].
Proof.
  intros H. unfold range_from_zero.
  rewrite Nat.div_small by lia. reflexivity.
Qed.

(** The cards the loop collects, block by block. *)
Lemma cards_of_blocks (keep : string -> list string) blocks : forall tail,
  Forall (fun b => String.length b = 80%nat) blocks ->
  (String.length tail <= 80)%nat ->
  keep EmptyString = [] ->
  flat_map (fun i => keep (substring i 80 (String.concat "" blocks ++ tail)))
           (range_from_zero
              (String.length (String.concat "" blocks ++ tail)) 80)
  = flat_map keep (blocks ++ [tail]).
Proof.
  induction blocks as [|b blocks IH]; intros tail Hall Htail Hkeep.
  - cbn [String.concat append app flat_map].
    rewrite app_nil_r.
    destruct (Nat.eq_dec (String.length tail) 0) as [E|NE].
    + rewrite E, range_from_zero_empty by lia.
      destruct tail; [|discriminate]. cbn [flat_map]. now rewrite Hkeep.
    + rewrite range_from_zero_short by lia. cbn [flat_map].
      rewrite app_nil_r, substring_all by exact Htail. reflexivity.
  - inversion Hall as [|b' blocks' Hb Hrest]; subst.
    assert (Hcat : (String.concat "" (b :: blocks) ++ tail)%string
                   = (b ++ (String.concat "" blocks ++ tail))%string).
    { destruct blocks as [|b2 blocks].
      - cbn [String.concat]. destruct tail; reflexivity.
      - change (String.concat "" (b :: b2 :: blocks))
          with (b ++ "" ++ String.concat "" (b2 :: blocks))%string.
        cbn [append]. clear. induction b as [|c b IHb]; cbn [append];
          [reflexivity | f_equal; exact IHb]. }
    rewrite Hcat, string_length_app, Hb.
    rewrite range_from_zero_step by lia.
    cbn [flat_map app]. rewrite <- Hb at 1. rewrite substring_head.
    f_equal. rewrite flat_map_concat_map, map_map, <- flat_map_concat_map.
    rewrite <- (IH tail Hrest Htail Hkeep).
    apply flat_map_ext. intros i. rewrite <- Hb at 1.
    rewrite substring_skip. reflexivity.
Qed.

(** X16.  [format_header_text] on a header made of 80-character blocks
    (the last one may be shorter) returns the blocks without their
    trailing white space, one per line, leaving out the blocks that hold
    white space only.  In particular a header written as cards padded
    with spaces to 80 characters is shown as these cards joined by
    newlines: padding the cards and formatting the result gives the cards
    back. *)
Theorem format_header_text_cards :
  (forall (blocks : list string) (tail : string),
      Forall (fun b => String.length b = 80%nat) blocks ->
      (String.length tail <= 80)%nat ->
      HeaderMetadataDialog.format_header_text
        (String.concat "" blocks ++ tail)
      = String.concat newline
          (filter (fun card => negb (card =? "")%string)
                  (map rstrip (blocks ++ [tail])))) /\
  (forall cards : list string,
      Forall shown_card cards ->
      HeaderMetadataDialog.format_header_text
        (String.concat "" (map pad_card cards))
      = String.concat newline cards).
Proof.
  assert (Hblocks : forall blocks tail,
      Forall (fun b => String.length b = 80%nat) blocks ->
      (String.length tail <= 80)%nat ->
      HeaderMetadataDialog.format_header_text
        (String.concat "" blocks ++ tail)
      = String.concat newline
          (filter (fun card => negb (card =? "")%string)
                  (map rstrip (blocks ++ [tail])))).
  { intros blocks tail Hall Htail.
    unfold HeaderMetadataDialog.format_header_text. fold newline. f_equal.
    rewrite (cards_of_blocks
               (fun block => if negb (strip (rstrip block) =? "")%string
                             then [rstrip block] else [])
               blocks tail Hall Htail eq_refl).
    generalize (blocks ++ [tail]). intros l.
    induction l as [|b l IH]; [reflexivity|].
    cbn [flat_map map filter]. rewrite IH, strip_rstrip_test.
    destruct (negb (rstrip b =? "")%string); reflexivity. }
  split; [exact Hblocks|].
  intros cards Hcards.
  assert (Hpad : Forall (fun b => String.length b = 80%nat) (map pad_card cards)).
  { rewrite Forall_forall in *. intros b Hb. apply in_map_iff in Hb.
    destruct Hb as (c & <- & Hc). apply pad_card_length.
    apply (Hcards c Hc). }
  pose proof (Hblocks (map pad_card cards) EmptyString Hpad) as H.
  assert (Hnil : forall s, (s ++ "")%string = s)
    by (induction s as [|c s IHs]; cbn [append]; congruence).
  rewrite Hnil in H. rewrite H by (cbn; lia). f_equal.
  rewrite map_app, filter_app. cbn [map rstrip filter String.eqb negb].
  rewrite app_nil_r, map_map.
  clear - Hcards.
  induction Hcards as [|c cards (Hne & Hlen & Hr) _ IH]; [reflexivity|].
  cbn [map filter]. rewrite rstrip_pad_card, Hr.
  destruct (String.eqb_spec c "") as [E|_]; [contradiction|].
  cbn [negb]. f_equal. exact IH.
Qed.

Lemma format_header_text_cards_witness :
  HeaderMetadataDialog.format_header_text
    (String.concat ""
       (map pad_card ["SIMPLE  =                    T"; "END"]%string))
  = String.concat newline ["SIMPLE  =                    T"; "END"]%string.
Proof.
  apply format_header_text_cards.
  repeat constructor; try discriminate; cbn; lia.
Defined.

(* ------------------------------------------------------------------ *)
(** ** MainWindow: the zoom commands *)

Section ZoomProperties.

Context {tb : Toolbar}.

Lemma covers_spec xl yl mx my :
  covers xl yl mx my = true <->
  fst xl <= fst mx /\ snd xl >= snd mx /\ fst yl <= fst my /\ snd yl >= snd my.
Proof.
  unfold covers.
  destruct (Rle_dec (fst xl) (fst mx)), (Rge_dec (snd xl) (snd mx)),
    (Rle_dec (fst yl) (fst my)), (Rge_dec (snd yl) (snd my));
    cbn [andb]; split; intros H; try discriminate; try tauto.
Qed.

Lemma zoom_out_unfold (v : Viewer) data height width :
  current_data (image_engine (window v)) = Some data ->
  zoom_out_dimensions data = Ok (height, width) ->
  zoom_out v =
  let max_xlim := full_extent width in
  let max_ylim := full_extent height in
  if covers (xlim v) (ylim v) max_xlim max_ylim then
    (Ok tt, with_zoom_status AlreadyAtMaximumZoom v)
  else
    let x_center := (fst (xlim v) + snd (xlim v)) / 2 in
    let y_center := (fst (ylim v) + snd (ylim v)) / 2 in
    let x_range := (snd (xlim v) - fst (xlim v)) * (125 / 100) / 2 in
    let y_range := (snd (ylim v) - fst (ylim v)) * (125 / 100) / 2 in
    let final_xlim := (Rmax (x_center - x_range) (fst max_xlim),
                       Rmin (x_center + x_range) (snd max_xlim)) in
    let final_ylim := (Rmax (y_center - y_range) (fst max_ylim),
                       Rmin (y_center + y_range) (snd max_ylim)) in
    (Ok tt,
     with_zoom_status
       (if covers final_xlim final_ylim max_xlim max_ylim
        then ZoomedOutToMaximum else ZoomedOut)
       (with_ylim final_ylim (with_xlim final_xlim v))).
Proof.
  intros Hdata Hdims. unfold zoom_out, bind, get, reading, modify.
  rewrite Hdata, Hdims. cbv zeta. cbn [fst snd].
  unfold full_extent.
  destruct (covers (xlim v) (ylim v) _ _); [reflexivity|].
  cbn [fst snd].
  destruct (covers _ _ _ _); reflexivity.
Qed.

(** X17.  [zoom_out] never shows more than the full image, and never
    hides what was visible.  For an image of the height and width the
    command reads off the shape: when the view already covers the full
    image, the limits stay as they are and the status says so; otherwise
    the new limits lie within the full image, [-0.5 .. width - 0.5] by
    [-0.5 .. height - 0.5]; a view that lay within the full image lies
    within the new view; and the status reports the maximum exactly when
    the new view is the full image. *)
Theorem zoom_out_within_full_image :
  forall (v : Viewer) (data : ndarray) (height width : nat),
    current_data (image_engine (window v)) = Some data ->
    zoom_out_dimensions data = Ok (height, width) ->
    let v' := snd (zoom_out v) in
    fst (zoom_out v) = Ok tt /\
    window v' = window v /\ toolbar v' = toolbar v /\
    (covers (xlim v) (ylim v) (full_extent width) (full_extent height) = true ->
     xlim v' = xlim v /\ ylim v' = ylim v /\
     zoom_status v' = Some AlreadyAtMaximumZoom) /\
    (covers (xlim v) (ylim v) (full_extent width) (full_extent height) = false ->
     - (1 / 2) <= fst (xlim v') /\ snd (xlim v') <= INR width - 1 / 2 /\
     - (1 / 2) <= fst (ylim v') /\ snd (ylim v') <= INR height - 1 / 2 /\
     (fst (xlim v) <= snd (xlim v) -> within (xlim v) (full_extent width) ->
      within (xlim v) (xlim v')) /\
     (fst (ylim v) <= snd (ylim v) -> within (ylim v) (full_extent height) ->
      within (ylim v) (ylim v')) /\
     (zoom_status v' = Some ZoomedOutToMaximum \/
      zoom_status v' = Some ZoomedOut) /\
     (zoom_status v' = Some ZoomedOutToMaximum <->
      xlim v' = full_extent width /\ ylim v' = full_extent height)).
Proof.
  intros v data height width Hdata Hdims. cbv zeta.
  rewrite (zoom_out_unfold v data height width Hdata Hdims). cbv zeta.
  destruct (covers (xlim v) (ylim v) (full_extent width) (full_extent height))
    eqn:Hcov.
  - cbn [fst snd]. repeat split; try discriminate.
  - cbn [fst snd with_zoom_status with_ylim with_xlim window toolbar xlim ylim
         zoom_status].
    set (xc := (fst (xlim v) + snd (xlim v)) / 2).
    set (yc := (fst (ylim v) + snd (ylim v)) / 2).
    set (xr := (snd (xlim v) - fst (xlim v)) * (125 / 100) / 2).
    set (yr := (snd (ylim v) - fst (ylim v)) * (125 / 100) / 2).
    unfold full_extent. cbn [fst snd].
    split; [reflexivity|]. split; [reflexivity|]. split; [reflexivity|].
    split; [discriminate|]. intros _. clear Hcov.
    split; [apply Rmax_r|]. split; [apply Rmin_r|].
    split; [apply Rmax_r|]. split; [apply Rmin_r|].
    split; [|split; [|split]].
    + unfold within. cbn [fst snd]. intros Hord [H1 H2]. split.
      * apply Rmax_lub; [unfold xc, xr; lra | exact H1].
      * apply Rmin_glb; [unfold xc, xr; lra | exact H2].
    + unfold within. cbn [fst snd]. intros Hord [H1 H2]. split.
      * apply Rmax_lub; [unfold yc, yr; lra | exact H1].
      * apply Rmin_glb; [unfold yc, yr; lra | exact H2].
    + destruct (covers _ _ _ _); [left | right]; reflexivity.
    + destruct (covers _ _ _ _) eqn:Hfinal.
      * apply covers_spec in Hfinal. cbn [fst snd] in Hfinal.
        destruct Hfinal as (F1 & F2 & F3 & F4).
        split; [intros _ | reflexivity].
        pose proof (Rmax_r (xc - xr) (- (1 / 2))).
        pose proof (Rmin_r (xc + xr) (INR width - 1 / 2)).
        pose proof (Rmax_r (yc - yr) (- (1 / 2))).
        pose proof (Rmin_r (yc + yr) (INR height - 1 / 2)).
        split; f_equal; lra.
      * split; [discriminate|]. intros [Ex Ey]. exfalso.
        assert (Hc : covers (Rmax (xc - xr) (- (1 / 2)),
                             Rmin (xc + xr) (INR width - 1 / 2))
                            (Rmax (yc - yr) (- (1 / 2)),
                             Rmin (yc + yr) (INR height - 1 / 2))
                            (- (1 / 2), INR width - 1 / 2)
                            (- (1 / 2), INR height - 1 / 2) = true).
        { apply covers_spec. cbn [fst snd].
          injection Ex as Ex1 Ex2. injection Ey as Ey1 Ey2.
          rewrite Ex1, Ex2, Ey1, Ey2. lra. }
        congruence.
Qed.

Lemma zoom_fit_unfold (v : Viewer) data height width :
  current_data (image_engine (window v)) = Some data ->
  zoom_fit_dimensions data = Some (height, width) ->
  zoom_fit v =
  (Ok tt,
   with_zoom_status ZoomFitEntireImage
     (with_ylim (full_extent height) (with_xlim (full_extent width) v))).
Proof.
  intros Hdata Hdims. unfold zoom_fit, bind, get, modify.
  rewrite Hdata, Hdims. reflexivity.
Qed.

Lemma index_first_shape a i b :
  index_first a i = Ok b -> shape b = tl (shape a).
Proof.
  unfold index_first. destruct (shape a) as [|d dims]; [discriminate|].
  destruct (i <? d)%nat; [|discriminate]. intros [= <-]. reflexivity.
Qed.

Lemma index_tuple_shape indices : forall a b,
  index_tuple a indices = Ok b -> shape b = skipn (length indices) (shape a).
Proof.
  induction indices as [|i indices IH]; intros a b.
  - intros [= <-]. reflexivity.
  - cbn [index_tuple length].
    destruct (index_first a i) as [c|] eqn:E; [|discriminate].
    cbn [rbind]. intros H. rewrite (IH c b H), (index_first_shape a i c E).
    destruct (shape a); [destruct (length indices)|]; reflexivity.
Qed.

Lemma last_two_axes (dims : list nat) :
  (2 <= length dims)%nat ->
  exists height width rest,
    rev dims = width :: height :: rest /\
    skipn (length dims - 2) dims = [height; width].
Proof.
  intros Hlen.
  pose proof (firstn_skipn (length dims - 2) dims) as Hsplit.
  pose proof (length_skipn (length dims - 2) dims) as Hl.
  destruct (skipn (length dims - 2) dims) as [|height [|width [|? ?]]];
    cbn [length] in Hl; try lia.
  exists height, width, (rev (firstn (length dims - 2) dims)).
  split; [|reflexivity].
  rewrite <- Hsplit at 1. rewrite rev_app_distr. reflexivity.
Qed.

(** X18.  The height and width the zoom commands read off the shape of
    the current array are those of the image on display whenever the
    array has rank 2, or a rank above 2 with a last axis that is not 3
    long; [zoom_fit] then either shows exactly that image or falls back
    on the tool bar.  For a rank-3 array whose last axis is 3 long the
    commands take the first two axes for height and width, while the
    image on display is as high as the second axis is long and 3 wide. *)
Theorem zoom_dimensions_and_displayed_image :
  forall (v : Viewer) (data shown : ndarray),
    current_data (image_engine (window v)) = Some data ->
    ndim data <> 0%nat ->
    _prepare_data_for_display (image_engine (window v)) = Ok (Some shown) ->
    (ndim data <> 3%nat \/ nth 2 (shape data) 0%nat <> 3%nat ->
     zoom_out_dimensions data = Ok (displayed_dimensions shown) /\
     (zoom_fit_dimensions data = None \/
      zoom_fit_dimensions data = Some (displayed_dimensions shown) /\
      xlim (snd (zoom_fit v)) = full_extent (snd (displayed_dimensions shown)) /\
      ylim (snd (zoom_fit v)) = full_extent (fst (displayed_dimensions shown)))) /\
    (ndim data = 3%nat -> nth 2 (shape data) 0%nat = 3%nat ->
     zoom_out_dimensions data
     = Ok (nth 0 (shape data) 0%nat, nth 1 (shape data) 0%nat) /\
     xlim (snd (zoom_fit v)) = full_extent (nth 1 (shape data) 0%nat) /\
     ylim (snd (zoom_fit v)) = full_extent (nth 0 (shape data) 0%nat) /\
     displayed_dimensions shown = (nth 1 (shape data) 0%nat, 3%nat)).
Proof.
  intros v data shown Hdata Hrank0 Hshown.
  unfold _prepare_data_for_display in Hshown. rewrite Hdata in Hshown.
  split.
  - intros Hcase.
    destruct (Nat.eqb_spec (ndim data) 1) as [H1|H1]; [discriminate|].
    destruct (Nat.eqb_spec (ndim data) 2) as [H2|H2].
    + injection Hshown as <-.
      assert (Ho : zoom_out_dimensions data = Ok (displayed_dimensions data))
        by (unfold zoom_out_dimensions; rewrite H2; reflexivity).
      assert (Hf : zoom_fit_dimensions data = Some (displayed_dimensions data))
        by (unfold zoom_fit_dimensions; rewrite H2; reflexivity).
      split; [exact Ho|]. right. split; [exact Hf|].
      rewrite (zoom_fit_unfold v data _ _ Hdata Hf). split; reflexivity.
    + destruct (Nat.eqb_spec (ndim data) 3) as [H3|H3].
      * destruct Hcase as [Hc|Hlast]; [contradiction|].
        unfold ndim in H3.
        destruct (shape data) as [|n [|h [|w [|? ?]]]] eqn:Hs;
          try discriminate.
        cbn [nth] in Hlast, Hshown.
        assert (Hw : (w =? 3)%nat = false) by (apply Nat.eqb_neq, Hlast).
        destruct (Nat.eqb_spec n 3) as [Hn|Hn].
        -- unfold transpose_120 in Hshown. rewrite Hs in Hshown.
           cbn [rbind] in Hshown. injection Hshown as <-.
           assert (Ho : zoom_out_dimensions data = Ok (h, w)).
           { unfold zoom_out_dimensions, ndim. rewrite Hs. cbn [length nth].
             cbn [Nat.eqb andb]. rewrite Hw, Hn. reflexivity. }
           assert (Hf : zoom_fit_dimensions data = Some (h, w)).
           { unfold zoom_fit_dimensions, ndim. rewrite Hs. cbn [length nth].
             cbn [Nat.eqb andb]. rewrite Hw, Hn. reflexivity. }
           split; [exact Ho|]. right. split; [exact Hf|].
           rewrite (zoom_fit_unfold v data _ _ Hdata Hf). split; reflexivity.
        -- destruct (index_first data (n / 2)) as [slice|] eqn:E;
             [|discriminate].
           cbn [rbind] in Hshown. injection Hshown as <-.
           pose proof (index_first_shape _ _ _ E) as Hss.
           rewrite Hs in Hss. cbn [tl] in Hss.
           unfold displayed_dimensions. rewrite Hss. cbn [nth].
           split.
           ++ unfold zoom_out_dimensions, ndim. rewrite Hs. cbn [length nth].
              cbn [Nat.eqb andb]. rewrite Hw.
              apply Nat.eqb_neq in Hn. rewrite Hn. reflexivity.
           ++ left. unfold zoom_fit_dimensions, ndim. rewrite Hs.
              cbn [length nth]. cbn [Nat.eqb andb]. rewrite Hw.
              apply Nat.eqb_neq in Hn. rewrite Hn. reflexivity.
      * destruct (index_tuple data _) as [slice|] eqn:E; [|discriminate].
        cbn [rbind] in Hshown. injection Hshown as <-.
        pose proof (index_tuple_shape _ _ _ E) as Hss.
        rewrite length_map, length_seq in Hss.
        assert (Hlen : (2 <= length (shape data))%nat)
          by (unfold ndim in *; lia).
        destruct (last_two_axes (shape data) Hlen)
          as (height & width & rest & Hrev & Hskip).
        fold (ndim data) in Hskip. rewrite Hskip in Hss.
        unfold displayed_dimensions. rewrite Hss. cbn [nth].
        split.
        -- unfold zoom_out_dimensions.
           apply Nat.eqb_neq in H2, H3. rewrite H2, H3. cbn [andb].
           rewrite Hrev. reflexivity.
        -- left. unfold zoom_fit_dimensions.
           apply Nat.eqb_neq in H2, H3. rewrite H2, H3. reflexivity.
  - intros H3 Hlast.
    assert (Ho : zoom_out_dimensions data
                 = Ok (nth 0 (shape data) 0%nat, nth 1 (shape data) 0%nat))
      by (unfold zoom_out_dimensions; rewrite H3, Hlast; reflexivity).
    assert (Hf : zoom_fit_dimensions data
                 = Some (nth 0 (shape data) 0%nat, nth 1 (shape data) 0%nat))
      by (unfold zoom_fit_dimensions; rewrite H3, Hlast; reflexivity).
    split; [exact Ho|].
    rewrite (zoom_fit_unfold v data _ _ Hdata Hf).
    split; [reflexivity|]. split; [reflexivity|].
    rewrite H3 in Hshown. cbn [Nat.eqb] in Hshown.
    unfold ndim in H3.
    destruct (shape data) as [|n [|h [|w [|? ?]]]] eqn:Hs; try discriminate.
    cbn [nth] in Hlast, Hshown |- *. subst w.
    destruct (Nat.eqb_spec n 3) as [Hn|Hn].
    + unfold transpose_120 in Hshown. rewrite Hs in Hshown.
      cbn [rbind] in Hshown. injection Hshown as <-. reflexivity.
    + destruct (index_first data (n / 2)) as [slice|] eqn:E; [|discriminate].
      cbn [rbind] in Hshown. injection Hshown as <-.
      pose proof (index_first_shape _ _ _ E) as Hss.
      rewrite Hs in Hss. cbn [tl] in Hss.
      unfold displayed_dimensions. rewrite Hss. reflexivity.
Qed.

Lemma zoom_in_unfold (v : Viewer) data :
  current_data (image_engine (window v)) = Some data ->
  zoom_in v =
  (Ok tt,
   with_zoom_status ZoomedIn
     (with_toolbar (toolbar_pan (toolbar v))
        (with_ylim ((fst (ylim v) + snd (ylim v)) / 2
                    - (snd (ylim v) - fst (ylim v)) * (8 / 10) / 2,
                    (fst (ylim v) + snd (ylim v)) / 2
                    + (snd (ylim v) - fst (ylim v)) * (8 / 10) / 2)
           (with_xlim ((fst (xlim v) + snd (xlim v)) / 2
                       - (snd (xlim v) - fst (xlim v)) * (8 / 10) / 2,
                       (fst (xlim v) + snd (xlim v)) / 2
                       + (snd (xlim v) - fst (xlim v)) * (8 / 10) / 2)
              v)))).
Proof.
  intros Hdata. unfold zoom_in, bind, get, modify. rewrite Hdata. reflexivity.
Qed.

(** X19.  [zoom_in] keeps the centre of the view and shrinks both axes to
    80 per cent, so the new view lies within the old one, and a following
    [zoom_out] gives back the limits the view had, provided that view lay
    within the full image.  Without an image none of the four commands
    changes anything. *)
Theorem zoom_in_then_out :
  forall (v : Viewer),
    (current_data (image_engine (window v)) = None ->
     zoom_in v = (Ok tt, v) /\ zoom_out v = (Ok tt, v) /\
     zoom_fit v = (Ok tt, v) /\ activate_pan v = (Ok tt, v)) /\
    (forall data height width,
        current_data (image_engine (window v)) = Some data ->
        zoom_out_dimensions data = Ok (height, width) ->
        fst (xlim v) < snd (xlim v) ->
        fst (ylim v) < snd (ylim v) ->
        within (xlim v) (full_extent width) ->
        within (ylim v) (full_extent height) ->
        let v1 := snd (zoom_in v) in
        let v2 := snd (zoom_out v1) in
        fst (xlim v1) + snd (xlim v1) = fst (xlim v) + snd (xlim v) /\
        fst (ylim v1) + snd (ylim v1) = fst (ylim v) + snd (ylim v) /\
        snd (xlim v1) - fst (xlim v1)
        = (8 / 10) * (snd (xlim v) - fst (xlim v)) /\
        snd (ylim v1) - fst (ylim v1)
        = (8 / 10) * (snd (ylim v) - fst (ylim v)) /\
        within (xlim v1) (xlim v) /\ within (ylim v1) (ylim v) /\
        toolbar v1 = toolbar_pan (toolbar v) /\
        xlim v2 = xlim v /\ ylim v2 = ylim v).
Proof.
  intros v. split.
  - intros Hnone.
    unfold zoom_in, zoom_out, zoom_fit, activate_pan, bind, get, ret.
    rewrite Hnone. repeat split.
  - intros data height width Hdata Hdims Hx Hy [Hx0 Hx1] [Hy0 Hy1]. cbv zeta.
    rewrite (zoom_in_unfold v data Hdata). cbn [snd].
    set (v1 := with_zoom_status _ _).
    assert (Hdata1 : current_data (image_engine (window v1)) = Some data)
      by exact Hdata.
    assert (Ex1 : xlim v1
                  = ((fst (xlim v) + snd (xlim v)) / 2
                     - (snd (xlim v) - fst (xlim v)) * (8 / 10) / 2,
                     (fst (xlim v) + snd (xlim v)) / 2
                     + (snd (xlim v) - fst (xlim v)) * (8 / 10) / 2))
      by reflexivity.
    assert (Ey1 : ylim v1
                  = ((fst (ylim v) + snd (ylim v)) / 2
                     - (snd (ylim v) - fst (ylim v)) * (8 / 10) / 2,
                     (fst (ylim v) + snd (ylim v)) / 2
                     + (snd (ylim v) - fst (ylim v)) * (8 / 10) / 2))
      by reflexivity.
    assert (Ht1 : toolbar v1 = toolbar_pan (toolbar v)) by reflexivity.
    clearbody v1.
    destruct (xlim v) as [x0 x1]. destruct (ylim v) as [y0 y1].
    cbn [fst snd] in *. unfold full_extent in Hx0, Hx1, Hy0, Hy1.
    cbn [fst snd] in *.
    rewrite (zoom_out_unfold v1 data height width Hdata1 Hdims). cbv zeta.
    assert (Hcov : covers (xlim v1) (ylim v1)
                     (full_extent width) (full_extent height) = false).
    { destruct (covers _ _ _ _) eqn:E; [|reflexivity].
      apply covers_spec in E. rewrite Ex1 in E.
      unfold full_extent in E. cbn [fst snd] in E. lra. }
    rewrite Hcov. cbn [snd with_zoom_status with_ylim with_xlim xlim ylim].
    rewrite Ex1, Ey1. unfold full_extent, within. cbn [fst snd].
    split; [lra|]. split; [lra|]. split; [lra|]. split; [lra|].
    split; [lra|]. split; [lra|]. split; [exact Ht1|].
    split; f_equal.
    + rewrite Rmax_left; lra.
    + rewrite Rmin_left; lra.
    + rewrite Rmax_left; lra.
    + rewrite Rmin_left; lra.
Qed.

End ZoomProperties.

Lemma zoom_out_within_full_image_witness :
  fst (zoom_out sample_viewer) = Ok tt.
Proof.
  apply (zoom_out_within_full_image (tb := example_toolbar)
           sample_viewer sample_image 2 2); reflexivity.
Defined.

Lemma zoom_dimensions_and_displayed_image_witness :
  zoom_out_dimensions sample_image = Ok (displayed_dimensions sample_image).
Proof.
  destruct (zoom_dimensions_and_displayed_image (tb := example_toolbar)
              sample_viewer sample_image sample_image) as [H _].
  - reflexivity.
  - discriminate.
  - reflexivity.
  - apply H. left. discriminate.
Defined.

Lemma zoom_in_then_out_witness :
  xlim (snd (zoom_out (snd (zoom_in sample_viewer)))) = xlim sample_viewer /\
  ylim (snd (zoom_out (snd (zoom_in sample_viewer)))) = ylim sample_viewer.
Proof.
  destruct (zoom_in_then_out (tb := example_toolbar) sample_viewer) as [_ H].
  apply (H sample_image 2%nat 2%nat).
  - reflexivity.
  - reflexivity.
  - cbn. lra.
  - cbn. lra.
  - unfold within, full_extent. cbn. lra.
  - unfold within, full_extent. cbn. lra.
Defined.

(* ------------------------------------------------------------------ *)
(** ** MainWindow: the cursor read-out *)

Lemma Rtrunc_small r : -1 < r < 1 -> Rtrunc r = 0%Z.
Proof.
  intros [H1 H2]. unfold Rtrunc.
  destruct (Rle_dec 0 r).
  - symmetry. apply Int_part_spec. simpl. lra.
  - replace (Int_part (- r)) with 0%Z; [reflexivity|].
    apply Int_part_spec. simpl. lra.
Qed.

Lemma pixel_in_range data idx :
  length (flat data) = size data ->
  Forall2 (fun i d => (0 <= i < Z.of_nat d)%Z) idx (shape data) ->
  exists value, item data (map Z.to_nat idx) = Some value /\
                pixel data idx = Ok value.
Proof.
  intros Hlen Hidx. unfold pixel, item.
  assert (Hk : exists k, flat_index (shape data) (map Z.to_nat idx) = Some k).
  { clear Hlen. induction Hidx as [|i d idx dims Hi _ IH].
    - exists 0%nat. reflexivity.
    - destruct IH as [k Hk]. cbn [map flat_index]. rewrite Hk.
      destruct (Nat.ltb_spec (Z.to_nat i) d); [eauto | lia]. }
  destruct Hk as [k Hk]. rewrite Hk.
  pose proof (flat_index_bound _ _ _ Hk) as Hb.
  destruct (nth_error (flat data) k) as [value|] eqn:E.
  - exists value. split; reflexivity.
  - apply nth_error_None in E. unfold size in Hlen. lia.
Qed.

Lemma range_test y x h w :
  ((0 <=? y) && (y <? Z.of_nat h) && (0 <=? x) && (x <? Z.of_nat w))%Z = true
  <-> (0 <= y < Z.of_nat h)%Z /\ (0 <= x < Z.of_nat w)%Z.
Proof.
  rewrite !andb_true_iff, !Z.leb_le, !Z.ltb_lt. tauto.
Qed.

(** X20.  [on_mouse_move] never raises.  With the cursor over the axes
    and the coordinates truncated toward zero to [(x, y)]: on a
    two-dimensional array of shape [(h, w)] it reports the element at
    [[y, x]] when [0 <= y < h] and [0 <= x < w], and nothing otherwise;
    on an array of shape [(3, h, w)] it reports the three elements at
    [[0, y, x]], [[1, y, x]] and [[2, y, x]] under the same condition;
    for any other shape, or with the cursor off the axes, or without an
    image, it reports nothing.  Because of the truncation every cursor
    position with [-1 < xdata < 1] reads column 0. *)
Theorem mouse_move_reads_pixel_under_cursor :
  forall (self : MainWindow) (event : MouseEvent),
    (exists message, on_mouse_move self event = Ok message) /\
    (inaxes event = false \/ current_data (image_engine self) = None ->
     on_mouse_move self event = Ok None) /\
    (forall data,
        current_data (image_engine self) = Some data ->
        inaxes event = true ->
        length (flat data) = size data ->
        let x := Rtrunc (xdata event) in
        let y := Rtrunc (ydata event) in
        (forall h w,
            shape data = [h; w] ->
            ((0 <= y < Z.of_nat h)%Z /\ (0 <= x < Z.of_nat w)%Z ->
             exists value,
               item data [Z.to_nat y; Z.to_nat x] = Some value /\
               on_mouse_move self event = Ok (Some (PixelValue x y value))) /\
            (~ ((0 <= y < Z.of_nat h)%Z /\ (0 <= x < Z.of_nat w)%Z) ->
             on_mouse_move self event = Ok None)) /\
        (forall h w,
            shape data = [3; h; w]%nat ->
            ((0 <= y < Z.of_nat h)%Z /\ (0 <= x < Z.of_nat w)%Z ->
             exists r g b,
               item data [0; Z.to_nat y; Z.to_nat x]%nat = Some r /\
               item data [1; Z.to_nat y; Z.to_nat x]%nat = Some g /\
               item data [2; Z.to_nat y; Z.to_nat x]%nat = Some b /\
               on_mouse_move self event = Ok (Some (PixelRGB x y r g b))) /\
            (~ ((0 <= y < Z.of_nat h)%Z /\ (0 <= x < Z.of_nat w)%Z) ->
             on_mouse_move self event = Ok None)) /\
        (ndim data <> 2%nat ->
         ~ (ndim data = 3%nat /\ nth 0 (shape data) 0%nat = 3%nat) ->
         on_mouse_move self event = Ok None)) /\
    (-1 < xdata event < 1 -> Rtrunc (xdata event) = 0%Z).
Proof.
  intros self event. split; [|split; [|split]].
  - unfold on_mouse_move.
    destruct (current_data (image_engine self)) as [data|]; [|eauto].
    destruct (inaxes event); [|eauto].
    match goal with
    | |- exists m, match ?a with _ => _ end = Ok m =>
        assert (Hcases : (exists m, a = Ok m) \/ a = Raise IndexError)
    end.
    { destruct (ndim data =? 2)%nat.
      - destruct (_ && _)%bool; [|eauto].
        unfold pixel. destruct (item data _); cbn [rbind]; eauto.
      - destruct (_ && _)%bool; [|eauto].
        destruct (_ && _)%bool; [|eauto].
        unfold pixel.
        destruct (item data _); cbn [rbind]; [|eauto].
        destruct (item data _); cbn [rbind]; [|eauto].
        destruct (item data _); cbn [rbind]; eauto. }
    destruct Hcases as [[m ->] | ->]; eauto.
  - intros [Hout|Hnone]; unfold on_mouse_move.
    + rewrite Hout. destruct (current_data (image_engine self)); reflexivity.
    + rewrite Hnone. reflexivity.
  - intros data Hdata Hin Hlen. cbv zeta. split; [|split].
    + intros h w Hs. unfold on_mouse_move. rewrite Hdata, Hin.
      unfold ndim. rewrite Hs. cbn [length Nat.eqb nth]. split.
      * intros Hrange. rewrite (proj2 (range_test _ _ h w) Hrange).
        destruct (pixel_in_range data
                    [Rtrunc (ydata event); Rtrunc (xdata event)] Hlen)
          as (value & Hitem & Hpix).
        { rewrite Hs. destruct Hrange. repeat constructor; lia. }
        exists value. split; [exact Hitem|]. rewrite Hpix. reflexivity.
      * intros Hout.
        destruct (_ && _)%bool eqn:E; [|reflexivity].
        apply range_test in E. contradiction.
    + intros h w Hs. unfold on_mouse_move. rewrite Hdata, Hin.
      unfold ndim. rewrite Hs. cbn [length Nat.eqb nth andb]. split.
      * intros Hrange. rewrite (proj2 (range_test _ _ h w) Hrange).
        destruct Hrange as [Hy Hx].
        destruct (pixel_in_range data
                    [0%Z; Rtrunc (ydata event); Rtrunc (xdata event)] Hlen)
          as (r & Hr & Hpr);
          [rewrite Hs; repeat constructor; lia|].
        destruct (pixel_in_range data
                    [1%Z; Rtrunc (ydata event); Rtrunc (xdata event)] Hlen)
          as (g & Hg & Hpg);
          [rewrite Hs; repeat constructor; lia|].
        destruct (pixel_in_range data
                    [2%Z; Rtrunc (ydata event); Rtrunc (xdata event)] Hlen)
          as (b & Hb & Hpb);
          [rewrite Hs; repeat constructor; lia|].
        exists r, g, b. repeat split; try assumption.
        rewrite Hpr, Hpg, Hpb. reflexivity.
      * intros Hout.
        destruct (_ && _)%bool eqn:E; [|reflexivity].
        apply range_test in E. contradiction.
    + intros H2 H3. unfold on_mouse_move. rewrite Hdata, Hin.
      destruct (Nat.eqb_spec (ndim data) 2); [contradiction|].
      destruct (Nat.eqb_spec (ndim data) 3);
        destruct (Nat.eqb_spec (nth 0 (shape data) 0%nat) 3);
        cbn [andb]; try reflexivity.
      exfalso. apply H3. split; assumption.
  - apply Rtrunc_small.
Qed.

Lemma mouse_move_reads_pixel_under_cursor_witness :
  exists value,
    item sample_image [Z.to_nat (Rtrunc 0); Z.to_nat (Rtrunc 0)] = Some value /\
    on_mouse_move loaded_window {| inaxes := true; xdata := 0; ydata := 0 |}
    = Ok (Some (PixelValue (Rtrunc 0) (Rtrunc 0) value)).
Proof.
  destruct (mouse_move_reads_pixel_under_cursor loaded_window
              {| inaxes := true; xdata := 0; ydata := 0 |})
    as (_ & _ & H & _).
  destruct (H sample_image eq_refl eq_refl eq_refl) as (H2 & _).
  destruct (H2 2%nat 2%nat eq_refl) as [Hin _].
  apply Hin. cbn [xdata ydata].
  rewrite Rtrunc_small by lra. simpl. lia.
Defined.

(* ------------------------------------------------------------------ *)
(** ** MainWindow: the scaling sliders *)

Lemma on_min_slider_unfold value p d hi :
  current_data (image_engine (panel_window p)) = Some d ->
  vmax (image_engine (panel_window p)) = Some hi ->
  let actual := slider_value (data_min p) (data_max p) 2000 value in
  on_min_slider_changed value p =
  if flt (Fin actual) hi then
    let e1 := with_vmin (Some (Fin actual)) (image_engine (panel_window p)) in
    let w1 := with_image_engine (snd (update_display e1)) (panel_window p) in
    match fst (update_display e1) with
    | Ok _ =>
        (Ok tt,
         with_panel_window
           (with_histogram_widget
              (snd (HistogramWidget.update_scaling_lines (Fin actual) hi
                      (histogram_widget w1))) w1)
           (with_min_value_label actual p))
    | Raise e =>
        (Raise e, with_panel_window w1 (with_min_value_label actual p))
    end
  else (Ok tt, with_min_value_label actual p).
Proof.
  intros Hdata Hmax. cbv zeta.
  unfold on_min_slider_changed, slider_value, bind, get, reading, modify.
  rewrite Hdata. cbn [fst snd panel_window with_min_value_label].
  rewrite Hmax. cbn [operand].
  destruct (flt _ hi); [|reflexivity].
  unfold on_window, on_engine, on_histogram, modify.
  cbn [fst snd panel_window with_min_value_label with_panel_window
       image_engine with_image_engine].
  destruct (update_display_bounds
              (with_vmin
                 (Some (Fin (data_min p
                             + IZR value / 2000 * (data_max p - data_min p))))
                 (image_engine (panel_window p)))) as [_ Hkeep].
  destruct (update_display _) as [[[]|e] e2]; cbn [fst snd] in *;
    [|reflexivity].
  cbn [panel_window with_panel_window image_engine with_image_engine].
  cbn [with_vmin vmax] in Hkeep. rewrite Hkeep, Hmax.
  cbn [operand].
  unfold HistogramWidget.update_scaling_lines, bind, get, modify, ret.
  cbn [histogram_widget with_image_engine].
  destruct (HistogramWidget.current_data (histogram_widget (panel_window p)));
    reflexivity.
Qed.

Lemma on_max_slider_unfold value p d lo :
  current_data (image_engine (panel_window p)) = Some d ->
  vmin (image_engine (panel_window p)) = Some lo ->
  let actual := slider_value (data_min p) (data_max p) 1000 value in
  on_max_slider_changed value p =
  if flt lo (Fin actual) then
    let e1 := with_vmax (Some (Fin actual)) (image_engine (panel_window p)) in
    let w1 := with_image_engine (snd (update_display e1)) (panel_window p) in
    match fst (update_display e1) with
    | Ok _ =>
        (Ok tt,
         with_panel_window
           (with_histogram_widget
              (snd (HistogramWidget.update_scaling_lines lo (Fin actual)
                      (histogram_widget w1))) w1)
           (with_max_value_label actual p))
    | Raise e =>
        (Raise e, with_panel_window w1 (with_max_value_label actual p))
    end
  else (Ok tt, with_max_value_label actual p).
Proof.
  intros Hdata Hmin. cbv zeta.
  unfold on_max_slider_changed, slider_value, bind, get, reading, modify.
  rewrite Hdata. cbn [fst snd panel_window with_max_value_label].
  rewrite Hmin. cbn [operand].
  destruct (flt lo _); [|reflexivity].
  unfold on_window, on_engine, on_histogram, modify.
  cbn [fst snd panel_window with_max_value_label with_panel_window
       image_engine with_image_engine].
  destruct (update_display_bounds
              (with_vmax
                 (Some (Fin (data_min p
                             + IZR value / 1000 * (data_max p - data_min p))))
                 (image_engine (panel_window p)))) as [Hkeep _].
  destruct (update_display _) as [[[]|e] e2]; cbn [fst snd] in *;
    [|reflexivity].
  cbn [panel_window with_panel_window image_engine with_image_engine].
  cbn [with_vmax vmin] in Hkeep. rewrite Hkeep, Hmin.
  cbn [operand].
  unfold HistogramWidget.update_scaling_lines, bind, get, modify, ret.
  cbn [histogram_widget with_image_engine].
  destruct (HistogramWidget.current_data (histogram_widget (panel_window p)));
    reflexivity.
Qed.

Lemma slider_value_range lo hi steps value :
  lo <= hi -> (0 < steps)%Z -> (0 <= value <= steps)%Z ->
  lo <= slider_value lo hi steps value <= hi.
Proof.
  intros Hle Hs [H0 H1]. unfold slider_value.
  assert (Hsteps : 0 < IZR steps) by (apply IZR_lt; exact Hs).
  assert (Hv0 : 0 <= IZR value) by (apply IZR_le; exact H0).
  assert (Hv1 : IZR value <= IZR steps) by (apply IZR_le; exact H1).
  assert (Hfrac : 0 <= IZR value / IZR steps <= 1).
  { split.
    - apply Rmult_le_pos; [exact Hv0|].
      apply Rlt_le, Rinv_0_lt_compat, Hsteps.
    - apply Rmult_le_reg_r with (IZR steps); [exact Hsteps|].
      unfold Rdiv. rewrite Rmult_assoc, Rinv_l by lra. lra. }
  split; nra.
Qed.

(** X21.  The slider handlers keep the scaling limits ordered.  With an
    image and both limits set, [on_min_slider_changed] maps the position
    (of 2000 steps) linearly into the data range, shows the value on its
    label, and stores it as [vmin] only when it is below [vmax];
    otherwise the engine and the histogram stay as they were and only
    the label changes.  [on_max_slider_changed] does the same for [vmax]
    with 1000 steps.  Neither changes the other limit or the data, so
    ordered limits stay ordered, and for a position within the slider's
    range the value lies within the data range.  Without an image the
    handlers do nothing. *)
Theorem sliders_keep_limits_ordered :
  forall (p : ScalingPanel) (value : Z),
    (current_data (image_engine (panel_window p)) = None ->
     on_min_slider_changed value p = (Ok tt, p) /\
     on_max_slider_changed value p = (Ok tt, p)) /\
    (forall d lo hi,
        current_data (image_engine (panel_window p)) = Some d ->
        vmin (image_engine (panel_window p)) = Some lo ->
        vmax (image_engine (panel_window p)) = Some hi ->
        let new_min := slider_value (data_min p) (data_max p) 2000 value in
        let new_max := slider_value (data_min p) (data_max p) 1000 value in
        let p1 := snd (on_min_slider_changed value p) in
        let p2 := snd (on_max_slider_changed value p) in
        min_value_label p1 = Some new_min /\
        max_value_label p2 = Some new_max /\
        (flt (Fin new_min) hi = false ->
         on_min_slider_changed value p
         = (Ok tt, with_min_value_label new_min p)) /\
        (flt lo (Fin new_max) = false ->
         on_max_slider_changed value p
         = (Ok tt, with_max_value_label new_max p)) /\
        (flt (Fin new_min) hi = true ->
         vmin (image_engine (panel_window p1)) = Some (Fin new_min) /\
         vmax (image_engine (panel_window p1)) = Some hi) /\
        (flt lo (Fin new_max) = true ->
         vmin (image_engine (panel_window p2)) = Some lo /\
         vmax (image_engine (panel_window p2)) = Some (Fin new_max)) /\
        (flt lo hi = true ->
         bounds_ordered (image_engine (panel_window p1)) /\
         bounds_ordered (image_engine (panel_window p2))) /\
        current_data (image_engine (panel_window p1)) = Some d /\
        current_data (image_engine (panel_window p2)) = Some d) /\
    (data_min p <= data_max p ->
     ((0 <= value <= 2000)%Z ->
      data_min p <= slider_value (data_min p) (data_max p) 2000 value
      <= data_max p) /\
     ((0 <= value <= 1000)%Z ->
      data_min p <= slider_value (data_min p) (data_max p) 1000 value
      <= data_max p)).
Proof.
  intros p value. split; [|split].
  - intros Hnone.
    unfold on_min_slider_changed, on_max_slider_changed, bind, get, ret.
    rewrite Hnone. split; reflexivity.
  - intros d lo hi Hdata Hmin Hmax. cbv zeta.
    set (new_min := slider_value (data_min p) (data_max p) 2000 value).
    set (new_max := slider_value (data_min p) (data_max p) 1000 value).
    pose proof (on_min_slider_unfold value p d hi Hdata Hmax) as Emin.
    pose proof (on_max_slider_unfold value p d lo Hdata Hmin) as Emax.
    cbv zeta in Emin, Emax. fold new_min in Emin. fold new_max in Emax.
    destruct (update_display_frame
                (with_vmin (Some (Fin new_min)) (image_engine (panel_window p))))
      as (Fd1 & Fmin1 & Fmax1 & _).
    destruct (update_display_frame
                (with_vmax (Some (Fin new_max)) (image_engine (panel_window p))))
      as (Fd2 & Fmin2 & Fmax2 & _).
    cbn [with_vmin with_vmax current_data vmin vmax] in Fd1, Fmin1, Fmax1,
      Fd2, Fmin2, Fmax2.
    assert (Hmin_state :
      min_value_label (snd (on_min_slider_changed value p)) = Some new_min /\
      (flt (Fin new_min) hi = true ->
       image_engine (panel_window (snd (on_min_slider_changed value p)))
       = snd (update_display
                (with_vmin (Some (Fin new_min))
                           (image_engine (panel_window p))))) /\
      (flt (Fin new_min) hi = false ->
       snd (on_min_slider_changed value p) = with_min_value_label new_min p)).
    { rewrite Emin. clear Emin Emax. destruct (flt (Fin new_min) hi).
      - destruct (fst (update_display
                         (with_vmin (Some (Fin new_min))
                                    (image_engine (panel_window p)))))
          as [[]|e]; cbn [snd];
          (split; [reflexivity|]);
          (split; [intros _; reflexivity | discriminate]).
      - split; [reflexivity|]. split; [discriminate | reflexivity]. }
    assert (Hmax_state :
      max_value_label (snd (on_max_slider_changed value p)) = Some new_max /\
      (flt lo (Fin new_max) = true ->
       image_engine (panel_window (snd (on_max_slider_changed value p)))
       = snd (update_display
                (with_vmax (Some (Fin new_max))
                           (image_engine (panel_window p))))) /\
      (flt lo (Fin new_max) = false ->
       snd (on_max_slider_changed value p) = with_max_value_label new_max p)).
    { rewrite Emax. clear Emin Emax. destruct (flt lo (Fin new_max)).
      - destruct (fst (update_display
                         (with_vmax (Some (Fin new_max))
                                    (image_engine (panel_window p)))))
          as [[]|e]; cbn [snd];
          (split; [reflexivity|]);
          (split; [intros _; reflexivity | discriminate]).
      - split; [reflexivity|]. split; [discriminate | reflexivity]. }
    destruct Hmin_state as (Hl1 & Hacc1 & Hrej1).
    destruct Hmax_state as (Hl2 & Hacc2 & Hrej2).
    assert (Hfields1 :
      vmax (image_engine (panel_window (snd (on_min_slider_changed value p))))
      = Some hi /\
      current_data
        (image_engine (panel_window (snd (on_min_slider_changed value p))))
      = Some d /\
      (flt (Fin new_min) hi = true ->
       vmin (image_engine (panel_window (snd (on_min_slider_changed value p))))
       = Some (Fin new_min)) /\
      (flt (Fin new_min) hi = false ->
       vmin (image_engine (panel_window (snd (on_min_slider_changed value p))))
       = Some lo)).
    { destruct (flt (Fin new_min) hi) eqn:E.
      - rewrite (Hacc1 eq_refl), Fd1, Fmin1, Fmax1.
        split; [exact Hmax|]. split; [exact Hdata|].
        split; [intros _; reflexivity | discriminate].
      - rewrite (Hrej1 eq_refl). cbn [with_min_value_label panel_window].
        split; [exact Hmax|]. split; [exact Hdata|].
        split; [discriminate | intros _; exact Hmin]. }
    assert (Hfields2 :
      vmin (image_engine (panel_window (snd (on_max_slider_changed value p))))
      = Some lo /\
      current_data
        (image_engine (panel_window (snd (on_max_slider_changed value p))))
      = Some d /\
      (flt lo (Fin new_max) = true ->
       vmax (image_engine (panel_window (snd (on_max_slider_changed value p))))
       = Some (Fin new_max)) /\
      (flt lo (Fin new_max) = false ->
       vmax (image_engine (panel_window (snd (on_max_slider_changed value p))))
       = Some hi)).
    { destruct (flt lo (Fin new_max)) eqn:E.
      - rewrite (Hacc2 eq_refl), Fd2, Fmin2, Fmax2.
        split; [exact Hmin|]. split; [exact Hdata|].
        split; [intros _; reflexivity | discriminate].
      - rewrite (Hrej2 eq_refl). cbn [with_max_value_label panel_window].
        split; [exact Hmin|]. split; [exact Hdata|].
        split; [discriminate | intros _; exact Hmax]. }
    destruct Hfields1 as (Hhi1 & Hd1 & Hnew1 & Hold1).
    destruct Hfields2 as (Hlo2 & Hd2 & Hnew2 & Hold2).
    split; [exact Hl1|]. split; [exact Hl2|].
    split.
    { intros E. rewrite Emin, E. reflexivity. }
    split.
    { intros E. rewrite Emax, E. reflexivity. }
    split; [intros E; split; [apply Hnew1, E | exact Hhi1]|].
    split; [intros E; split; [exact Hlo2 | apply Hnew2, E]|].
    split; [|split; assumption].
    intros Hord. split.
    + destruct (flt (Fin new_min) hi) eqn:E.
      * exists (Fin new_min), hi. auto.
      * exists lo, hi. auto.
    + destruct (flt lo (Fin new_max)) eqn:E.
      * exists lo, (Fin new_max). auto.
      * exists lo, hi. auto.
  - intros Hle. split; intros Hv; apply slider_value_range; try assumption; lia.
Qed.

Lemma sliders_keep_limits_ordered_witness :
  bounds_ordered
    (image_engine (panel_window (snd (on_min_slider_changed 1000 sample_panel)))) /\
  bounds_ordered
    (image_engine (panel_window (snd (on_max_slider_changed 1000 sample_panel)))).
Proof.
  destruct (sliders_keep_limits_ordered sample_panel 1000) as (_ & H & _).
  apply (H sample_image (Fin 0) (Fin 100)).
  - reflexivity.
  - reflexivity.
  - reflexivity.
  - apply flt_Fin. lra.
Defined.

(* ------------------------------------------------------------------ *)
(** ** MainWindow: a rotation that fails *)

Section RotationFailure.

Context {lib : Library}.

(** X22.  When the rotation step raises, the exception is swallowed: the
    command returns normally, the engine and the histogram stay as they
    were (so the image and the scaling limits on display are the old
    ones), but the new angle or flip flag stays stored and the original
    array is captured; and since the command writes its own message
    after [apply_transformations] returns, the status bar ends up with
    the message of a successful rotation or flip, not with the error. *)
Theorem failed_rotation_keeps_display :
  forall (w : MainWindow) (cmd : command) (c : ndarray) (e : exn),
    current_data (image_engine w) <> None ->
    canonical w = Ok (Some c) ->
    rotated (prepared cmd w) c = Raise e ->
    let w' := snd (run_command cmd w) in
    fst (run_command cmd w) = Ok tt /\
    image_engine w' = image_engine w /\
    histogram_widget w' = histogram_widget w /\
    rotation_angle w' = rotation_angle (prepared cmd w) /\
    flip_horizontal w' = flip_horizontal (prepared cmd w) /\
    flip_vertical w' = flip_vertical (prepared cmd w) /\
    original_data w' = Some c /\
    status_bar w' = report cmd (prepared cmd w) /\
    status_bar (snd (apply_transformations (prepared cmd w)))
    = RotationError e.
Proof.
  intros w cmd c e Hcur Hcan Hrot. cbv zeta.
  destruct (prepared_frame cmd w) as (Hf1 & Hf2 & Hf3 & Hf4).
  assert (Hpcur : current_data (image_engine (prepared cmd w)) <> None)
    by (rewrite Hf4; exact Hcur).
  assert (Hpcan : canonical (prepared cmd w) = Ok (Some c))
    by (rewrite (canonical_ext w (prepared cmd w)); assumption).
  assert (Happly :
    apply_transformations (prepared cmd w)
    = (Ok tt, with_status_bar (RotationError e) (captured c (prepared cmd w)))).
  { rewrite (apply_transformations_unfold _ Hpcur), Hpcan, Hrot. reflexivity. }
  rewrite run_command_unfold.
  destruct (current_data (image_engine w)) eqn:E; [|congruence].
  rewrite Happly. cbn [fst snd].
  destruct (captured_frame c (prepared cmd w)) as (_ & _ & Ha & Hh & Hv & He).
  pose proof (captured_original c (prepared cmd w) Hpcan) as Ho.
  cbn [with_status_bar image_engine histogram_widget rotation_angle
       flip_horizontal flip_vertical original_data status_bar].
  split; [reflexivity|].
  split; [rewrite He; exact Hf4|].
  split.
  { unfold captured. destruct (original_data (prepared cmd w));
      destruct cmd; reflexivity. }
  split; [exact Ha|]. split; [exact Hh|]. split; [exact Hv|].
  split; [exact Ho|]. split; [|reflexivity].
  destruct cmd; cbn [report rotation_angle flip_horizontal flip_vertical
                     with_status_bar]; congruence.
Qed.

End RotationFailure.

Lemma failed_rotation_keeps_display_witness :
  fst (run_command (lib := failing_library) (Rotate 90) loaded_window) = Ok tt /\
  image_engine
    (snd (run_command (lib := failing_library) (Rotate 90) loaded_window))
  = image_engine loaded_window /\
  histogram_widget
    (snd (run_command (lib := failing_library) (Rotate 90) loaded_window))
  = histogram_widget loaded_window /\
  rotation_angle
    (snd (run_command (lib := failing_library) (Rotate 90) loaded_window))
  = rotation_angle (prepared (Rotate 90) loaded_window) /\
  flip_horizontal
    (snd (run_command (lib := failing_library) (Rotate 90) loaded_window))
  = flip_horizontal (prepared (Rotate 90) loaded_window) /\
  flip_vertical
    (snd (run_command (lib := failing_library) (Rotate 90) loaded_window))
  = flip_vertical (prepared (Rotate 90) loaded_window) /\
  original_data
    (snd (run_command (lib := failing_library) (Rotate 90) loaded_window))
  = Some sample_image /\
  status_bar
    (snd (run_command (lib := failing_library) (Rotate 90) loaded_window))
  = report (Rotate 90) (prepared (Rotate 90) loaded_window) /\
  status_bar
    (snd (apply_transformations (lib := failing_library)
            (prepared (Rotate 90) loaded_window)))
  = RotationError LibraryError.
Proof.
  apply (failed_rotation_keeps_display (lib := failing_library)
           loaded_window (Rotate 90) sample_image LibraryError).
  - discriminate.
  - reflexivity.
  - reflexivity.
Defined.

(* ------------------------------------------------------------------ *)
(** ** ImageDisplayEngine: the colour planes are scaled one by one *)

Lemma normalize_length scaled out :
  normalize_to_0_1 scaled = Ok out -> length out = length scaled.
Proof.
  unfold normalize_to_0_1.
  destruct (amin scaled); [|discriminate].
  destruct (amax scaled); [|discriminate]. cbn [rbind].
  destruct (flt _ _); intros [= <-]; [apply length_map | reflexivity].
Qed.

Lemma np_clip_bounds_length lo hi xs out :
  np_clip_bounds lo hi xs = Ok out -> length out = length xs.
Proof.
  unfold np_clip_bounds.
  destruct lo, hi; try discriminate; intros [= <-]; apply length_map.
Qed.

(** Whatever the mode and the limits, a scaled channel has the shape of
    the channel and a floating element type. *)
Lemma scaling_channel_shape self data out :
  _apply_scaling_to_channel self data = Ok out ->
  dtype out = float_result (dtype data) /\
  shape out = shape data /\
  length (flat out) = length (flat data).
Proof.
  unfold _apply_scaling_to_channel.
  destruct (np_clip_bounds (vmin self) (vmax self) (flat data))
    as [clipped|] eqn:Hclip; [|discriminate].
  pose proof (np_clip_bounds_length _ _ _ _ Hclip) as Hlen.
  cbn [rbind].
  assert (Hlinear :
    (hi <-? operand (vmax self) ;
     lo <-? operand (vmin self) ;
     if flt lo hi
     then Ok {| dtype := float_result (dtype data); shape := shape data;
                flat := map (fun c => fdiv (fsub c lo) (fsub hi lo)) clipped |}
     else Ok {| dtype := float_result (dtype data); shape := shape data;
                flat := clipped |})%result = Ok out ->
    dtype out = float_result (dtype data) /\
    shape out = shape data /\
    length (flat out) = length (flat data)).
  { destruct (operand (vmax self)); [|discriminate].
    destruct (operand (vmin self)); [|discriminate]. cbn [rbind].
    destruct (flt _ _); intros [= <-]; cbn [dtype shape flat];
      rewrite ?length_map; auto. }
  assert (Hnorm : forall scaled,
    length scaled = length (flat data) ->
    (normalized <-? normalize_to_0_1 scaled ;
     Ok {| dtype := float_result (dtype data); shape := shape data;
           flat := normalized |})%result = Ok out ->
    dtype out = float_result (dtype data) /\
    shape out = shape data /\
    length (flat out) = length (flat data)).
  { intros scaled Hs.
    destruct (normalize_to_0_1 scaled) as [normalized|] eqn:E; [|discriminate].
    cbn [rbind]. intros [= <-]. cbn [dtype shape flat].
    rewrite (normalize_length _ _ E). auto. }
  destruct (scaling_mode self =? "linear")%string; [exact Hlinear|].
  destruct (scaling_mode self =? "log")%string.
  { destruct (operand (vmin self)); [|discriminate]. cbn [rbind].
    apply Hnorm. rewrite !length_map. exact Hlen. }
  destruct (scaling_mode self =? "sqrt")%string.
  { destruct (operand (vmin self)); [|discriminate]. cbn [rbind].
    apply Hnorm. rewrite !length_map. exact Hlen. }
  destruct (scaling_mode self =? "asinh")%string.
  { apply Hnorm. rewrite !length_map. exact Hlen. }
  exact Hlinear.
Qed.

Lemma channel_last_shape data h w i channel :
  shape data = [h; w; 3]%nat -> channel_last data i = Ok channel ->
  (i < 3)%nat /\ dtype channel = dtype data /\ shape channel = [h; w] /\
  flat channel = gather (h * w) (fun k => k * 3 + i)%nat (flat data).
Proof.
  intros Hs. unfold channel_last. rewrite Hs.
  destruct (Nat.ltb_spec i 3); [|discriminate].
  intros [= <-]. auto.
Qed.

Lemma set_channel_last_nth acc i ch h w acc' :
  shape acc = [h; w; 3]%nat ->
  set_channel_last acc i ch = Ok acc' ->
  dtype acc' = dtype acc /\
  shape acc' = [h; w; 3]%nat /\
  length (flat acc') = length (flat acc) /\
  forall k, (k < length (flat acc))%nat ->
            nth k (flat acc') (Fin 0)
            = if (k mod 3 =? i)%nat then nth (k / 3) (flat ch) (Fin 0)
              else nth k (flat acc) (Fin 0).
Proof.
  intros Hs. unfold set_channel_last. rewrite Hs.
  destruct (i <? 3)%nat; [|discriminate].
  destruct (shape_eqb (shape ch) [h; w]); [|discriminate].
  intros [= <-]. cbn [dtype shape flat].
  split; [reflexivity|]. split; [reflexivity|].
  split; [rewrite length_map, length_seq; reflexivity|].
  intros k Hk.
  rewrite (nth_indep _ (Fin 0)
             (if (0 mod 3 =? i)%nat then nth (0 / 3) (flat ch) (Fin 0)
              else nth 0 (flat acc) (Fin 0)))
    by (rewrite length_map, length_seq; exact Hk).
  rewrite (map_nth (fun k => if (k mod 3 =? i)%nat
                             then nth (k / 3) (flat ch) (Fin 0)
                             else nth k (flat acc) (Fin 0))).
  rewrite seq_nth by exact Hk. reflexivity.
Qed.

Lemma map_nth_seq (l : list float) :
  map (fun k => nth k l (Fin 0)) (seq 0 (length l)) = l.
Proof.
  induction l as [|x l IH]; [reflexivity|].
  cbn [length seq map nth]. f_equal.
  rewrite <- seq_shift, map_map. exact IH.
Qed.

(** X23.  [_apply_scaling] on a channel-last colour array of shape
    [(h, w, 3)] scales the three colour planes one by one: when it
    returns, the result is a float32 array of the same shape whose plane
    [i] is exactly what [_apply_scaling_to_channel] returns for plane [i]
    of the input converted to float32.  So in the log, sqrt and asinh
    modes every plane is normalised by its own minimum and maximum. *)
Theorem colour_planes_scaled_one_by_one :
  forall (self : ImageDisplayEngine) (data out : ndarray) (h w : nat),
    shape data = [h; w; 3]%nat ->
    length (flat data) = size data ->
    _apply_scaling self (Some data) = Ok (Some out) ->
    dtype out = float32 /\
    shape out = [h; w; 3]%nat /\
    length (flat out) = (h * w * 3)%nat /\
    forall i, (i < 3)%nat ->
      exists plane scaled,
        channel_last data i = Ok plane /\
        _apply_scaling_to_channel self (astype_float float32 plane)
        = Ok scaled /\
        channel_last out i = Ok scaled.
Proof.
  intros self data out h w Hs Hlen Hout.
  assert (Hsize : length (flat data) = (h * w * 3)%nat).
  { rewrite Hlen. unfold size. rewrite Hs. cbn [prod fold_right]. lia. }
  unfold _apply_scaling in Hout.
  assert (Hrgb : ((ndim data =? 3) && (nth 2 (shape data) 0 =? 3))%nat = true)
    by (unfold ndim; rewrite Hs; reflexivity).
  rewrite Hrgb in Hout. cbn [fold_left rbind] in Hout.
  (* the three turns of the loop *)
  assert (Hstep : forall acc i next,
    shape acc = [h; w; 3]%nat ->
    (channel <-? channel_last data i ;
     scaled <-? _apply_scaling_to_channel self (astype_float float32 channel) ;
     set_channel_last acc i scaled)%result = Ok next ->
    exists plane scaled,
      channel_last data i = Ok plane /\
      _apply_scaling_to_channel self (astype_float float32 plane) = Ok scaled /\
      dtype scaled = float32 /\ shape scaled = [h; w] /\
      length (flat scaled) = (h * w)%nat /\
      dtype next = dtype acc /\ shape next = [h; w; 3]%nat /\
      length (flat next) = length (flat acc) /\
      forall k, (k < length (flat acc))%nat ->
                nth k (flat next) (Fin 0)
                = if (k mod 3 =? i)%nat then nth (k / 3) (flat scaled) (Fin 0)
                  else nth k (flat acc) (Fin 0)).
  { intros acc i next Hsa Hnext.
    destruct (channel_last data i) as [plane|] eqn:Hp; [|discriminate].
    cbn [rbind] in Hnext.
    destruct (_apply_scaling_to_channel self (astype_float float32 plane))
      as [scaled|] eqn:Hsc; [|discriminate].
    cbn [rbind] in Hnext.
    destruct (channel_last_shape data h w i plane Hs Hp)
      as (_ & _ & Hsp & Hfp).
    destruct (scaling_channel_shape _ _ _ Hsc) as (Hd & Hss & Hls).
    cbn [astype_float dtype shape flat] in Hd, Hss, Hls.
    destruct (set_channel_last_nth acc i scaled h w next Hsa Hnext)
      as (Hdn & Hsn & Hln & Hnth).
    exists plane, scaled. repeat split; try assumption.
    - congruence.
    - rewrite Hls, Hfp. unfold gather. rewrite length_map, length_seq.
      reflexivity. }
  set (zeros := zeros_like data float32) in *.
  assert (Hz : shape zeros = [h; w; 3]%nat) by exact Hs.
  assert (Hzl : length (flat zeros) = (h * w * 3)%nat).
  { unfold zeros. cbn [zeros_like flat]. rewrite repeat_length. exact Hsize. }
  destruct ((channel <-? channel_last data 0 ;
             scaled <-? _apply_scaling_to_channel self
                          (astype_float float32 channel) ;
             set_channel_last zeros 0 scaled)%result) as [acc0|] eqn:E0;
    [|discriminate].
  cbn [rbind] in Hout.
  destruct ((channel <-? channel_last data 1 ;
             scaled <-? _apply_scaling_to_channel self
                          (astype_float float32 channel) ;
             set_channel_last acc0 1 scaled)%result) as [acc1|] eqn:E1;
    [|discriminate].
  cbn [rbind] in Hout.
  destruct ((channel <-? channel_last data 2 ;
             scaled <-? _apply_scaling_to_channel self
                          (astype_float float32 channel) ;
             set_channel_last acc1 2 scaled)%result) as [acc2|] eqn:E2;
    [|discriminate].
  cbn [rbind] in Hout. injection Hout as <-.
  destruct (Hstep zeros 0%nat acc0 Hz E0)
    as (p0 & s0 & Hp0 & Hs0 & Hd0 & Hsh0 & Hl0 & Hdt0 & Hsa0 & Hla0 & Hn0).
  destruct (Hstep acc0 1%nat acc1 Hsa0 E1)
    as (p1 & s1 & Hp1 & Hs1 & Hd1 & Hsh1 & Hl1 & Hdt1 & Hsa1 & Hla1 & Hn1).
  destruct (Hstep acc1 2%nat acc2 Hsa1 E2)
    as (p2 & s2 & Hp2 & Hs2 & Hd2 & Hsh2 & Hl2 & Hdt2 & Hsa2 & Hla2 & Hn2).
  assert (Hdt : dtype acc2 = float32) by (rewrite Hdt2, Hdt1, Hdt0; reflexivity).
  assert (Hl : length (flat acc2) = (h * w * 3)%nat) by congruence.
  split; [exact Hdt|]. split; [exact Hsa2|]. split; [exact Hl|].
  assert (Hplane : forall i scaled,
    (i < 3)%nat ->
    dtype scaled = float32 -> shape scaled = [h; w] ->
    length (flat scaled) = (h * w)%nat ->
    (forall k, (k < h * w)%nat ->
               nth (k * 3 + i) (flat acc2) (Fin 0) = nth k (flat scaled) (Fin 0)) ->
    channel_last acc2 i = Ok scaled).
  { intros i scaled Hi Hd Hsh Hls Hk.
    unfold channel_last. rewrite Hsa2.
    destruct (Nat.ltb_spec i 3); [|lia].
    destruct scaled as [sd ss sf]. cbn [dtype shape flat] in *.
    rewrite Hdt, Hd, Hsh. do 2 f_equal.
    unfold gather. rewrite <- (map_nth_seq sf), Hls.
    apply map_ext_in. intros k Hin. apply in_seq in Hin.
    apply Hk. lia. }
  assert (Hmod : forall k i, (i < 3)%nat ->
            ((k * 3 + i) mod 3 = i /\ (k * 3 + i) / 3 = k)%nat).
  { intros k i Hi. split.
    - rewrite Nat.add_comm, Nat.Div0.mod_add. apply Nat.mod_small, Hi.
    - rewrite Nat.add_comm, Nat.div_add by lia.
      rewrite Nat.div_small by lia. reflexivity. }
  intros i Hi.
  destruct i as [|[|[|i]]]; [| | |lia].
  - exists p0, s0. split; [exact Hp0|]. split; [exact Hs0|].
    apply Hplane; try assumption. intros k Hk.
    destruct (Hmod k 0%nat Hi) as [Em Ed].
    rewrite Hn2 by lia. rewrite Em. cbn [Nat.eqb].
    rewrite Hn1 by lia. rewrite Em. cbn [Nat.eqb].
    rewrite Hn0 by lia. rewrite Em, Ed. reflexivity.
  - exists p1, s1. split; [exact Hp1|]. split; [exact Hs1|].
    apply Hplane; try assumption. intros k Hk.
    destruct (Hmod k 1%nat Hi) as [Em Ed].
    rewrite Hn2 by lia. rewrite Em. cbn [Nat.eqb].
    rewrite Hn1 by lia. rewrite Em, Ed. reflexivity.
  - exists p2, s2. split; [exact Hp2|]. split; [exact Hs2|].
    apply Hplane; try assumption. intros k Hk.
    destruct (Hmod k 2%nat Hi) as [Em Ed].
    rewrite Hn2 by lia. rewrite Em, Ed. reflexivity.
Qed.

Lemma colour_planes_scaled_one_by_one_witness :
  exists out,
    _apply_scaling sample_engine (Some sample_rgb) = Ok (Some out) /\
    dtype out = float32 /\
    shape out = [1; 2; 3]%nat /\
    length (flat out) = (1 * 2 * 3)%nat /\
    forall i, (i < 3)%nat ->
      exists plane scaled,
        channel_last sample_rgb i = Ok plane /\
        _apply_scaling_to_channel sample_engine (astype_float float32 plane)
        = Ok scaled /\
        channel_last out i = Ok scaled.
Proof.
  destruct (scaling_array_unit sample_engine sample_rgb 0 100)
    as (out & Hout & _).
  - reflexivity.
  - reflexivity.
  - lra.
  - repeat constructor.
  - discriminate.
  - exists out. split; [exact Hout|].
    apply (colour_planes_scaled_one_by_one sample_engine sample_rgb out 1 2).
    + reflexivity.
    + reflexivity.
    + exact Hout.
Defined.

(* ------------------------------------------------------------------ *)
(** ** MainWindow: the colormap panel and the way the image is drawn *)

Lemma apply_scaling_shape self shown scaled :
  _apply_scaling self (Some shown) = Ok (Some scaled) ->
  shape scaled = shape shown.
Proof.
  unfold _apply_scaling.
  destruct ((ndim shown =? 3) && (nth 2 (shape shown) 0 =? 3))%nat eqn:Hrgb.
  - destruct (rgb_shape shown Hrgb) as (h & w & Hs).
    cbn [fold_left rbind].
    assert (Hstep : forall acc i next,
      shape acc = [h; w; 3]%nat ->
      (channel <-? channel_last shown i ;
       scaled <-? _apply_scaling_to_channel self
                    (astype_float float32 channel) ;
       set_channel_last acc i scaled)%result = Ok next ->
      shape next = [h; w; 3]%nat).
    { intros acc i next Hsa Hnext.
      destruct (channel_last shown i) as [plane|]; [|discriminate].
      cbn [rbind] in Hnext.
      destruct (_apply_scaling_to_channel self _) as [s|]; [|discriminate].
      cbn [rbind] in Hnext.
      apply (set_channel_last_nth acc i s h w next Hsa Hnext). }
    destruct ((channel <-? channel_last shown 0 ;
               scaled <-? _apply_scaling_to_channel self
                            (astype_float float32 channel) ;
               set_channel_last (zeros_like shown float32) 0 scaled)%result)
      as [acc0|] eqn:E0; [|discriminate].
    cbn [rbind].
    destruct ((channel <-? channel_last shown 1 ;
               scaled <-? _apply_scaling_to_channel self
                            (astype_float float32 channel) ;
               set_channel_last acc0 1 scaled)%result)
      as [acc1|] eqn:E1; [|discriminate].
    cbn [rbind].
    destruct ((channel <-? channel_last shown 2 ;
               scaled <-? _apply_scaling_to_channel self
                            (astype_float float32 channel) ;
               set_channel_last acc1 2 scaled)%result)
      as [acc2|] eqn:E2; [|discriminate].
    cbn [rbind]. intros [= <-]. rewrite Hs.
    apply (Hstep acc1 2%nat acc2); [|exact E2].
    apply (Hstep acc0 1%nat acc1); [|exact E1].
    apply (Hstep (zeros_like shown float32) 0%nat acc0); [exact Hs | exact E0].
  - destruct (_apply_scaling_to_channel self shown) as [s|] eqn:E;
      [|discriminate].
    cbn [rbind]. intros [= <-].
    apply (scaling_channel_shape _ _ _ E).
Qed.

Lemma prepared_is_rgb (e : ImageDisplayEngine) data shown :
  current_data e = Some data ->
  _prepare_data_for_display e = Ok (Some shown) ->
  is_rgb shown = ((ndim data =? 3) && (nth 0 (shape data) 0 =? 3))%nat.
Proof.
  intros Hdata. unfold _prepare_data_for_display. rewrite Hdata.
  destruct (Nat.eqb_spec (ndim data) 1) as [H1|H1]; [discriminate|].
  destruct (Nat.eqb_spec (ndim data) 2) as [H2|H2].
  - intros [= <-]. unfold is_rgb. rewrite H2. reflexivity.
  - destruct (Nat.eqb_spec (ndim data) 3) as [H3|H3].
    + unfold ndim in H3.
      destruct (shape data) as [|n [|h [|w [|? ?]]]] eqn:Hs; try discriminate.
      cbn [nth andb].
      destruct (Nat.eqb_spec n 3) as [Hn|Hn].
      * unfold transpose_120. rewrite Hs. cbn [rbind]. intros [= <-].
        subst n. reflexivity.
      * destruct (index_first data (n / 2)) as [slice|] eqn:E;
          [|discriminate].
        cbn [rbind]. intros [= <-].
        pose proof (index_first_shape _ _ _ E) as Hss.
        rewrite Hs in Hss. cbn [tl] in Hss.
        unfold is_rgb, ndim. rewrite Hss. reflexivity.
    + destruct (index_tuple data _) as [slice|] eqn:E; [|discriminate].
      cbn [rbind andb]. intros [= <-].
      pose proof (index_tuple_shape _ _ _ E) as Hss.
      rewrite length_map, length_seq in Hss.
      unfold is_rgb, ndim. rewrite Hss, length_skipn.
      fold (ndim data).
      destruct (Nat.eqb_spec (ndim data - (ndim data - 2)) 3) as [H|H];
        [|reflexivity].
      exfalso. lia.
Qed.

(** X24.  The colormap panel agrees with the way the image is drawn.
    When the engine holds an array, and [update_display] has an image to
    draw for it, [update_colormap_status] enables the colormap box and
    the invert check exactly when that image is drawn through the
    colormap (it is not an RGB image), and shows and enables the
    "RGB to grayscale" button exactly when it is.  Without an array the
    two controls are disabled and the button is hidden. *)
Theorem colormap_controls_match_drawing :
  forall (self : MainWindow) (controls : ColormapControls),
    (current_data (image_engine self) = None ->
     let controls' := update_colormap_status self controls in
     colormap_status_label controls' = NoDataLoaded /\
     colormap_combo_enabled controls' = false /\
     invert_colormap_check_enabled controls' = false /\
     rgb_to_gray_btn_visible controls' = false) /\
    (forall data shown scaled,
        current_data (image_engine self) = Some data ->
        _prepare_data_for_display (image_engine self) = Ok (Some shown) ->
        _apply_scaling (image_engine self) (Some shown) = Ok (Some scaled) ->
        let controls' := update_colormap_status self controls in
        colormap_combo_enabled controls' = negb (is_rgb scaled) /\
        invert_colormap_check_enabled controls' = negb (is_rgb scaled) /\
        rgb_to_gray_btn_visible controls' = is_rgb scaled /\
        rgb_to_gray_btn_enabled controls' = is_rgb scaled /\
        colormap_status_label controls'
        = if is_rgb scaled then ColormapDisabledForRGB else ColormapActive).
Proof.
  intros self controls. split.
  - intros Hnone. cbv zeta. unfold update_colormap_status. rewrite Hnone.
    repeat split.
  - intros data shown scaled Hdata Hshown Hscaled. cbv zeta.
    assert (Hrgb : is_rgb scaled
                   = ((ndim data =? 3) && (nth 0 (shape data) 0 =? 3))%nat).
    { rewrite <- (prepared_is_rgb _ _ _ Hdata Hshown).
      unfold is_rgb, ndim. rewrite (apply_scaling_shape _ _ _ Hscaled).
      reflexivity. }
    unfold update_colormap_status. rewrite Hdata, Hrgb.
    destruct ((ndim data =? 3) && (nth 0 (shape data) 0 =? 3))%nat;
      repeat split.
Qed.

Lemma colormap_controls_match_drawing_witness :
  colormap_status_label
    (update_colormap_status fresh_window sample_controls)
  = ColormapActive.
Proof.
  destruct (colormap_controls_match_drawing fresh_window sample_controls)
    as [_ H].
  destruct (scaling_array_unit sample_engine sample_image 0 100)
    as (scaled & Hscaled & Hshape & _).
  - reflexivity.
  - reflexivity.
  - lra.
  - repeat constructor.
  - discriminate.
  - destruct (H sample_image sample_image scaled eq_refl eq_refl Hscaled)
      as (_ & _ & _ & _ & Hlabel).
    rewrite Hlabel. unfold is_rgb, ndim. rewrite Hshape. reflexivity.
Defined.

(* ------------------------------------------------------------------ *)
(** ** Flips rearrange the samples *)

(** Counting, the extremes, sorting and hence histograms and percentiles
    do not depend on the order of the samples. *)
Lemma count_if_rearranged p xs ys :
  Permutation xs ys -> count_if p xs = count_if p ys.
Proof.
  intros H. unfold count_if.
  induction H as [|x l l' _ IH|x y l|l l' l'' _ IH1 _ IH2]; cbn [filter].
  - reflexivity.
  - destruct (p x); cbn [length]; congruence.
  - destruct (p x), (p y); reflexivity.
  - congruence.
Qed.

Lemma bin_counts_rearranged edges xs ys :
  Permutation xs ys -> bin_counts edges xs = bin_counts edges ys.
Proof.
  intros H. induction edges as [|lo upper IH]; [reflexivity|].
  destruct upper as [|hi rest]; [reflexivity|].
  rewrite !bin_counts_step, IH. f_equal. apply count_if_rearranged, H.
Qed.

Lemma Rlist_min_in x xs : In (Rlist_min x xs) (x :: xs).
Proof.
  unfold Rlist_min. revert x.
  induction xs as [|y xs IH]; intros x; cbn [fold_left].
  - left. reflexivity.
  - destruct (IH (Rmin x y)) as [H|H].
    + rewrite <- H. unfold Rmin.
      destruct (Rle_dec x y); [left | right; left]; reflexivity.
    + right. right. exact H.
Qed.

Lemma Rlist_max_in x xs : In (Rlist_max x xs) (x :: xs).
Proof.
  unfold Rlist_max. revert x.
  induction xs as [|y xs IH]; intros x; cbn [fold_left].
  - left. reflexivity.
  - destruct (IH (Rmax x y)) as [H|H].
    + rewrite <- H. unfold Rmax.
      destruct (Rle_dec x y); [right; left | left]; reflexivity.
    + right. right. exact H.
Qed.

Lemma Rlist_min_rearranged x xs y ys :
  Permutation (x :: xs) (y :: ys) -> Rlist_min x xs = Rlist_min y ys.
Proof.
  intros H.
  assert (Hlow : forall a l z, In z (a :: l) -> Rlist_min a l <= z).
  { intros a l z Hz. destruct (Rlist_min_lower a l) as [Ha Hl].
    destruct Hz as [<-|Hz]; [exact Ha|].
    rewrite Forall_forall in Hl. apply Hl, Hz. }
  apply Rle_antisym; apply Hlow.
  - apply (Permutation_in _ (Permutation_sym H)), Rlist_min_in.
  - apply (Permutation_in _ H), Rlist_min_in.
Qed.

Lemma Rlist_max_rearranged x xs y ys :
  Permutation (x :: xs) (y :: ys) -> Rlist_max x xs = Rlist_max y ys.
Proof.
  intros H.
  assert (Hup : forall a l z, In z (a :: l) -> z <= Rlist_max a l).
  { intros a l z Hz. destruct (Rlist_max_upper a l) as [Ha Hl].
    destruct Hz as [<-|Hz]; [exact Ha|].
    rewrite Forall_forall in Hl. apply Hl, Hz. }
  apply Rle_antisym; apply Hup.
  - apply (Permutation_in _ H), Rlist_max_in.
  - apply (Permutation_in _ (Permutation_sym H)), Rlist_max_in.
Qed.

Lemma histogram_rearranged a a' bins :
  Permutation a a' -> histogram a bins = histogram a' bins.
Proof.
  intros H. unfold histogram.
  destruct (bins =? 0)%nat; [reflexivity|].
  destruct a as [|x xs], a' as [|y ys].
  - reflexivity.
  - apply Permutation_nil in H. discriminate.
  - apply Permutation_sym, Permutation_nil in H. discriminate.
  - rewrite (Rlist_min_rearranged _ _ _ _ H), (Rlist_max_rearranged _ _ _ _ H).
    destruct (Req_dec_T _ _);
      rewrite (bin_counts_rearranged _ _ _ H); reflexivity.
Qed.

Lemma insert_sorted_swap x y l :
  insert_sorted x (insert_sorted y l) = insert_sorted y (insert_sorted x l).
Proof.
  induction l as [|h t IH]; cbn [insert_sorted];
    repeat (match goal with
            | |- context [Rle_dec ?a ?b] =>
                destruct (Rle_dec a b); cbn [insert_sorted]
            end);
    try reflexivity; try (exfalso; lra);
    try (replace y with x by lra; reflexivity).
  now rewrite IH.
Qed.

Lemma sort_rearranged l l' : Permutation l l' -> sort l = sort l'.
Proof.
  intros H. unfold sort.
  induction H as [|x l l' _ IH|x y l|l l' l'' _ IH1 _ IH2]; cbn [fold_right].
  - reflexivity.
  - now rewrite IH.
  - apply insert_sorted_swap.
  - congruence.
Qed.

Lemma percentile_rearranged a a' q :
  Permutation a a' -> percentile a q = percentile a' q.
Proof.
  intros H. unfold percentile.
  now rewrite (sort_rearranged _ _ H), (Permutation_length H).
Qed.

Lemma finite_values_rearranged xs ys :
  Permutation xs ys -> Permutation (finite_values xs) (finite_values ys).
Proof. intros H. unfold finite_values. now apply Permutation_flat_map. Qed.

Lemma auto_scale_rearranged e e' d d' lo hi :
  current_data e = Some d -> current_data e' = Some d' ->
  Permutation (flat d) (flat d') ->
  auto_scale e lo hi = auto_scale e' lo hi.
Proof.
  intros Hd Hd' H. unfold auto_scale. rewrite Hd, Hd'.
  apply finite_values_rearranged in H.
  destruct (finite_values (flat d)) as [|x xs],
           (finite_values (flat d')) as [|y ys].
  - reflexivity.
  - apply Permutation_nil in H. discriminate.
  - apply Permutation_sym, Permutation_nil in H. discriminate.
  - now rewrite !(percentile_rearranged _ _ _ H),
      (Rlist_min_rearranged _ _ _ _ H), (Rlist_max_rearranged _ _ _ _ H).
Qed.

(** The bars that [update_histogram] draws depend on the samples only. *)
Lemma update_histogram_bars_rearranged d d' v1 v2 v1' v2' bins h h' :
  Permutation (flat d) (flat d') ->
  HistogramWidget.bars
    (snd (HistogramWidget.update_histogram (Some d) v1 v2 bins h))
  = HistogramWidget.bars
      (snd (HistogramWidget.update_histogram (Some d') v1' v2' bins h')).
Proof.
  intros H. apply finite_values_rearranged in H.
  unfold HistogramWidget.update_histogram, bind, modify, reading, ret.
  rewrite (Permutation_length H), (histogram_rearranged _ _ bins H).
  destruct (length (finite_values (flat d')) =? 0)%nat; [reflexivity|].
  destruct (histogram (finite_values (flat d')) bins) as [[counts edges]|];
    [|reflexivity].
  destruct v1, v2, v1', v2'; reflexivity.
Qed.

(** An array read through an index map that is its own inverse holds the
    same samples. *)
Lemma gather_rearranges n src xs :
  length xs = n ->
  (forall k, (k < n)%nat -> (src k < n)%nat) ->
  (forall k, (k < n)%nat -> src (src k) = k) ->
  Permutation (gather n src xs) xs.
Proof.
  intros Hlen Hb Hinv. unfold gather.
  apply Permutation_trans with (l' := map (fun i => nth i xs (Fin 0)) (seq 0 n));
    [|rewrite <- Hlen, map_nth_seq; apply Permutation_refl].
  rewrite <- (map_map src (fun i => nth i xs (Fin 0))).
  apply Permutation_map, Permutation_map_same_l.
  - apply Finite.Injective_map_NoDup_in; [|apply seq_NoDup].
    intros i j Hi Hj E. apply in_seq in Hi, Hj.
    rewrite <- (Hinv i), <- (Hinv j) by lia. now rewrite E.
  - intros k Hk. apply in_map_iff in Hk. destruct Hk as (j & <- & Hj).
    apply in_seq in Hj. apply in_seq. specialize (Hb j). lia.
Qed.

Lemma block_offset w q s :
  (s < w)%nat -> ((w * q + s) mod w = s /\ (w * q + s) / w = q)%nat.
Proof.
  intros Hs. split.
  - rewrite Nat.add_comm, Nat.mul_comm, Nat.Div0.mod_add.
    now apply Nat.mod_small.
  - rewrite Nat.add_comm, Nat.mul_comm, Nat.div_add by lia.
    rewrite Nat.div_small by exact Hs. reflexivity.
Qed.

Lemma flip_last_rearranges a lead w b :
  shape a = lead ++ [w] -> length (flat a) = size a ->
  flip_last a = Ok b -> Permutation (flat b) (flat a).
Proof.
  intros Hs Hlen Hb. unfold flip_last in Hb.
  rewrite Hs, rev_app_distr in Hb. cbn [rev app] in Hb.
  injection Hb as <-. cbn [flat].
  assert (Hn : length (flat a) = (prod lead * w)%nat).
  { rewrite Hlen. unfold size. rewrite Hs, prod_app.
    unfold prod. cbn [fold_right]. lia. }
  assert (Hsplit : forall k, (k < length (flat a))%nat ->
            exists q r, (k = w * q + r /\ r < w /\ q < prod lead)%nat).
  { intros k Hk. exists (k / w)%nat, (k mod w)%nat.
    assert (Hw : (w <> 0)%nat) by nia.
    split; [apply Nat.div_mod_eq|].
    split; [now apply Nat.mod_upper_bound|].
    apply Nat.Div0.div_lt_upper_bound. nia. }
  apply gather_rearranges; [reflexivity | |]; intros k Hk;
    destruct (Hsplit k Hk) as (q & r & -> & Hr & Hq);
    destruct (block_offset w q r Hr) as [Hm _]; rewrite Hm.
  - nia.
  - replace (w * q + r - r + (w - 1 - r))%nat
      with (w * q + (w - 1 - r))%nat by lia.
    destruct (block_offset w q (w - 1 - r)) as [Hm' _]; [lia|].
    rewrite Hm'. lia.
Qed.

Lemma flip_second_last_rearranges a lead h w b :
  shape a = lead ++ [h; w] -> length (flat a) = size a ->
  flip_second_last a = Ok b -> Permutation (flat b) (flat a).
Proof.
  intros Hs Hlen Hb. unfold flip_second_last in Hb.
  rewrite Hs, rev_app_distr in Hb. cbn [rev app] in Hb.
  injection Hb as <-. cbn [flat].
  assert (Hn : length (flat a) = (prod lead * (h * w))%nat).
  { rewrite Hlen. unfold size. rewrite Hs, prod_app.
    unfold prod. cbn [fold_right]. lia. }
  assert (Hsplit : forall k, (k < length (flat a))%nat ->
            exists q i j, (k = h * w * q + (w * i + j) /\ j < w /\ i < h
                           /\ q < prod lead)%nat).
  { intros k Hk.
    assert (Hhw : (h * w <> 0)%nat) by nia.
    assert (Hw : (w <> 0)%nat) by nia.
    exists (k / (h * w))%nat, (k mod (h * w) / w)%nat, (k mod (h * w) mod w)%nat.
    split; [rewrite <- Nat.div_mod_eq; apply Nat.div_mod_eq|].
    split; [now apply Nat.mod_upper_bound|].
    split.
    - apply Nat.Div0.div_lt_upper_bound.
      replace (w * h)%nat with (h * w)%nat by lia.
      now apply Nat.mod_upper_bound.
    - apply Nat.Div0.div_lt_upper_bound. nia. }
  assert (Hblock : forall q i j, (j < w)%nat -> (i < h)%nat ->
            ((h * w * q + (w * i + j)) mod (h * w) = w * i + j /\
             (w * i + j) / w = i /\
             (h * w * q + (w * i + j)) mod w = j)%nat).
  { intros q i j Hj Hi.
    destruct (block_offset (h * w) q (w * i + j)) as [H1 _]; [nia|].
    destruct (block_offset w i j Hj) as [_ H2].
    destruct (block_offset w (h * q + i) j Hj) as [H3 _].
    split; [exact H1|]. split; [exact H2|].
    replace (h * w * q + (w * i + j))%nat with (w * (h * q + i) + j)%nat
      by nia.
    exact H3. }
  apply gather_rearranges; [reflexivity | |]; intros k Hk;
    destruct (Hsplit k Hk) as (q & i & j & -> & Hj & Hi & Hq);
    destruct (Hblock q i j Hj Hi) as (H1 & H2 & H3); rewrite H1, H2, H3.
  - nia.
  - replace (h * w * q + (w * i + j) - (w * i + j) + (h - 1 - i) * w + j)%nat
      with (h * w * q + (w * (h - 1 - i) + j))%nat by nia.
    destruct (Hblock q (h - 1 - i)%nat j Hj) as (H1' & H2' & H3'); [lia|].
    rewrite H1', H2', H3'.
    replace (h - 1 - (h - 1 - i))%nat with i by lia. nia.
Qed.

Section FlipsRearrange.

Context {lib : Library}.

Lemma flipped_rearranges w r lead h wd d :
  shape r = lead ++ [h; wd] -> length (flat r) = size r ->
  flipped w r = Ok d -> Permutation (flat d) (flat r).
Proof.
  intros Hs Hlen Hd. unfold flipped in Hd.
  assert (Hs' : shape r = (lead ++ [h]) ++ [wd])
    by (rewrite Hs, <- app_assoc; reflexivity).
  destruct (flip_horizontal w).
  - destruct (flip_last_item r _ _ Hs' Hlen) as (b & Hb & _ & Hsb & Hlb & _).
    rewrite Hb in Hd. cbn [rbind] in Hd.
    pose proof (flip_last_rearranges r _ _ b Hs' Hlen Hb) as P1.
    destruct (flip_vertical w).
    + apply (Permutation_trans (l' := flat b)); [|exact P1].
      apply (flip_second_last_rearranges b lead h wd d);
        [congruence | exact Hlb | exact Hd].
    + injection Hd as <-. exact P1.
  - cbn [rbind] in Hd. destruct (flip_vertical w).
    + apply (flip_second_last_rearranges r lead h wd d Hs Hlen Hd).
    + injection Hd as <-. apply Permutation_refl.
Qed.

Lemma redisplay_bars d ov oV w :
  fst (redisplay d ov oV w) = Ok tt ->
  HistogramWidget.bars (histogram_widget (snd (redisplay d ov oV w)))
  = HistogramWidget.bars
      (snd (HistogramWidget.update_histogram (Some d) None None 100
              HistogramWidget.new)).
Proof.
  unfold redisplay, bind, on_engine, on_histogram, modify, get, ret.
  cbn [image_engine with_image_engine].
  destruct (set_data (Some d) _) as [[[]|e] e2]; [|discriminate].
  cbn [image_engine with_image_engine].
  assert (Hbars : forall v1 v2 h,
            HistogramWidget.bars
              (snd (HistogramWidget.update_histogram (Some d) v1 v2 100 h))
            = HistogramWidget.bars
                (snd (HistogramWidget.update_histogram (Some d) None None 100
                        HistogramWidget.new))).
  { intros. apply update_histogram_bars_rearranged, Permutation_refl. }
  destruct ov as [a|], oV as [b|]; cbn [image_engine with_image_engine].
  - destruct (update_display _) as [[[]|e] e4]; [|discriminate].
    cbn [image_engine with_image_engine histogram_widget
         with_histogram_widget].
    intros _. rewrite <- (Hbars (vmin e4) (vmax e4) (histogram_widget w)).
    clear Hbars.
    destruct (HistogramWidget.update_histogram (Some d) (vmin e4) (vmax e4)
                100 (histogram_widget w)) as [r5 h5].
    reflexivity.
  - cbn [image_engine with_image_engine histogram_widget
         with_histogram_widget].
    intros _. rewrite <- (Hbars (vmin e2) (vmax e2) (histogram_widget w)).
    clear Hbars.
    destruct (HistogramWidget.update_histogram (Some d) (vmin e2) (vmax e2)
                100 (histogram_widget w)) as [r5 h5].
    reflexivity.
  - cbn [image_engine with_image_engine histogram_widget
         with_histogram_widget].
    intros _. rewrite <- (Hbars (vmin e2) (vmax e2) (histogram_widget w)).
    clear Hbars.
    destruct (HistogramWidget.update_histogram (Some d) (vmin e2) (vmax e2)
                100 (histogram_widget w)) as [r5 h5].
    reflexivity.
  - cbn [image_engine with_image_engine histogram_widget
         with_histogram_widget].
    intros _. rewrite <- (Hbars (vmin e2) (vmax e2) (histogram_widget w)).
    clear Hbars.
    destruct (HistogramWidget.update_histogram (Some d) (vmin e2) (vmax e2)
                100 (histogram_widget w)) as [r5 h5].
    reflexivity.
Qed.

(** X25.  Flips rearrange the samples and nothing else.  Let [r] be the
    canonical array after the rotation step (the canonical array itself
    when the angle is 0), of rank two or more.  The array that
    [apply_transformations] puts on display holds the samples of [r],
    each as many times, so [auto_scale] computes from it the limits it
    computes from [r], whatever the percentiles, and when
    [apply_transformations] returns, the histogram bars it has drawn are
    the bars of [r]: neither depends on the flip flags. *)
Theorem flips_keep_histogram_and_auto_scale :
  forall (w : MainWindow) (c r : ndarray) (lead : list nat) (h wd : nat),
    current_data (image_engine w) <> None ->
    canonical w = Ok (Some c) ->
    rotated w c = Ok r ->
    shape r = lead ++ [h; wd] ->
    length (flat r) = size r ->
    (rotation_angle w = 0%Z -> r = c) /\
    exists d,
      current_data (image_engine (snd (apply_transformations w))) = Some d /\
      Permutation (flat d) (flat r) /\
      (forall low high,
         auto_scale (image_engine (snd (apply_transformations w))) low high
         = auto_scale (with_current_data (Some r) new_engine) low high) /\
      (fst (apply_transformations w) = Ok tt ->
       HistogramWidget.bars (histogram_widget (snd (apply_transformations w)))
       = HistogramWidget.bars
           (snd (HistogramWidget.update_histogram (Some r) None None 100
                   HistogramWidget.new))).
Proof.
  intros w c r lead h wd Hcur Hcan Hrot Hs Hlen. split.
  - intros Hzero. unfold rotated in Hrot. rewrite Hzero in Hrot.
    cbn [Z.eqb] in Hrot. congruence.
  - destruct (flipped_item w r lead h wd Hs Hlen) as (d & Hd & _).
    pose proof (flipped_rearranges w r lead h wd d Hs Hlen Hd) as P.
    assert (Hshow : current_data (image_engine (snd (apply_transformations w)))
                    = Some d).
    { apply (apply_transformations_shows w c d Hcur Hcan).
      unfold transformed. rewrite Hrot. exact Hd. }
    exists d. split; [exact Hshow|]. split; [exact P|]. split.
    + intros low high.
      apply (auto_scale_rearranged _ _ d r); [exact Hshow | reflexivity | exact P].
    + rewrite (apply_transformations_unfold w Hcur), Hcan, Hrot, Hd.
      intros Hok. rewrite (redisplay_bars _ _ _ _ Hok).
      apply update_histogram_bars_rearranged, P.
Qed.

End FlipsRearrange.

Lemma flips_keep_histogram_and_auto_scale_witness :
  fst (apply_transformations (lib := example_library)
         (with_flip_horizontal true loaded_window)) = Ok tt /\
  exists d,
    current_data
      (image_engine
         (snd (apply_transformations (lib := example_library)
                 (with_flip_horizontal true loaded_window)))) = Some d /\
    Permutation (flat d) (flat sample_image).
Proof.
  destruct (flips_keep_histogram_and_auto_scale (lib := example_library)
              (with_flip_horizontal true loaded_window)
              sample_image sample_image [] 2%nat 2%nat)
    as (_ & d & Hd & P & _).
  - discriminate.
  - reflexivity.
  - reflexivity.
  - reflexivity.
  - reflexivity.
  - split.
    + apply (apply_transformations_completes (lib := example_library)
               _ sample_image
               {| dtype := DInt 16 BigEndian; shape := [2; 2]%nat;
                  flat := [Fin 2; Fin 1; Fin 4; Fin 3] |}).
      * discriminate.
      * reflexivity.
      * reflexivity.
      * reflexivity.
      * reflexivity.
    + exists d. split; [exact Hd | exact P].
Defined.
